(** * PBFT replica: the per-sequence consensus state and the node around it

    A shallow embedding of [consensus.State] (the three-phase instance:
    [CreateState], [StartConsensus], [PrePrepare], [Prepare], [Commit],
    [verifyMsg], [prepared], [committed]) and of the parts of
    [network.Node] that order execution and collect checkpoints
    ([routeMsg], [executeMsg], [Checkpointchk], [CheckPoint]).

    Go pointers to mutable structs become explicit state passing: every
    method returns the new state next to its Go results.  Maps are
    [gmap]s, machine integers are [Z] with the wrap-around written out. *)

From Stdlib Require Import ZArith Lia.
From stdpp Require Import gmap strings list fin_maps.

Local Open Scope Z_scope.

(** ** Machine integers *)

(** Two's complement wrap-around of a [w]-bit signed integer. *)
Definition wrap (w x : Z) : Z := (x + 2 ^ (w - 1)) mod 2 ^ w - 2 ^ (w - 1).

(** [int32]: the vote counters, bumped with [atomic.AddInt32]. *)
Definition int32 (x : Z) : Z := wrap 32 x.

(** [int64] and Go's [int] on the 64-bit targets the node runs on. *)
Definition int64 (x : Z) : Z := wrap 64 x.

Definition max_int32 : Z := 2 ^ 31 - 1.
Definition max_int64 : Z := 2 ^ 63 - 1.

(** ** Messages *)

(** Modelled from the spec: the message structs are declared in a file
    of the [consensus] package that is not part of the sources at hand.
    The records carry the fields the spec lists for each message, under
    the names the code reads and writes them by. *)
Record RequestMsg := mkRequestMsg {
  req_Timestamp : Z;
  req_ClientID : string;
  req_Operation : string;
  req_Data : string;
  req_SequenceID : Z
}.

Inductive MsgType := PrepareMsg | CommitMsg.

Record VoteMsg := mkVoteMsg {
  vote_ViewID : Z;
  vote_SequenceID : Z;
  vote_Digest : string;
  vote_NodeID : string;
  vote_MsgType : MsgType
}.

(** [pp_RequestMsg] is a [*RequestMsg]: it may be nil. *)
Record PrePrepareMsg := mkPrePrepareMsg {
  pp_ViewID : Z;
  pp_SequenceID : Z;
  pp_Digest : string;
  pp_RequestMsg : option RequestMsg
}.

Record ReplyMsg := mkReplyMsg {
  reply_ViewID : Z;
  reply_Timestamp : Z;
  reply_ClientID : string;
  reply_NodeID : string;
  reply_Result : string
}.

Record CheckPointMsg := mkCheckPointMsg {
  cp_SequenceID : Z;
  cp_Digest : string;
  cp_NodeID : string
}.

Global Instance MsgType_eq_dec : EqDecision MsgType.
Proof. solve_decision. Defined.
Global Instance RequestMsg_eq_dec : EqDecision RequestMsg.
Proof. solve_decision. Defined.
Global Instance VoteMsg_eq_dec : EqDecision VoteMsg.
Proof. solve_decision. Defined.

(** ** The instance state *)

(** Modelled from the spec: the [Stage] enumeration is declared outside
    the sources at hand; the spec lists IDLE, PRE_PREPARED, PREPARED,
    COMMITTED, in this order. *)
Inductive Stage := Idle | PrePrepared | Prepared | Committed.

Global Instance Stage_eq_dec : EqDecision Stage.
Proof. solve_decision. Defined.

(** The position of a stage in the enumeration. *)
Definition stage_rank (st : Stage) : Z :=
  match st with
  | Idle => 0
  | PrePrepared => 1
  | Prepared => 2
  | Committed => 3
  end.

(** A nil [*VoteMsg] stored in a vote map is [None] (the seeded
    pseudo-vote of the primary). *)
Record MsgLogs := mkMsgLogs {
  ReqMsg : option RequestMsg;
  PrepareMsgs : gmap string (option VoteMsg);
  CommitMsgs : gmap string (option VoteMsg);
  TotalPrepareMsg : Z;
  TotalCommitMsg : Z
}.

(** The struct as [consensus.State] declares it, and one more field.
    Modelled from the spec: [CheckPointState] (PENDING or STABLE in the
    spec) is missing from the declaration at hand but read and written
    by the node, as [0] and [1]; the node reads [f] under the name [F]. *)
Record State := mkState {
  ViewID : Z;
  msgLogs : MsgLogs;
  SequenceID : Z;
  CurrentStage : Stage;
  f : Z;
  CheckPointState : Z
}.

Definition set_MsgLogs (state : State) (l : MsgLogs) : State :=
  mkState (ViewID state) l (SequenceID state) (CurrentStage state)
          (f state) (CheckPointState state).

Definition set_SequenceID (state : State) (n : Z) : State :=
  mkState (ViewID state) (msgLogs state) n (CurrentStage state)
          (f state) (CheckPointState state).

Definition set_CurrentStage (state : State) (st : Stage) : State :=
  mkState (ViewID state) (msgLogs state) (SequenceID state) st
          (f state) (CheckPointState state).

Definition set_CheckPointState (c : Z) (state : State) : State :=
  mkState (ViewID state) (msgLogs state) (SequenceID state)
          (CurrentStage state) (f state) c.

Definition set_ReqMsg (l : MsgLogs) (r : option RequestMsg) : MsgLogs :=
  mkMsgLogs r (PrepareMsgs l) (CommitMsgs l) (TotalPrepareMsg l) (TotalCommitMsg l).

(** [PrepareMsgs[nodeID] = msg] followed by [atomic.AddInt32(&TotalPrepareMsg, 1)]. *)
Definition add_prepare (l : MsgLogs) (nodeID : string) (msg : option VoteMsg) : MsgLogs :=
  mkMsgLogs (ReqMsg l) (<[nodeID := msg]> (PrepareMsgs l)) (CommitMsgs l)
            (int32 (TotalPrepareMsg l + 1)) (TotalCommitMsg l).

(** [CommitMsgs[nodeID] = msg] followed by [atomic.AddInt32(&TotalCommitMsg, 1)]. *)
Definition add_commit (l : MsgLogs) (nodeID : string) (msg : option VoteMsg) : MsgLogs :=
  mkMsgLogs (ReqMsg l) (PrepareMsgs l) (<[nodeID := msg]> (CommitMsgs l))
            (TotalPrepareMsg l) (int32 (TotalCommitMsg l + 1)).

(** ** Errors and results *)

(** What [verifyMsg] reports. *)
Inductive VerifyError :=
| WrongView (stateView viewID : Z)
| WrongSequence (stateSeq sequenceID : Z)
| DigestFailed
| WrongDigest (digest digestGot : string).

Inductive Error :=
| PrePrepareCorrupted (e : VerifyError) (operation : string)
| PrepareCorrupted (e : VerifyError) (nodeID : string)
| CommitCorrupted (e : VerifyError) (nodeID : string)
| NotPrepared (sequenceID : Z)
| MarshalFailed.

(** A Go call returns its values ([Ok]), returns an error ([Err]) or
    dereferences a nil pointer ([Panic]). *)
Inductive Result (A : Type) :=
| Ok (a : A)
| Err (e : Error)
| Panic.
Arguments Ok {A} a.
Arguments Err {A} e.
Arguments Panic {A}.

Definition two_f (state : State) : Z := int64 (2 * f state).

(** ** The node *)

(** Modelled from the spec: the view-change messages are declared
    outside the sources at hand; the node only routes them, so the
    records keep the fields the spec names that the node reads. *)
Record ViewChangeMsg := mkViewChangeMsg {
  vc_NextViewID : Z;
  vc_NodeID : string;
  vc_StableCheckPoint : Z
}.

Record NewViewMsg := mkNewViewMsg {
  nv_NextViewID : Z;
  nv_NodeID : string
}.

(** What travels on the [chan interface{}] channels: one variant per
    case of the type switches in [routeMsg] and [resolveMsg]. *)
Inductive Message :=
| MsgRequest (msg : RequestMsg)
| MsgPrePrepare (msg : PrePrepareMsg)
| MsgVote (msg : VoteMsg)
| MsgReply (msg : ReplyMsg)
| MsgCheckPoint (msg : CheckPointMsg)
| MsgViewChange (msg : ViewChangeMsg)
| MsgNewView (msg : NewViewMsg).

Record NodeInfo := mkNodeInfo {
  NodeID : string;
  Url : string
}.

Record View := mkView {
  ID : Z;
  Primary : NodeInfo
}.

(** What a committed instance hands to the executor.  Both pointers are
    non-nil ([GetCommit] checks), and nothing writes to a request once
    it is handed over, so the pair holds values. *)
Record MsgPair := mkMsgPair {
  replyMsg : ReplyMsg;
  committedMsg : RequestMsg
}.

(** An outbound message; [Msg] is the message before the codec turns
    it into bytes. *)
Record MsgOut := mkMsgOut {
  Path : string;
  Msg : Message
}.

(** The channels [MsgDelivery] and [MsgOutbound] are the lists of what
    was sent on them, oldest first. *)
Record Node := mkNode {
  MyInfo : NodeInfo;
  NodeTable : list NodeInfo;
  view : View;
  States : gmap Z State;
  CommittedMsgs : list RequestMsg;
  TotalConsensus : Z;
  MsgDelivery : list Message;
  MsgOutbound : list MsgOut;
  StableCheckPoint : Z;
  CheckPointSendPoint : Z;
  CheckPointMsgsLog : gmap Z (gmap string CheckPointMsg)
}.

Definition periodCheckPoint : Z := 5.

Definition set_States (node : Node) (m : gmap Z State) : Node :=
  mkNode (MyInfo node) (NodeTable node) (view node) m (CommittedMsgs node)
         (TotalConsensus node) (MsgDelivery node) (MsgOutbound node)
         (StableCheckPoint node) (CheckPointSendPoint node) (CheckPointMsgsLog node).

Definition set_CommittedMsgs (node : Node) (l : list RequestMsg) : Node :=
  mkNode (MyInfo node) (NodeTable node) (view node) (States node) l
         (TotalConsensus node) (MsgDelivery node) (MsgOutbound node)
         (StableCheckPoint node) (CheckPointSendPoint node) (CheckPointMsgsLog node).

Definition set_MsgDelivery (node : Node) (l : list Message) : Node :=
  mkNode (MyInfo node) (NodeTable node) (view node) (States node) (CommittedMsgs node)
         (TotalConsensus node) l (MsgOutbound node)
         (StableCheckPoint node) (CheckPointSendPoint node) (CheckPointMsgsLog node).

Definition set_MsgOutbound (node : Node) (l : list MsgOut) : Node :=
  mkNode (MyInfo node) (NodeTable node) (view node) (States node) (CommittedMsgs node)
         (TotalConsensus node) (MsgDelivery node) l
         (StableCheckPoint node) (CheckPointSendPoint node) (CheckPointMsgsLog node).

Definition set_StableCheckPoint (node : Node) (n : Z) : Node :=
  mkNode (MyInfo node) (NodeTable node) (view node) (States node) (CommittedMsgs node)
         (TotalConsensus node) (MsgDelivery node) (MsgOutbound node)
         n (CheckPointSendPoint node) (CheckPointMsgsLog node).

Definition set_CheckPointSendPoint (node : Node) (n : Z) : Node :=
  mkNode (MyInfo node) (NodeTable node) (view node) (States node) (CommittedMsgs node)
         (TotalConsensus node) (MsgDelivery node) (MsgOutbound node)
         (StableCheckPoint node) n (CheckPointMsgsLog node).

Definition set_CheckPointMsgsLog (node : Node)
    (m : gmap Z (gmap string CheckPointMsg)) : Node :=
  mkNode (MyInfo node) (NodeTable node) (view node) (States node) (CommittedMsgs node)
         (TotalConsensus node) (MsgDelivery node) (MsgOutbound node)
         (StableCheckPoint node) (CheckPointSendPoint node) m.

(** How a run of the inner loop of [executeMsg] ends: it leaves the loop
    at its [break], it dereferences a nil pointer, or the model ran out
    of steps. *)
Inductive LoopResult :=
| Finished (node : Node) (pairs : gmap Z MsgPair)
| Crashed
| OutOfFuel.


(** What a handler of the node reports: the instance refused the message,
    or no instance is registered under the sequence number yet. *)
Inductive NodeError :=
| StateNotCreated (sequenceID : Z)
| InstanceError (e : Error).

(** How a handler ends: it returns nil, it returns an error, or it
    dereferences a nil pointer. *)
Inductive Outcome :=
| Handled
| Refused (e : NodeError)
| Panicked.

(** Number of error messages to start cooling. *)
Definition CoolingTotalErrMsg : Z := 100.

Definition set_TotalConsensus (node : Node) (n : Z) : Node :=
  mkNode (MyInfo node) (NodeTable node) (view node) (States node) (CommittedMsgs node)
         n (MsgDelivery node) (MsgOutbound node)
         (StableCheckPoint node) (CheckPointSendPoint node) (CheckPointMsgsLog node).

Definition set_NodeID (msg : VoteMsg) (nodeID : string) : VoteMsg :=
  mkVoteMsg (vote_ViewID msg) (vote_SequenceID msg) (vote_Digest msg) nodeID
            (vote_MsgType msg).

Definition set_reply_NodeID (msg : ReplyMsg) (nodeID : string) : ReplyMsg :=
  mkReplyMsg (reply_ViewID msg) (reply_Timestamp msg) (reply_ClientID msg) nodeID
             (reply_Result msg).

(** ** Sample data

    A four-replica cluster R0..R3 with R0 primary, one client request,
    and a stand-in for the digest oracle that tells the sample requests
    apart. *)

Definition sample_digest (r : option RequestMsg) : option string :=
  Some match r with
       | None => "null"
       | Some r => req_ClientID r +:+ "/" +:+ req_Operation r +:+ "/" +:+ req_Data r
       end.

Definition reqX : RequestMsg := mkRequestMsg 1 "C" "x" "" 1.
Definition reqY : RequestMsg := mkRequestMsg 1 "C" "y" "" 1.

Definition ppX : PrePrepareMsg := mkPrePrepareMsg 0 1 "C/x/" (Some reqX).
Definition ppY : PrePrepareMsg := mkPrePrepareMsg 0 1 "C/y/" (Some reqY).

(** A PRE-PREPARE for another view. *)
Definition ppWrongView : PrePrepareMsg := mkPrePrepareMsg 7 9 "C/y/" (Some reqY).

Definition prepareFrom (nodeID : string) : VoteMsg := mkVoteMsg 0 1 "C/x/" nodeID PrepareMsg.
Definition commitFrom (nodeID : string) : VoteMsg := mkVoteMsg 0 1 "C/x/" nodeID CommitMsg.

Definition R0 : NodeInfo := mkNodeInfo "R0" "localhost:1111".
Definition R1 : NodeInfo := mkNodeInfo "R1" "localhost:1112".
Definition R2 : NodeInfo := mkNodeInfo "R2" "localhost:1113".
Definition R3 : NodeInfo := mkNodeInfo "R3" "localhost:1114".
Definition cluster : list NodeInfo := [R0; R1; R2; R3].


(** The instance [CreateState] returns for view 0 in a cluster of four
    (f = 1), and in a cluster of seven (f = 2), primary R0. *)
Definition sampleState : State :=
  mkState 0 (mkMsgLogs None {["R0" := None]} ∅ 1 0) 0 Idle 1 0.
Definition sampleState7 : State :=
  mkState 0 (mkMsgLogs None {["R0" := None]} ∅ 1 0) 0 Idle 2 0.

(** A constructor with the argument order of the node's call: the
    instance of [CreateState] with the node's ID seeded. *)
Definition sampleCreateStateFor (viewID : Z) (nodeID : string) (totNodes : Z) : State :=
  mkState viewID (mkMsgLogs None {[nodeID := None]} ∅ 1 0) 0 Idle
          (int64 (Z.quot (int64 (totNodes - 1)) 3)) 0.

(** Replica R1 as [NewNode] leaves it. *)
Definition sampleNode : Node :=
  mkNode R1 cluster (mkView 0 R0) ∅ [] 0 [] [] 0 0 ∅.

(** The pair a committed instance hands to the executor for sequence
    number [n]. *)
Definition requestAt (n : Z) : RequestMsg := mkRequestMsg 1 "C" "x" "" n.
Definition pairAt (n : Z) : MsgPair :=
  mkMsgPair (mkReplyMsg 0 1 "C" "R1" "") (requestAt n).

(** A committed instance for sequence number [n], f = 1, checkpoint
    pending. *)
Definition committedInstance (n : Z) : State :=
  mkState 0 (mkMsgLogs (Some (requestAt n)) {["R0" := None]} ∅ 2 2) n Committed 1 0.

(** The primary R0 as [NewNode] leaves it. *)
Definition samplePrimary : Node :=
  mkNode R0 cluster (mkView 0 R0) ∅ [] 0 [] [] 0 0 ∅.

(** Replica R1 holding, under sequence number 1, an instance that is
    prepared for request x and has counted the COMMIT of R2. *)
Definition preparedInstance : State :=
  mkState 0 (mkMsgLogs (Some reqX) {["R0" := None; "R2" := Some (prepareFrom "R2")]}
                       {["R2" := Some (commitFrom "R2")]} 2 1)
          1 Prepared 1 0.
Definition preparedNode : Node :=
  mkNode R1 cluster (mkView 0 R0) {[1 := preparedInstance]} [] 1 []
         [mkMsgOut "localhost:1112/commit" (MsgVote (commitFrom "R1"))] 0 0 ∅.

Definition checkPointFrom (nodeID digest : string) : CheckPointMsg :=
  mkCheckPointMsg 5 digest nodeID.

(** Replica R0 after executing 1..5, holding its own CHECKPOINT for 5
    with digest [d0] and the one of R1 with digest [d1]. *)
Definition checkpointNode (d0 d1 : string) : Node :=
  mkNode R0 cluster (mkView 0 R0)
         (list_to_map [(1, committedInstance 1); (2, committedInstance 2);
                       (3, committedInstance 3); (4, committedInstance 4);
                       (5, committedInstance 5)])
         [requestAt 1; requestAt 2; requestAt 3; requestAt 4; requestAt 5]
         5 [] [] 0 5
         {[5 := {["R0" := checkPointFrom "R0" d0; "R1" := checkPointFrom "R1" d1]}]}.

Section PBFT.

(** [digest] marshals its argument to JSON and hashes the bytes; the
    codec and the hash are collaborators.  [None] is a marshalling
    error, the argument [None] a nil request. *)
Variable digest : option RequestMsg -> option string.

Definition CreateState (viewID : Z) (totNodes : Z) (primaryID : string) : State :=
  let state :=
    mkState viewID
            (mkMsgLogs None ∅ ∅ 0 0)
            0
            Idle
            (int64 (Z.quot (int64 (totNodes - 1)) 3))
            0 in
  set_MsgLogs state (add_prepare (msgLogs state) primaryID None).

Definition StartConsensus (state : State) (request : RequestMsg) (sequenceID : Z)
  : State * Result PrePrepareMsg :=
  let state := set_SequenceID state sequenceID in
  let request :=
    mkRequestMsg (req_Timestamp request) (req_ClientID request)
                 (req_Operation request) (req_Data request) sequenceID in
  let state := set_MsgLogs state (set_ReqMsg (msgLogs state) (Some request)) in
  match digest (Some request) with
  | None => (state, Err MarshalFailed)
  | Some d =>
    let state := set_CurrentStage state PrePrepared in
    (state, Ok (mkPrePrepareMsg (ViewID state) (req_SequenceID request) d (Some request)))
  end.

Definition verifyMsg (state : State) (viewID sequenceID : Z) (digestGot : string)
  : option VerifyError :=
  if negb (ViewID state =? viewID) then
    Some (WrongView (ViewID state) viewID)
  else if negb (SequenceID state =? sequenceID) then
    Some (WrongSequence (SequenceID state) sequenceID)
  else
    match digest (ReqMsg (msgLogs state)) with
    | None => Some DigestFailed
    | Some d =>
      if negb (String.eqb digestGot d) then Some (WrongDigest d digestGot)
      else None
    end.

Definition PrePrepare (state : State) (prePrepareMsg : PrePrepareMsg)
  : State * Result VoteMsg :=
  let state := set_MsgLogs state (set_ReqMsg (msgLogs state) (pp_RequestMsg prePrepareMsg)) in
  let state := set_SequenceID state (pp_SequenceID prePrepareMsg) in
  match verifyMsg state (pp_ViewID prePrepareMsg) (pp_SequenceID prePrepareMsg)
                  (pp_Digest prePrepareMsg) with
  | Some e =>
    match pp_RequestMsg prePrepareMsg with
    | Some r => (state, Err (PrePrepareCorrupted e (req_Operation r)))
    | None => (state, Panic)
    end
  | None =>
    let state := set_CurrentStage state PrePrepared in
    (state, Ok (mkVoteMsg (ViewID state) (pp_SequenceID prePrepareMsg)
                          (pp_Digest prePrepareMsg) "" PrepareMsg))
  end.

Definition prepared (state : State) : bool :=
  match ReqMsg (msgLogs state) with
  | None => false
  | Some _ =>
    if TotalPrepareMsg (msgLogs state) <? two_f state then false else true
  end.

Definition committed (state : State) : bool :=
  if negb (prepared state) then false
  else if TotalCommitMsg (msgLogs state) <? two_f state then false
  else true.

Definition Prepare (state : State) (prepareMsg : VoteMsg)
  : State * Result (option VoteMsg) :=
  match verifyMsg state (vote_ViewID prepareMsg) (vote_SequenceID prepareMsg)
                  (vote_Digest prepareMsg) with
  | Some e => (state, Err (PrepareCorrupted e (vote_NodeID prepareMsg)))
  | None =>
    let state :=
      set_MsgLogs state
        (add_prepare (msgLogs state) (vote_NodeID prepareMsg) (Some prepareMsg)) in
    let newTotalPrepareMsg := TotalPrepareMsg (msgLogs state) in
    if two_f state <? newTotalPrepareMsg then (state, Ok None)
    else if prepared state then
      let state := set_CurrentStage state Prepared in
      (state, Ok (Some (mkVoteMsg (ViewID state) (vote_SequenceID prepareMsg)
                                  (vote_Digest prepareMsg) "" CommitMsg)))
    else (state, Ok None)
  end.

Definition Commit (state : State) (commitMsg : VoteMsg)
  : State * Result (option (ReplyMsg * RequestMsg)) :=
  if negb (prepared state) then (state, Err (NotPrepared (SequenceID state)))
  else
    match verifyMsg state (vote_ViewID commitMsg) (vote_SequenceID commitMsg)
                    (vote_Digest commitMsg) with
    | Some e => (state, Err (CommitCorrupted e (vote_NodeID commitMsg)))
    | None =>
      let state :=
        set_MsgLogs state
          (add_commit (msgLogs state) (vote_NodeID commitMsg) (Some commitMsg)) in
      let newTotalCommitMsg := TotalCommitMsg (msgLogs state) in
      if two_f state <? newTotalCommitMsg then (state, Ok None)
      else if committed state then
        let state := set_CurrentStage state Committed in
        match ReqMsg (msgLogs state) with
        | Some r =>
          (state, Ok (Some (mkReplyMsg (ViewID state) (req_Timestamp r)
                                       (req_ClientID r) "" "", r)))
        | None => (state, Panic)
        end
      else (state, Ok None)
    end.

(** *** network.Node *)

(** [node.MsgOutbound <- &MsgOut{Path: node.MyInfo.Url + path, Msg: jsonMsg}] *)
Definition Broadcast (node : Node) (msg : Message) (path : string) : Node :=
  set_MsgOutbound node
    (MsgOutbound node ++ [mkMsgOut (Url (MyInfo node) +:+ path) msg]).

Definition Reply (node : Node) (msg : ReplyMsg) : Node :=
  Broadcast node (MsgReply msg) "/reply".

Definition isMyNodePrimary (node : Node) : bool :=
  String.eqb (NodeID (MyInfo node)) (NodeID (Primary (view node))).

(** [node.MsgDelivery <- msg] *)
Definition deliver (node : Node) (msg : Message) : Node :=
  set_MsgDelivery node (MsgDelivery node ++ [msg]).

Definition routeMsg (node : Node) (msgEntered : Message) : Node :=
  match msgEntered with
  | MsgRequest _ => deliver node msgEntered
  | MsgPrePrepare _ =>
    if negb (isMyNodePrimary node) then deliver node msgEntered else node
  | MsgVote msg =>
    if negb (String.eqb (NodeID (MyInfo node)) (vote_NodeID msg))
    then deliver node msgEntered else node
  | MsgReply _ => deliver node msgEntered
  | MsgCheckPoint _ => deliver node msgEntered
  | MsgViewChange _ => deliver node msgEntered
  | MsgNewView _ => deliver node msgEntered
  end.

Definition getCheckPointMsg (SequenceID : Z) (nodeID : string) (ReqMsgs : RequestMsg)
  : option CheckPointMsg :=
  match digest (Some ReqMsgs) with
  | None => None
  | Some d => Some (mkCheckPointMsg SequenceID d nodeID)
  end.

(** [node.CheckPointMsgsLog[SequenceID]]; a missing key reads as the nil
    map, of length 0 and without entries. *)
Definition checkPointMsgsAt (node : Node) (SequenceID : Z) : gmap string CheckPointMsg :=
  default ∅ (CheckPointMsgsLog node !! SequenceID).

(** [2*node.States[SequenceID].F + 1], in Go's [int]. *)
Definition checkpointQuorum (state : State) : Z := int64 (int64 (2 * f state) + 1).

Definition Checkpointchk (node : Node) (SequenceID : Z) : bool :=
  match States node !! SequenceID with
  | None => false
  | Some state =>
    if (checkpointQuorum state <=? Z.of_nat (size (checkPointMsgsAt node SequenceID)))
       && bool_decide (is_Some (checkPointMsgsAt node SequenceID !! NodeID (MyInfo node)))
    then true
    else false
  end.

(** The first statements of [CheckPoint]: the message is saved under its
    sequence number and node, in a fresh inner map if there is none. *)
Definition storeCheckPoint (node : Node) (msg : CheckPointMsg) : Node :=
  set_CheckPointMsgsLog node
    (<[cp_SequenceID msg :=
         <[cp_NodeID msg := msg]> (checkPointMsgsAt node (cp_SequenceID msg))]>
       (CheckPointMsgsLog node)).

(** The condition of the [if] of [CheckPoint], on the node that has saved
    the message. *)
Definition becomesStable (node : Node) (msg : CheckPointMsg) : bool :=
  Checkpointchk (storeCheckPoint node msg) (cp_SequenceID msg)
  && bool_decide (CheckPointState <$> (States node !! cp_SequenceID msg) = Some 0).

(** The closing [CheckPointHistory] call only prints and is left out. *)
Definition CheckPoint (node : Node) (msg : CheckPointMsg) : Node :=
  let stored := storeCheckPoint node msg in
  if becomesStable node msg then
    let node :=
      set_States stored (alter (set_CheckPointState 1) (cp_SequenceID msg) (States stored)) in
    let fStableCheckPoint := int64 (StableCheckPoint node + periodCheckPoint) in
    let node :=
      set_CheckPointMsgsLog node
        (filter (λ kv, ¬ (kv.1 < fStableCheckPoint)) (CheckPointMsgsLog node)) in
    let node :=
      set_States node
        (filter (λ kv, ¬ (kv.1 < fStableCheckPoint)) (States node)) in
    set_StableCheckPoint node fStableCheckPoint
  else stored.

(** [lastSequenceID] of the loop: the sequence number of the last
    committed message, 0 on an empty log. *)
Definition lastSequenceID (node : Node) : Z :=
  match last (CommittedMsgs node) with
  | Some lastCommittedMsg => req_SequenceID lastCommittedMsg
  | None => 0
  end.

Definition set_Result (msg : ReplyMsg) (r : string) : ReplyMsg :=
  mkReplyMsg (reply_ViewID msg) (reply_Timestamp msg) (reply_ClientID msg)
             (reply_NodeID msg) r.

(** The inner [for] of [executeMsg]; one unit of [fuel] per iteration. *)
Fixpoint executeLoop (fuel : nat) (node : Node) (pairs : gmap Z MsgPair) : LoopResult :=
  match fuel with
  | O => OutOfFuel
  | S fuel =>
    let lastSeq := lastSequenceID node in
    match pairs !! int64 (lastSeq + 1) with
    | None => Finished node pairs
    | Some p =>
      let reply := set_Result (replyMsg p) "Executed" in
      let node := set_CommittedMsgs node (CommittedMsgs node ++ [committedMsg p]) in
      let node := Reply node reply in
      let nCheckPoint := int64 (CheckPointSendPoint node + periodCheckPoint) in
      match last (CommittedMsgs node) with
      | None => Crashed
      | Some lastMsg =>
        if req_SequenceID lastMsg =? nCheckPoint then
          let node := set_CheckPointSendPoint node nCheckPoint in
          match getCheckPointMsg (req_SequenceID lastMsg) (NodeID (MyInfo node)) lastMsg with
          | None => Crashed
          | Some checkPointMsg =>
            let node := Broadcast node (MsgCheckPoint checkPointMsg) "/checkpoint" in
            let node := CheckPoint node checkPointMsg in
            executeLoop fuel node (delete (int64 (lastSeq + 1)) pairs)
          end
        else executeLoop fuel node (delete (int64 (lastSeq + 1)) pairs)
      end
    end
  end.

(** One turn of the outer [for] of [executeMsg]: a pair arrives on
    [MsgExecution], is filed under its sequence number, and the inner
    loop runs.  It ends within one iteration per filed pair, plus the one
    that breaks. *)
Definition executeMsg (node : Node) (pairs : gmap Z MsgPair) (msgPair : MsgPair)
  : LoopResult :=
  let pairs := <[req_SequenceID (committedMsg msgPair) := msgPair]> pairs in
  executeLoop (S (size pairs)) node pairs.

(** The executor over the pairs that arrive, starting with no pair
    filed. *)
Fixpoint executeAll (node : Node) (pairs : gmap Z MsgPair) (arrivals : list MsgPair)
  : LoopResult :=
  match arrivals with
  | [] => Finished node pairs
  | msgPair :: rest =>
    match executeMsg node pairs msgPair with
    | Finished node pairs => executeAll node pairs rest
    | r => r
    end
  end.

(** [updateView]: indexing an empty table, or at a negative index,
    panics ([None]). *)
Definition updateView (node : Node) (viewID : Z) : option Node :=
  match NodeTable node with
  | [] => None
  | _ :: _ =>
    let viewIdx := Z.rem viewID (Z.of_nat (length (NodeTable node))) in
    if viewIdx <? 0 then None
    else
      match NodeTable node !! Z.to_nat viewIdx with
      | None => None
      | Some primary =>
        Some (mkNode (MyInfo node) (NodeTable node) (mkView viewID primary)
                     (States node) (CommittedMsgs node) (TotalConsensus node)
                     (MsgDelivery node) (MsgOutbound node) (StableCheckPoint node)
                     (CheckPointSendPoint node) (CheckPointMsgsLog node))
      end
  end.

(** [NewNode], without the goroutines it starts. *)
Definition NewNode (myInfo : NodeInfo) (nodeTable : list NodeInfo) (viewID : Z)
  : option Node :=
  updateView (mkNode myInfo nodeTable (mkView 0 (mkNodeInfo "" "")) ∅ [] 0 [] [] 0 0 ∅)
             viewID.

(** *** Runs of an instance *)

(** A call of one of the four operations of an instance. *)
Inductive Call :=
| CallStartConsensus (request : RequestMsg) (sequenceID : Z)
| CallPrePrepare (msg : PrePrepareMsg)
| CallPrepare (msg : VoteMsg)
| CallCommit (msg : VoteMsg).

Inductive Output :=
| OutStartConsensus (r : Result PrePrepareMsg)
| OutPrePrepare (r : Result VoteMsg)
| OutPrepare (r : Result (option VoteMsg))
| OutCommit (r : Result (option (ReplyMsg * RequestMsg))).

Definition call (state : State) (c : Call) : State * Output :=
  match c with
  | CallStartConsensus request sequenceID =>
    let '(state, r) := StartConsensus state request sequenceID in (state, OutStartConsensus r)
  | CallPrePrepare msg =>
    let '(state, r) := PrePrepare state msg in (state, OutPrePrepare r)
  | CallPrepare msg =>
    let '(state, r) := Prepare state msg in (state, OutPrepare r)
  | CallCommit msg =>
    let '(state, r) := Commit state msg in (state, OutCommit r)
  end.

(** The calls in order, each on the state the previous one left. *)
Fixpoint run (state : State) (cs : list Call) : State * list Output :=
  match cs with
  | [] => (state, [])
  | c :: cs =>
    let '(state, o) := call state c in
    let '(state, os) := run state cs in
    (state, o :: os)
  end.

(** [Prepare] returned a non-nil COMMIT message. *)
Definition emitsCommit (o : Output) : bool :=
  match o with
  | OutPrepare (Ok (Some _)) => true
  | _ => false
  end.

(** [Commit] returned a non-nil reply. *)
Definition emitsReply (o : Output) : bool :=
  match o with
  | OutCommit (Ok (Some _)) => true
  | _ => false
  end.

Definition isVoteCall (c : Call) : bool :=
  match c with
  | CallPrepare _ | CallCommit _ => true
  | _ => false
  end.

(** How many outputs of a run satisfy [p]. *)
Definition countOutputs (p : Output -> bool) (os : list Output) : nat :=
  length (filter (λ o, p o = true) os).

(** *** The handlers of the node *)

Definition getState (node : Node) (sequenceID : Z) : State + NodeError :=
  match States node !! sequenceID with
  | Some state => inl state
  | None => inr (StateNotCreated sequenceID)
  end.

(** [atomic.AddInt64(&node.TotalConsensus, 1)], then [StartConsensus]
    with the new total as sequence number. *)
Definition startConsensus (node : Node) (state : State) (reqMsg : RequestMsg)
  : Node * (State * Result PrePrepareMsg) :=
  let newTotalConsensus := int64 (TotalConsensus node + 1) in
  (set_TotalConsensus node newTotalConsensus,
   StartConsensus state reqMsg newTotalConsensus).

Definition prePrepare (state : State) (prePrepareMsg : PrePrepareMsg)
  : State * Result VoteMsg :=
  PrePrepare state prePrepareMsg.

Definition prepare (state : State) (prepareMsg : VoteMsg)
  : State * Result (option VoteMsg) :=
  Prepare state prepareMsg.

Definition commit (state : State) (commitMsg : VoteMsg)
  : State * Result (option (ReplyMsg * RequestMsg)) :=
  Commit state commitMsg.

Section Constructor.

(** The constructor the node calls takes the view, the node's own ID and
    the size of the node table, in this order; it is not the
    [CreateState] of the instance above, whose arguments are the view,
    the number of nodes and the primary's ID.  The node's constructor is
    a parameter. *)
Variable CreateStateFor : Z -> string -> Z -> State.

Definition createState (node : Node) (timeStamp : Z) : State :=
  CreateStateFor (ID (view node)) (NodeID (MyInfo node))
                 (Z.of_nat (length (NodeTable node))).

(** [GetReq]: a fresh instance runs [StartConsensus] and is registered
    under the sequence number of the PRE-PREPARE; the primary broadcasts
    the PRE-PREPARE.  On an error the instance is not registered. *)
Definition GetReq (node : Node) (reqMsg : RequestMsg) : Node * Outcome :=
  let state := createState node (req_Timestamp reqMsg) in
  let '(node, (state, r)) := startConsensus node state reqMsg in
  match r with
  | Err e => (node, Refused (InstanceError e))
  | Panic => (node, Panicked)
  | Ok prePrepareMsg =>
    let node :=
      set_States node (<[pp_SequenceID prePrepareMsg := state]> (States node)) in
    let node :=
      if isMyNodePrimary node
      then Broadcast node (MsgPrePrepare prePrepareMsg) "/preprepare"
      else node in
    (node, Handled)
  end.

End Constructor.

(** The handlers below work on the instance the registry points to: what
    the operation does to it is seen under the same key afterwards, also
    when the operation returns an error. *)
Definition GetPrePrepare (node : Node) (prePrepareMsg : PrePrepareMsg)
  : Node * Outcome :=
  match getState node (pp_SequenceID prePrepareMsg) with
  | inr e => (node, Refused e)
  | inl state =>
    let '(state, r) := prePrepare state prePrepareMsg in
    let node :=
      set_States node (<[pp_SequenceID prePrepareMsg := state]> (States node)) in
    match r with
    | Err e => (node, Refused (InstanceError e))
    | Panic => (node, Panicked)
    | Ok prepareMsg =>
      let prepareMsg := set_NodeID prepareMsg (NodeID (MyInfo node)) in
      (Broadcast node (MsgVote prepareMsg) "/prepare", Handled)
    end
  end.

Definition GetPrepare (node : Node) (prepareMsg : VoteMsg) : Node * Outcome :=
  match getState node (vote_SequenceID prepareMsg) with
  | inr e => (node, Refused e)
  | inl state =>
    let '(state, r) := prepare state prepareMsg in
    let node :=
      set_States node (<[vote_SequenceID prepareMsg := state]> (States node)) in
    match r with
    | Err e => (node, Refused (InstanceError e))
    | Panic => (node, Panicked)
    | Ok None => (node, Handled)
    | Ok (Some commitMsg) =>
      let commitMsg := set_NodeID commitMsg (NodeID (MyInfo node)) in
      (Broadcast node (MsgVote commitMsg) "/commit", Handled)
    end
  end.

(** [GetCommit]; the second component is what is sent on [MsgExecution].
    [Commit] returns the reply and the request together, so the check
    for a reply without a request never fires. *)
Definition GetCommit (node : Node) (commitMsg : VoteMsg)
  : Node * option MsgPair * Outcome :=
  match getState node (vote_SequenceID commitMsg) with
  | inr e => (node, None, Refused e)
  | inl state =>
    let '(state, r) := commit state commitMsg in
    let node :=
      set_States node (<[vote_SequenceID commitMsg := state]> (States node)) in
    match r with
    | Err e => (node, None, Refused (InstanceError e))
    | Panic => (node, None, Panicked)
    | Ok None => (node, None, Handled)
    | Ok (Some (replyMsg, committedMsg)) =>
      let replyMsg := set_reply_NodeID replyMsg (NodeID (MyInfo node)) in
      (node, Some (mkMsgPair replyMsg committedMsg), Handled)
    end
  end.

Definition GetCheckPoint (node : Node) (CheckPointMsg : CheckPointMsg) : Node * Outcome :=
  (CheckPoint node CheckPointMsg, Handled).

(** [GetNewView]: [None] when [updateView] panics. *)
Definition GetNewView (node : Node) (msg : NewViewMsg) : option Node :=
  updateView node (nv_NextViewID msg).

(** *** The error logger *)

(** The inner [for] of [logErrorMsg] over one batch of errors: the
    counter left, and how often the logger slept. *)
Fixpoint logErrors {E : Type} (coolingMsgLeft : Z) (errs : list E) : Z * nat :=
  match errs with
  | [] => (coolingMsgLeft, O)
  | _ :: errs =>
    let coolingMsgLeft := int64 (coolingMsgLeft - 1) in
    if coolingMsgLeft =? 0 then
      let '(remaining, sleeps) := logErrors CoolingTotalErrMsg errs in (remaining, S sleeps)
    else logErrors coolingMsgLeft errs
  end.

(** [logErrorMsg] over the batches received on [MsgError]. *)
Fixpoint logErrorMsg {E : Type} (coolingMsgLeft : Z) (batches : list (list E)) : Z * nat :=
  match batches with
  | [] => (coolingMsgLeft, O)
  | errs :: batches =>
    let '(coolingMsgLeft, sleeps) := logErrors coolingMsgLeft errs in
    let '(remaining, more) := logErrorMsg coolingMsgLeft batches in
    (remaining, (sleeps + more)%nat)
  end.

(** *** Predicates on the node *)

(** Every registered instance sits under its own sequence number. *)
Definition registryKeyed (node : Node) : Prop :=
  forall (k : Z) (state : State), States node !! k = Some state -> SequenceID state = k.

(** The replies and the CHECKPOINTs among the outbound messages, oldest
    first. *)
Definition repliesSent (node : Node) : list ReplyMsg :=
  omap (λ out, match Msg out with MsgReply r => Some r | _ => None end)
       (MsgOutbound node).

Definition checkPointsSent (node : Node) : list CheckPointMsg :=
  omap (λ out, match Msg out with MsgCheckPoint c => Some c | _ => None end)
       (MsgOutbound node).

(** The votes among the outbound messages. *)
Definition votesSent (node : Node) : list VoteMsg :=
  omap (λ out, match Msg out with MsgVote v => Some v | _ => None end)
       (MsgOutbound node).

(** Every vote among the outbound messages carries the node's own ID. *)
Definition votesOwn (node : Node) : Prop :=
  Forall (λ v, vote_NodeID v = NodeID (MyInfo node)) (votesSent node).

(** The executor's outputs are in step with the committed log: one
    reply, marked executed, per committed request; one CHECKPOINT of the
    node's own per [periodCheckPoint] committed requests, each for a
    multiple of the period and with the digest of the request committed
    at that sequence number; and [CheckPointSendPoint] at the last such
    multiple. *)
Definition outputsInStep (node : Node) : Prop :=
  let executed := Z.of_nat (length (CommittedMsgs node)) in
  CheckPointSendPoint node = periodCheckPoint * (executed / periodCheckPoint)
  /\ length (repliesSent node) = length (CommittedMsgs node)
  /\ Forall (λ r, reply_Result r = "Executed") (repliesSent node)
  /\ Z.of_nat (length (checkPointsSent node)) = executed / periodCheckPoint
  /\ (forall c, c ∈ checkPointsSent node ->
        cp_NodeID c = NodeID (MyInfo node)
        /\ cp_SequenceID c mod periodCheckPoint = 0
        /\ exists r, CommittedMsgs node !! Z.to_nat (cp_SequenceID c - 1) = Some r
                     /\ digest (Some r) = Some (cp_Digest c)).

(** One iteration of the inner loop of [executeMsg] on the pair [p] it
    found, up to the [delete]: [None] when it dereferences a nil
    pointer.  [executeLoop] is this body, repeated. *)
Definition executeOnce (node : Node) (p : MsgPair) : option Node :=
  let reply := set_Result (replyMsg p) "Executed" in
  let node := set_CommittedMsgs node (CommittedMsgs node ++ [committedMsg p]) in
  let node := Reply node reply in
  let nCheckPoint := int64 (CheckPointSendPoint node + periodCheckPoint) in
  match last (CommittedMsgs node) with
  | None => None
  | Some lastMsg =>
    if req_SequenceID lastMsg =? nCheckPoint then
      let node := set_CheckPointSendPoint node nCheckPoint in
      match getCheckPointMsg (req_SequenceID lastMsg) (NodeID (MyInfo node)) lastMsg with
      | None => None
      | Some checkPointMsg =>
        Some (CheckPoint (Broadcast node (MsgCheckPoint checkPointMsg) "/checkpoint")
                         checkPointMsg)
      end
    else Some node
  end.

(** The sequence numbers of the requests of a list of pairs. *)
Definition sequenceIDs (l : list MsgPair) : list Z :=
  (λ p, req_SequenceID (committedMsg p)) <$> l.

(** A vote for the view, the sequence number and the digest of a
    PRE-PREPARE. *)
Definition votesFor (msg : PrePrepareMsg) (vote : VoteMsg) : Prop :=
  vote_ViewID vote = pp_ViewID msg
  /\ vote_SequenceID vote = pp_SequenceID msg
  /\ vote_Digest vote = pp_Digest msg.

(** *** Turns of the node *)







(** Every registered instance was started by [GetReq]: its key is at
    most the number of instances the node has started. *)
Definition started (node : Node) : Prop :=
  forall k : Z, is_Some (States node !! k) -> k <= TotalConsensus node.


(** [node'] has started as many instances as [node], and registers no
    instance that [node] does not; the checkpoint flag of an instance is
    as in [node], or set. *)
Definition instancesKept (node node' : Node) : Prop :=
  TotalConsensus node' = TotalConsensus node
  /\ forall (k : Z) (state' : State),
       States node' !! k = Some state' ->
       exists state, States node !! k = Some state
                     /\ (CheckPointState state' = CheckPointState state
                         \/ CheckPointState state' = 1).

(** The counters hold [int32] values and [n] more votes do not overflow
    them. *)
Definition votesFit (state : State) (n : nat) : Prop :=
  - 2 ^ 31 <= TotalPrepareMsg (msgLogs state)
  /\ TotalPrepareMsg (msgLogs state) + Z.of_nat n <= max_int32
  /\ - 2 ^ 31 <= TotalCommitMsg (msgLogs state)
  /\ TotalCommitMsg (msgLogs state) + Z.of_nat n <= max_int32.

(** A committed instance has counted its 2f PREPARE votes: [Commit]
    checks [prepared] before it moves the stage. *)
Definition committedHasPrepares (state : State) : Prop :=
  CurrentStage state = Committed -> two_f state <= TotalPrepareMsg (msgLogs state).

(** The committed log holds sequence number i+1 at index i. *)
Definition logOrdered (log : list RequestMsg) : Prop :=
  forall (i : nat) (r : RequestMsg), log !! i = Some r -> req_SequenceID r = Z.of_nat i + 1.

(** Every pair waiting in the executor sits under the sequence number
    of its request. *)
Definition pairsFiled (pairs : gmap Z MsgPair) : Prop :=
  forall (k : Z) (p : MsgPair), pairs !! k = Some p -> req_SequenceID (committedMsg p) = k.

(** ** Properties of the instance *)

Lemma int32_small (x : Z) : - 2 ^ 31 <= x < 2 ^ 31 -> int32 x = x.
Proof.
  intros Hx. unfold int32, wrap.
  change (2 ^ (32 - 1)) with 2147483648 in *.
  change (2 ^ 32) with 4294967296.
  change (2 ^ 31) with 2147483648 in Hx.
  rewrite Z.mod_small; lia.
Qed.

Lemma int64_small (x : Z) : - 2 ^ 63 <= x < 2 ^ 63 -> int64 x = x.
Proof.
  intros Hx. unfold int64, wrap.
  change (2 ^ (64 - 1)) with 9223372036854775808 in *.
  change (2 ^ 64) with 18446744073709551616.
  change (2 ^ 63) with 9223372036854775808 in Hx.
  rewrite Z.mod_small; lia.
Qed.


Lemma checkpointQuorum_small (state : State) :
  - 2 ^ 62 <= f state < 2 ^ 62 - 1 -> checkpointQuorum state = 2 * f state + 1.
Proof.
  intros Hf. unfold checkpointQuorum.
  change (2 ^ 62) with 4611686018427387904 in Hf.
  rewrite !int64_small; change (2 ^ 63) with 9223372036854775808; try lia.
  rewrite int64_small; change (2 ^ 63) with 9223372036854775808; lia.
Qed.

(** [CreateState] computes f = (n - 1) / 3 for a table of n nodes. *)
Lemma CreateState_f (viewID totNodes : Z) (primaryID : string) :
  0 <= totNodes < 2 ^ 63 ->
  f (CreateState viewID totNodes primaryID) = Z.quot (totNodes - 1) 3.
Proof.
  intros Hn. change (2 ^ 63) with 9223372036854775808 in Hn.
  unfold CreateState; simpl.
  assert (Hq : -1 <= Z.quot (totNodes - 1) 3 <= totNodes).
  { destruct (Z.eq_dec totNodes 0) as [-> | Hne]; [by vm_compute |].
    pose proof (Z.quot_pos (totNodes - 1) 3 ltac:(lia) ltac:(lia)).
    pose proof (Z.quot_le_upper_bound (totNodes - 1) 3 totNodes ltac:(lia) ltac:(lia)).
    lia. }
  rewrite (int64_small (totNodes - 1));
    [ apply int64_small | ]; change (2 ^ 63) with 9223372036854775808; lia.
Qed.

(** What a passed [verifyMsg] establishes. *)
Lemma verifyMsg_None (state : State) (viewID sequenceID : Z) (digestGot : string) :
  verifyMsg state viewID sequenceID digestGot = None <->
  ViewID state = viewID /\ SequenceID state = sequenceID
  /\ digest (ReqMsg (msgLogs state)) = Some digestGot.
Proof.
  unfold verifyMsg.
  destruct (Z.eqb_spec (ViewID state) viewID) as [Hv | Hv]; simpl;
    [| split; [discriminate | tauto]].
  destruct (Z.eqb_spec (SequenceID state) sequenceID) as [Hs | Hs]; simpl;
    [| split; [discriminate | tauto]].
  destruct (digest (ReqMsg (msgLogs state))) as [d |];
    [| split; [discriminate | intros (_ & _ & [=])]].
  destruct (String.eqb_spec digestGot d) as [Hd | Hd]; simpl.
  - subst. tauto.
  - split; [discriminate | intros (_ & _ & [= Heq]); congruence].
Qed.

(** *** One call of [Prepare] *)

(** [Prepare] returns a COMMIT only on the vote that brings the counter
    to exactly 2f, on an instance that holds a request. *)
Lemma Prepare_emits (state state' : State) (prepareMsg commitMsg : VoteMsg) :
  Prepare state prepareMsg = (state', Ok (Some commitMsg)) ->
  verifyMsg state (vote_ViewID prepareMsg) (vote_SequenceID prepareMsg)
            (vote_Digest prepareMsg) = None
  /\ int32 (TotalPrepareMsg (msgLogs state) + 1) = two_f state
  /\ is_Some (ReqMsg (msgLogs state))
  /\ state' =
     set_CurrentStage
       (set_MsgLogs state
          (add_prepare (msgLogs state) (vote_NodeID prepareMsg) (Some prepareMsg)))
       Prepared
  /\ commitMsg = mkVoteMsg (ViewID state) (vote_SequenceID prepareMsg)
                           (vote_Digest prepareMsg) "" CommitMsg.
Proof.
  unfold Prepare, prepared, two_f. simpl.
  destruct (verifyMsg _ _ _ _); [discriminate |].
  destruct (Z.ltb_spec (int64 (2 * f state)) (int32 (TotalPrepareMsg (msgLogs state) + 1)));
    [discriminate |].
  destruct (ReqMsg (msgLogs state)) as [r |]; [| discriminate].
  destruct (Z.ltb_spec (int32 (TotalPrepareMsg (msgLogs state) + 1)) (int64 (2 * f state)));
    [discriminate |].
  intros [= <- <-]. repeat split; eauto. lia.
Qed.

(** Whatever [Prepare] returns, it leaves the view, the sequence number,
    f, the request and the commit votes alone, and the prepare counter
    is either untouched (the vote was rejected) or bumped by one. *)
Lemma Prepare_frame (state : State) (prepareMsg : VoteMsg) :
  let state' := (Prepare state prepareMsg).1 in
  ViewID state' = ViewID state /\ SequenceID state' = SequenceID state
  /\ f state' = f state /\ CheckPointState state' = CheckPointState state
  /\ ReqMsg (msgLogs state') = ReqMsg (msgLogs state)
  /\ CommitMsgs (msgLogs state') = CommitMsgs (msgLogs state)
  /\ TotalCommitMsg (msgLogs state') = TotalCommitMsg (msgLogs state)
  /\ (TotalPrepareMsg (msgLogs state') = TotalPrepareMsg (msgLogs state)
      \/ TotalPrepareMsg (msgLogs state') = int32 (TotalPrepareMsg (msgLogs state) + 1)).
Proof.
  unfold Prepare. simpl.
  destruct (verifyMsg _ _ _ _); simpl; [tauto |].
  destruct (_ <? _); simpl; [tauto |].
  destruct (prepared _); simpl; tauto.
Qed.

(** A rejected PREPARE leaves the instance as it was. *)
Lemma Prepare_Err_unchanged (state state' : State) (prepareMsg : VoteMsg) (e : Error) :
  Prepare state prepareMsg = (state', Err e) -> state' = state.
Proof.
  unfold Prepare.
  destruct (verifyMsg _ _ _ _); [by intros [= <- _] |].
  destruct (_ <? _); [discriminate |].
  destruct (prepared _); discriminate.
Qed.

(** *** One call of [Commit] *)

Lemma prepared_add_commit (state : State) (nodeID : string) (msg : option VoteMsg) :
  prepared (set_MsgLogs state (add_commit (msgLogs state) nodeID msg)) = prepared state.
Proof. reflexivity. Qed.

(** [Commit] returns a reply only on a prepared instance, on the vote
    that brings the commit counter to exactly 2f. *)
Lemma Commit_emits (state state' : State) (commitMsg : VoteMsg)
    (reply : ReplyMsg) (request : RequestMsg) :
  Commit state commitMsg = (state', Ok (Some (reply, request))) ->
  prepared state = true
  /\ verifyMsg state (vote_ViewID commitMsg) (vote_SequenceID commitMsg)
               (vote_Digest commitMsg) = None
  /\ int32 (TotalCommitMsg (msgLogs state) + 1) = two_f state
  /\ ReqMsg (msgLogs state) = Some request
  /\ state' =
     set_CurrentStage
       (set_MsgLogs state
          (add_commit (msgLogs state) (vote_NodeID commitMsg) (Some commitMsg)))
       Committed
  /\ reply = mkReplyMsg (ViewID state) (req_Timestamp request) (req_ClientID request) "" "".
Proof.
  unfold Commit.
  destruct (prepared state) eqn:Hp; simpl; [| discriminate].
  destruct (verifyMsg _ _ _ _); [discriminate |].
  unfold committed. rewrite prepared_add_commit, Hp. simpl.
  unfold two_f; simpl.
  destruct (Z.ltb_spec (int64 (2 * f state)) (int32 (TotalCommitMsg (msgLogs state) + 1)));
    [discriminate |].
  destruct (Z.ltb_spec (int32 (TotalCommitMsg (msgLogs state) + 1)) (int64 (2 * f state)));
    [discriminate |].
  destruct (ReqMsg (msgLogs state)) as [r |] eqn:Hr; [| discriminate].
  intros [= <- <- <-]. repeat split; eauto. lia.
Qed.

Lemma Commit_frame (state : State) (commitMsg : VoteMsg) :
  let state' := (Commit state commitMsg).1 in
  ViewID state' = ViewID state /\ SequenceID state' = SequenceID state
  /\ f state' = f state /\ CheckPointState state' = CheckPointState state
  /\ ReqMsg (msgLogs state') = ReqMsg (msgLogs state)
  /\ PrepareMsgs (msgLogs state') = PrepareMsgs (msgLogs state)
  /\ TotalPrepareMsg (msgLogs state') = TotalPrepareMsg (msgLogs state)
  /\ (TotalCommitMsg (msgLogs state') = TotalCommitMsg (msgLogs state)
      \/ TotalCommitMsg (msgLogs state') = int32 (TotalCommitMsg (msgLogs state) + 1)).
Proof.
  unfold Commit. repeat case_match; simpl; tauto.
Qed.

(** A rejected COMMIT leaves the instance as it was. *)
Lemma Commit_Err_unchanged (state state' : State) (commitMsg : VoteMsg) (e : Error) :
  Commit state commitMsg = (state', Err e) -> state' = state.
Proof.
  unfold Commit.
  destruct (prepared state); simpl; [| by intros [= <- _]].
  destruct (verifyMsg _ _ _ _); [by intros [= <- _] |].
  destruct (_ <? _); [discriminate |].
  destruct (committed _); [| discriminate].
  destruct (ReqMsg _); discriminate.
Qed.

Lemma prepared_true (state : State) :
  prepared state = true ->
  is_Some (ReqMsg (msgLogs state)) /\ two_f state <= TotalPrepareMsg (msgLogs state).
Proof.
  unfold prepared. destruct (ReqMsg (msgLogs state)); [| discriminate].
  destruct (Z.ltb_spec (TotalPrepareMsg (msgLogs state)) (two_f state)); [discriminate |].
  eauto.
Qed.

Lemma Prepare_stage (state : State) (prepareMsg : VoteMsg) :
  CurrentStage (Prepare state prepareMsg).1 = CurrentStage state
  \/ (CurrentStage (Prepare state prepareMsg).1 = Prepared
      /\ int32 (TotalPrepareMsg (msgLogs state) + 1) = two_f state).
Proof.
  destruct (Prepare state prepareMsg) as [state' [[commitMsg |] | e |]] eqn:HP; simpl.
  - apply Prepare_emits in HP as (_ & Hq & _ & -> & _). by right.
  - left. revert HP. unfold Prepare. repeat case_match; intros [= <-]; reflexivity.
  - apply Prepare_Err_unchanged in HP as ->. by left.
  - revert HP. unfold Prepare. repeat case_match; discriminate.
Qed.

Lemma Commit_stage_prepared (state : State) (commitMsg : VoteMsg) :
  CurrentStage (Commit state commitMsg).1 = CurrentStage state
  \/ (CurrentStage (Commit state commitMsg).1 = Committed /\ prepared state = true).
Proof.
  unfold Commit. destruct (prepared state); simpl; [| tauto].
  repeat case_match; simpl; tauto.
Qed.

(** *** One call of [PrePrepare] or [StartConsensus] *)

(** [PrePrepare] checks the message against the request and the sequence
    number it has just taken from that message: what is left to check is
    the view and that the digest is the one of the carried request. *)
Lemma PrePrepare_Ok_iff (state : State) (msg : PrePrepareMsg) :
  (exists v, (PrePrepare state msg).2 = Ok v) <->
  ViewID state = pp_ViewID msg /\ digest (pp_RequestMsg msg) = Some (pp_Digest msg).
Proof.
  unfold PrePrepare.
  destruct (verifyMsg _ _ _ _) as [e |] eqn:Hv.
  - split.
    + intros [v Hv']. destruct (pp_RequestMsg msg); discriminate.
    + intros [Hview Hd]. exfalso.
      assert (Hnone : verifyMsg
                (set_SequenceID
                   (set_MsgLogs state (set_ReqMsg (msgLogs state) (pp_RequestMsg msg)))
                   (pp_SequenceID msg))
                (pp_ViewID msg) (pp_SequenceID msg) (pp_Digest msg) = None)
        by (apply verifyMsg_None; simpl; auto).
      congruence.
  - apply verifyMsg_None in Hv as (Hview & _ & Hd). simpl in *.
    split; eauto.
Qed.

Lemma PrePrepare_Ok_state (state state' : State) (msg : PrePrepareMsg) (v : VoteMsg) :
  PrePrepare state msg = (state', Ok v) ->
  ViewID state' = ViewID state /\ f state' = f state
  /\ ReqMsg (msgLogs state') = pp_RequestMsg msg
  /\ SequenceID state' = pp_SequenceID msg
  /\ CurrentStage state' = PrePrepared
  /\ TotalPrepareMsg (msgLogs state') = TotalPrepareMsg (msgLogs state)
  /\ TotalCommitMsg (msgLogs state') = TotalCommitMsg (msgLogs state)
  /\ v = mkVoteMsg (ViewID state) (pp_SequenceID msg) (pp_Digest msg) "" PrepareMsg.
Proof.
  unfold PrePrepare. destruct (verifyMsg _ _ _ _).
  - destruct (pp_RequestMsg msg); discriminate.
  - intros [= <- <-]. simpl. tauto.
Qed.

Lemma StartConsensus_Ok_state (state state' : State) (request : RequestMsg)
    (sequenceID : Z) (msg : PrePrepareMsg) :
  StartConsensus state request sequenceID = (state', Ok msg) ->
  ViewID state' = ViewID state /\ f state' = f state
  /\ SequenceID state' = sequenceID
  /\ CurrentStage state' = PrePrepared
  /\ pp_RequestMsg msg = ReqMsg (msgLogs state')
  /\ pp_SequenceID msg = sequenceID
  /\ digest (pp_RequestMsg msg) = Some (pp_Digest msg).
Proof.
  unfold StartConsensus. destruct (digest _) as [d |] eqn:Hd; [| discriminate].
  intros [= <- <-]. simpl. tauto.
Qed.

(** *** Runs *)

Lemma call_Prepare (state : State) (msg : VoteMsg) :
  call state (CallPrepare msg) = ((Prepare state msg).1, OutPrepare (Prepare state msg).2).
Proof. unfold call. by destruct (Prepare state msg). Qed.

Lemma call_Commit (state : State) (msg : VoteMsg) :
  call state (CallCommit msg) = ((Commit state msg).1, OutCommit (Commit state msg).2).
Proof. unfold call. by destruct (Commit state msg). Qed.

Lemma run_cons (state : State) (c : Call) (cs : list Call) :
  run state (c :: cs) =
  ((run (call state c).1 cs).1, (call state c).2 :: (run (call state c).1 cs).2).
Proof.
  simpl. destruct (call state c) as [state1 o]. simpl.
  by destruct (run state1 cs).
Qed.

Lemma run_app (state : State) (cs1 cs2 : list Call) :
  run state (cs1 ++ cs2) =
  ((run (run state cs1).1 cs2).1, (run state cs1).2 ++ (run (run state cs1).1 cs2).2).
Proof.
  revert state. induction cs1 as [| c cs1 IH]; intros state.
  - simpl. by destruct (run state cs2).
  - rewrite <- app_comm_cons, !run_cons, IH. reflexivity.
Qed.

Lemma countOutputs_cons (p : Output -> bool) (o : Output) (os : list Output) :
  countOutputs p (o :: os) = ((if p o then 1 else 0) + countOutputs p os)%nat.
Proof.
  unfold countOutputs. rewrite filter_cons.
  destruct (p o); case_decide; simpl; congruence.
Qed.

(** A vote call leaves f alone and bumps each counter by at most one. *)
Lemma vote_call_frame (state : State) (c : Call) :
  isVoteCall c = true ->
  f (call state c).1 = f state
  /\ (TotalPrepareMsg (msgLogs (call state c).1) = TotalPrepareMsg (msgLogs state)
      \/ TotalPrepareMsg (msgLogs (call state c).1)
         = int32 (TotalPrepareMsg (msgLogs state) + 1))
  /\ (TotalCommitMsg (msgLogs (call state c).1) = TotalCommitMsg (msgLogs state)
      \/ TotalCommitMsg (msgLogs (call state c).1)
         = int32 (TotalCommitMsg (msgLogs state) + 1)).
Proof.
  destruct c as [? ? | ? | msg | msg]; try discriminate; intros _.
  - rewrite call_Prepare. simpl.
    pose proof (Prepare_frame state msg) as H. simpl in H.
    destruct H as (_ & _ & Hf & _ & _ & _ & -> & Hp). tauto.
  - rewrite call_Commit. simpl.
    pose proof (Commit_frame state msg) as H. simpl in H.
    destruct H as (_ & _ & Hf & _ & _ & _ & -> & Hc). tauto.
Qed.

Lemma vote_call_two_f (state : State) (c : Call) :
  isVoteCall c = true -> two_f (call state c).1 = two_f state.
Proof.
  intros Hc. unfold two_f. by destruct (vote_call_frame state c Hc) as (-> & _).
Qed.

Lemma call_emitsCommit (state : State) (c : Call) :
  emitsCommit (call state c).2 = true ->
  int32 (TotalPrepareMsg (msgLogs state) + 1) = two_f state
  /\ TotalPrepareMsg (msgLogs (call state c).1)
     = int32 (TotalPrepareMsg (msgLogs state) + 1).
Proof.
  destruct c as [request n | msg | msg | msg].
  - unfold call. by destruct (StartConsensus state request n).
  - unfold call. by destruct (PrePrepare state msg).
  - rewrite call_Prepare. simpl.
    destruct (Prepare state msg) as [state' [[commitMsg |] | e |]] eqn:HP;
      simpl; try discriminate.
    intros _. by apply Prepare_emits in HP as (_ & Hq & _ & -> & _).
  - rewrite call_Commit. simpl. discriminate.
Qed.

Lemma call_emitsReply (state : State) (c : Call) :
  emitsReply (call state c).2 = true ->
  int32 (TotalCommitMsg (msgLogs state) + 1) = two_f state
  /\ TotalCommitMsg (msgLogs (call state c).1)
     = int32 (TotalCommitMsg (msgLogs state) + 1).
Proof.
  destruct c as [request n | msg | msg | msg].
  - unfold call. by destruct (StartConsensus state request n).
  - unfold call. by destruct (PrePrepare state msg).
  - rewrite call_Prepare. simpl. discriminate.
  - rewrite call_Commit. simpl.
    destruct (Commit state msg) as [state' [[[reply request] |] | e |]] eqn:HC;
      simpl; try discriminate.
    intros _. by apply Commit_emits in HC as (_ & _ & Hq & _ & -> & _).
Qed.

(** The counting argument behind both emissions: a counter that a vote
    call bumps by at most one, and an output that is produced only by
    the call that brings the counter to exactly 2f.  Once the counter
    has reached 2f the output is never produced again. *)
Lemma emits_at_most_once (cnt : State -> Z) (emits : Output -> bool) :
  (forall state c, isVoteCall c = true ->
     cnt (call state c).1 = cnt state \/ cnt (call state c).1 = int32 (cnt state + 1)) ->
  (forall state c, emits (call state c).2 = true ->
     int32 (cnt state + 1) = two_f state
     /\ cnt (call state c).1 = int32 (cnt state + 1)) ->
  forall (cs : list Call) (state : State),
    Forall (λ c, isVoteCall c = true) cs ->
    - 2 ^ 31 <= cnt state -> cnt state + Z.of_nat (length cs) <= max_int32 ->
    (countOutputs emits (run state cs).2 <= 1)%nat
    /\ (two_f state <= cnt state -> countOutputs emits (run state cs).2 = 0%nat).
Proof.
  intros Hstep Hemit. unfold max_int32. change (2 ^ 31) with 2147483648.
  induction cs as [| c cs IH]; intros state Hall Hlo Hhi.
  - simpl. unfold countOutputs. simpl. split; [lia | done].
  - inversion Hall as [| ? ? Hc Hcs]; subst. simpl length in Hhi.
    rewrite run_cons. simpl. rewrite countOutputs_cons.
    pose proof (vote_call_two_f state c Hc) as Hf.
    pose proof (Hstep state c Hc) as Hcnt.
    assert (Hsmall : int32 (cnt state + 1) = cnt state + 1)
      by (apply int32_small; change (2 ^ 31) with 2147483648; lia).
    rewrite Hsmall in Hcnt.
    destruct (IH (call state c).1 Hcs) as [IH1 IH0]; [lia | lia |].
    rewrite Hf in IH0.
    destruct (emits (call state c).2) eqn:He.
    + apply Hemit in He as [Hq Hnew]. rewrite Hsmall in Hq, Hnew.
      split; [| lia]. rewrite IH0; lia.
    + split; [lia |]. intros Hge. rewrite IH0; lia.
Qed.

(** Over a run of votes f is fixed and the counters only grow, by at
    most the number of votes. *)
Lemma run_votes_counters (cs : list Call) (state : State) :
  Forall (λ c, isVoteCall c = true) cs -> votesFit state (length cs) ->
  f (run state cs).1 = f state
  /\ TotalPrepareMsg (msgLogs state) <= TotalPrepareMsg (msgLogs (run state cs).1)
     <= TotalPrepareMsg (msgLogs state) + Z.of_nat (length cs)
  /\ TotalCommitMsg (msgLogs state) <= TotalCommitMsg (msgLogs (run state cs).1)
     <= TotalCommitMsg (msgLogs state) + Z.of_nat (length cs).
Proof.
  unfold votesFit, max_int32. change (2 ^ 31) with 2147483648.
  revert state. induction cs as [| c cs IH]; intros state Hall Hfit.
  - simpl. lia.
  - inversion Hall as [| ? ? Hc Hcs]; subst. simpl length in *.
    rewrite run_cons. simpl.
    destruct (vote_call_frame state c Hc) as (Hf & Hp & Hq).
    rewrite !int32_small in Hp, Hq by (change (2 ^ 31) with 2147483648; lia).
    destruct (IH (call state c).1 Hcs) as (Hf' & Hp' & Hq'); [lia |].
    rewrite Hf', Hf. lia.
Qed.

(** A vote call never lowers the stage of an instance whose committed
    stage is backed by its prepare counter, and keeps it that way. *)
Lemma vote_call_stage (state : State) (c : Call) :
  isVoteCall c = true -> votesFit state 1 -> committedHasPrepares state ->
  stage_rank (CurrentStage state) <= stage_rank (CurrentStage (call state c).1)
  /\ committedHasPrepares (call state c).1.
Proof.
  unfold votesFit, committedHasPrepares, max_int32. change (2 ^ 31) with 2147483648.
  intros Hc Hfit Hinv.
  pose proof (vote_call_two_f state c Hc) as Hf.
  destruct (vote_call_frame state c Hc) as (_ & Hp & _).
  rewrite int32_small in Hp by (change (2 ^ 31) with 2147483648; lia).
  rewrite Hf.
  destruct c as [? ? | ? | msg | msg]; try discriminate.
  - rewrite call_Prepare in *. simpl in *.
    destruct (Prepare_stage state msg) as [-> | [-> Hq]].
    + split; [lia | intros Hst; specialize (Hinv Hst); lia].
    + rewrite int32_small in Hq by (change (2 ^ 31) with 2147483648; lia).
      split; [| discriminate].
      destruct (CurrentStage state) eqn:Hst; simpl; try lia.
      specialize (Hinv eq_refl). lia.
  - rewrite call_Commit in *. simpl in *.
    destruct (Commit_stage_prepared state msg) as [-> | [-> Hprep]].
    + split; [lia | intros Hst; specialize (Hinv Hst); lia].
    + apply prepared_true in Hprep as [_ Hge].
      split; [destruct (CurrentStage state); simpl; lia | intros _; lia].
Qed.

(** The four operations keep [committedHasPrepares]; [CreateState]
    starts with it. *)
Lemma committedHasPrepares_call (state : State) (c : Call) :
  votesFit state 1 -> committedHasPrepares state ->
  committedHasPrepares (call state c).1.
Proof.
  intros Hfit Hinv.
  destruct c as [request n | msg | msg | msg].
  - unfold call, StartConsensus. destruct (digest _); simpl; [discriminate | apply Hinv].
  - unfold call, PrePrepare. destruct (verifyMsg _ _ _ _); simpl.
    + destruct (pp_RequestMsg msg); apply Hinv.
    + discriminate.
  - by apply vote_call_stage.
  - by apply vote_call_stage.
Qed.

Lemma committedHasPrepares_CreateState (viewID totNodes : Z) (primaryID : string) :
  committedHasPrepares (CreateState viewID totNodes primaryID).
Proof. discriminate. Qed.

(** Conversely, on a prepared instance a matching COMMIT that brings the
    counter to 2f is answered with the reply and the request. *)
Lemma Commit_emits_when (state : State) (commitMsg : VoteMsg) :
  prepared state = true ->
  verifyMsg state (vote_ViewID commitMsg) (vote_SequenceID commitMsg)
            (vote_Digest commitMsg) = None ->
  int32 (TotalCommitMsg (msgLogs state) + 1) = two_f state ->
  exists reply request, (Commit state commitMsg).2 = Ok (Some (reply, request)).
Proof.
  intros Hp Hv Hq. unfold Commit. rewrite Hp, Hv. simpl.
  unfold committed. rewrite prepared_add_commit, Hp. simpl.
  unfold two_f in *. simpl. rewrite Hq, Z.ltb_irrefl.
  apply prepared_true in Hp as [[r Hr] _]. rewrite Hr. simpl. eauto.
Qed.

(** [StartConsensus] and [PrePrepare] leave f and the counters alone. *)
Lemma call_counters (state : State) (c : Call) :
  f (call state c).1 = f state
  /\ (TotalPrepareMsg (msgLogs (call state c).1) = TotalPrepareMsg (msgLogs state)
      \/ TotalPrepareMsg (msgLogs (call state c).1)
         = int32 (TotalPrepareMsg (msgLogs state) + 1))
  /\ (TotalCommitMsg (msgLogs (call state c).1) = TotalCommitMsg (msgLogs state)
      \/ TotalCommitMsg (msgLogs (call state c).1)
         = int32 (TotalCommitMsg (msgLogs state) + 1)).
Proof.
  destruct c as [request n | msg | msg | msg].
  - unfold call, StartConsensus. destruct (digest _); simpl; tauto.
  - unfold call, PrePrepare. destruct (verifyMsg _ _ _ _); simpl; [| tauto].
    destruct (pp_RequestMsg msg); simpl; tauto.
  - by apply vote_call_frame.
  - by apply vote_call_frame.
Qed.

(** Every instance the four operations build from [CreateState], short
    of counter overflow, has its committed stage backed by the prepare
    counter. *)
Lemma run_committedHasPrepares (cs : list Call) :
  forall state : State,
    votesFit state (length cs) -> committedHasPrepares state ->
    committedHasPrepares (run state cs).1.
Proof.
  induction cs as [| c cs IH]; intros state Hfit Hinv; [exact Hinv |].
  rewrite run_cons. simpl. apply IH.
  - destruct (call_counters state c) as (_ & Hp & Hq).
    revert Hfit Hp Hq. unfold votesFit, max_int32. simpl length.
    change (2 ^ 31) with 2147483648. intros Hfit Hp Hq.
    rewrite !int32_small in Hp, Hq by (change (2 ^ 31) with 2147483648; lia).
    lia.
  - apply committedHasPrepares_call; [| exact Hinv].
    revert Hfit. unfold votesFit. simpl length. lia.
Qed.

(** *** The claims about the instance *)


(** C4, as amended: [Prepare] and [Commit] never lower the stage, on an
    instance whose committed stage is backed by its prepare counter and
    short of counter overflow; [StartConsensus] and an accepted
    [PrePrepare] set the stage to PRE_PREPARED whatever it was. *)
Theorem stage_monotone_under_votes (state : State) (cs : list Call) :
  Forall (λ c, isVoteCall c = true) cs ->
  votesFit state (length cs) ->
  committedHasPrepares state ->
  stage_rank (CurrentStage state) <= stage_rank (CurrentStage (run state cs).1)
  /\ (forall request sequenceID state' msg,
        StartConsensus state request sequenceID = (state', Ok msg) ->
        CurrentStage state' = PrePrepared)
  /\ (forall msg state' v,
        PrePrepare state msg = (state', Ok v) -> CurrentStage state' = PrePrepared).
Proof.
  intros Hall Hfit Hinv. split; [| split].
  - revert state Hall Hfit Hinv.
    induction cs as [| c cs IH]; intros state Hall Hfit Hinv; [simpl; lia |].
    inversion Hall as [| ? ? Hc Hcs]; subst.
    rewrite run_cons. simpl.
    assert (Hfit1 : votesFit state 1)
      by (revert Hfit; unfold votesFit; simpl length; lia).
    destruct (vote_call_stage state c Hc Hfit1 Hinv) as [Hle Hinv'].
    assert (Hfit' : votesFit (call state c).1 (length cs)).
    { destruct (vote_call_frame state c Hc) as (_ & Hp & Hq).
      revert Hfit Hp Hq. unfold votesFit, max_int32. simpl length.
      change (2 ^ 31) with 2147483648. intros Hfit Hp Hq.
      rewrite !int32_small in Hp, Hq by (change (2 ^ 31) with 2147483648; lia).
      lia. }
    specialize (IH (call state c).1 Hcs Hfit' Hinv'). lia.
  - intros request sequenceID state' msg HS.
    by apply StartConsensus_Ok_state in HS as (_ & _ & _ & Hst & _).
  - intros msg state' v HP.
    by apply PrePrepare_Ok_state in HP as (_ & _ & _ & _ & Hst & _).
Qed.

(** C5, as amended: after a first [PrePrepare] succeeded, a second one
    for the same view is accepted exactly when its digest is the digest
    of the request it carries, whatever the first one carried; once
    accepted, its request is the stored one. *)
Theorem PrePrepare_second_accepted (state state1 : State) (first second : PrePrepareMsg)
    (v1 : VoteMsg) :
  PrePrepare state first = (state1, Ok v1) ->
  pp_ViewID second = pp_ViewID first ->
  ((exists v2, (PrePrepare state1 second).2 = Ok v2)
   <-> digest (pp_RequestMsg second) = Some (pp_Digest second))
  /\ (forall state2 v2,
        PrePrepare state1 second = (state2, Ok v2) ->
        ReqMsg (msgLogs state2) = pp_RequestMsg second
        /\ SequenceID state2 = pp_SequenceID second
        /\ CurrentStage state2 = PrePrepared).
Proof.
  intros H1 Hview.
  assert (Hv1 : ViewID state1 = pp_ViewID first).
  { pose proof (PrePrepare_Ok_iff state first) as [Hok _].
    destruct Hok as [Hv _]; [exists v1; by rewrite H1 |].
    apply PrePrepare_Ok_state in H1 as (-> & _). exact Hv. }
  split.
  - rewrite PrePrepare_Ok_iff. rewrite Hv1, Hview. tauto.
  - intros state2 v2 H2.
    apply PrePrepare_Ok_state in H2. tauto.
Qed.

(** C10: over a run of [Prepare] and [Commit] calls that does not
    overflow the counters, at most one call of [Prepare] returns a
    COMMIT and at most one call of [Commit] returns a reply; each is
    returned by the call that brings its counter to exactly 2f. *)
Theorem votes_emit_at_most_once (state : State) (cs : list Call) :
  Forall (λ c, isVoteCall c = true) cs ->
  votesFit state (length cs) ->
  (countOutputs emitsCommit (run state cs).2 <= 1)%nat
  /\ (countOutputs emitsReply (run state cs).2 <= 1)%nat
  /\ (forall pre c post, cs = pre ++ c :: post ->
        let before := (run state pre).1 in
        let after := (call before c).1 in
        (emitsCommit (call before c).2 = true ->
           TotalPrepareMsg (msgLogs after) = TotalPrepareMsg (msgLogs before) + 1
           /\ TotalPrepareMsg (msgLogs after) = two_f state)
        /\ (emitsReply (call before c).2 = true ->
              TotalCommitMsg (msgLogs after) = TotalCommitMsg (msgLogs before) + 1
              /\ TotalCommitMsg (msgLogs after) = two_f state)).
Proof.
  intros Hall Hfit. split; [| split].
  - destruct Hfit as (Hlo & Hhi & _).
    apply (emits_at_most_once (λ st, TotalPrepareMsg (msgLogs st)) emitsCommit); auto.
    + intros st c Hc. by destruct (vote_call_frame st c Hc) as (_ & Hp & _).
    + intros st c. apply call_emitsCommit.
  - destruct Hfit as (_ & _ & Hlo & Hhi).
    apply (emits_at_most_once (λ st, TotalCommitMsg (msgLogs st)) emitsReply); auto.
    + intros st c Hc. by destruct (vote_call_frame st c Hc) as (_ & _ & Hq).
    + intros st c. apply call_emitsReply.
  - intros pre c post -> before after.
    apply Forall_app in Hall as [Hpre _].
    assert (Hfitpre : votesFit state (length pre)).
    { revert Hfit. unfold votesFit. rewrite length_app. lia. }
    destruct (run_votes_counters pre state Hpre Hfitpre) as (Hf & Hp & Hq).
    fold before in Hf, Hp, Hq.
    assert (H2f : two_f before = two_f state) by (unfold two_f; by rewrite Hf).
    revert Hfit. unfold votesFit, max_int32. rewrite length_app. simpl length.
    change (2 ^ 31) with 2147483648. intros Hfit.
    split; intros He.
    + apply call_emitsCommit in He as [Hq2 Hnew]. fold after in Hnew.
      rewrite int32_small in Hq2, Hnew by (change (2 ^ 31) with 2147483648; lia).
      lia.
    + apply call_emitsReply in He as [Hq2 Hnew]. fold after in Hnew.
      rewrite int32_small in Hq2, Hnew by (change (2 ^ 31) with 2147483648; lia).
      lia.
Qed.

(** ** Properties of the node *)

(** *** The executor *)

Lemma CommittedMsgs_CheckPoint (node : Node) (msg : CheckPointMsg) :
  CommittedMsgs (CheckPoint node msg) = CommittedMsgs node.
Proof. unfold CheckPoint. by destruct (becomesStable node msg). Qed.

Lemma lastSequenceID_ordered (node : Node) :
  logOrdered (CommittedMsgs node) ->
  lastSequenceID node = Z.of_nat (length (CommittedMsgs node)).
Proof.
  intros Hlog. unfold lastSequenceID. rewrite last_lookup.
  destruct (CommittedMsgs node) as [| r log] eqn:Hl; [reflexivity |].
  destruct ((r :: log) !! Init.Nat.pred (length (r :: log))) as [r' |] eqn:Hlast.
  - apply Hlog in Hlast. rewrite Hlast. simpl. lia.
  - apply lookup_ge_None in Hlast. simpl in Hlast. lia.
Qed.

Lemma logOrdered_snoc (log : list RequestMsg) (r : RequestMsg) :
  logOrdered log -> req_SequenceID r = Z.of_nat (length log) + 1 ->
  logOrdered (log ++ [r]).
Proof.
  intros Hlog Hr i r' Hi.
  apply lookup_snoc_Some in Hi as [[_ Hi] | [-> <-]]; [by apply Hlog | done].
Qed.

Lemma pairsFiled_delete (pairs : gmap Z MsgPair) (k : Z) :
  pairsFiled pairs -> pairsFiled (delete k pairs).
Proof. intros Hp k' p [_ Hk]%lookup_delete_Some. by apply Hp. Qed.

Lemma pairsFiled_insert (pairs : gmap Z MsgPair) (msgPair : MsgPair) :
  pairsFiled pairs ->
  pairsFiled (<[req_SequenceID (committedMsg msgPair) := msgPair]> pairs).
Proof.
  intros Hp k p [[<- <-] | [_ Hk]]%lookup_insert_Some; [done | by apply Hp].
Qed.

(** The inner loop, given more fuel than pairs: it ends at its [break]
    with the log still in order, having moved pairs from the map to the
    log, unless the digest of a request fails and the nil CHECKPOINT is
    dereferenced. *)
Lemma executeLoop_ordered (fuel : nat) :
  forall (node : Node) (pairs : gmap Z MsgPair),
    (size pairs < fuel)%nat ->
    logOrdered (CommittedMsgs node) ->
    pairsFiled pairs ->
    Z.of_nat (length (CommittedMsgs node)) + Z.of_nat (size pairs) < max_int64 ->
    match executeLoop fuel node pairs with
    | Finished node' pairs' =>
      logOrdered (CommittedMsgs node') /\ pairsFiled pairs'
      /\ (length (CommittedMsgs node') + size pairs'
          = length (CommittedMsgs node) + size pairs)%nat
      /\ pairs' !! int64 (lastSequenceID node' + 1) = None
    | Crashed => exists r, digest (Some r) = None
    | OutOfFuel => False
    end.
Proof.
  unfold max_int64. change (2 ^ 63) with 9223372036854775808.
  induction fuel as [| fuel IH]; intros node pairs Hfuel Hlog Hpairs Hmax; [lia |].
  simpl.
  rewrite (lastSequenceID_ordered node Hlog).
  assert (Hnext : int64 (Z.of_nat (length (CommittedMsgs node)) + 1)
                  = Z.of_nat (length (CommittedMsgs node)) + 1)
    by (apply int64_small; change (2 ^ 63) with 9223372036854775808; lia).
  rewrite Hnext.
  destruct (pairs !! (Z.of_nat (length (CommittedMsgs node)) + 1)) as [p |] eqn:Hp.
  - rewrite last_snoc.
    pose proof (Hpairs _ _ Hp) as Hseq.
    assert (Hsize : size (delete (Z.of_nat (length (CommittedMsgs node)) + 1) pairs)
                    = Init.Nat.pred (size pairs))
      by (apply map_size_delete_Some; eauto).
    assert (Hpos : size pairs <> 0%nat)
      by (eapply map_size_ne_0_lookup_2; eauto).
    assert (Hlog' : logOrdered (CommittedMsgs node ++ [committedMsg p]))
      by (by apply logOrdered_snoc).
    destruct (req_SequenceID (committedMsg p) =? _).
    + unfold getCheckPointMsg.
      destruct (digest (Some (committedMsg p))) as [d |] eqn:Hd; [| eauto].
      match goal with
      | |- match executeLoop fuel ?n ?ps with _ => _ end =>
        specialize (IH n ps)
      end.
      rewrite CommittedMsgs_CheckPoint in IH. simpl in IH.
      rewrite length_app, Hsize in IH. simpl length in IH.
      assert (Hres := IH ltac:(lia) Hlog' (pairsFiled_delete _ _ Hpairs) ltac:(lia)).
      clear IH.
      destruct (executeLoop fuel _ _) as [node' pairs' | |]; [| exact Hres | exact Hres].
      destruct Hres as (H1 & H2 & H3 & H4).
      repeat split; [done | done | lia | done].
    + match goal with
      | |- match executeLoop fuel ?n ?ps with _ => _ end =>
        specialize (IH n ps)
      end.
      simpl in IH. rewrite length_app, Hsize in IH. simpl length in IH.
      assert (Hres := IH ltac:(lia) Hlog' (pairsFiled_delete _ _ Hpairs) ltac:(lia)).
      clear IH.
      destruct (executeLoop fuel _ _) as [node' pairs' | |]; [| exact Hres | exact Hres].
      destruct Hres as (H1 & H2 & H3 & H4).
      repeat split; [done | done | lia | done].
  - rewrite (lastSequenceID_ordered node Hlog), Hnext. done.
Qed.

(** One arrival: the pair is filed and the loop runs with enough fuel. *)
Lemma executeMsg_ordered (node : Node) (pairs : gmap Z MsgPair) (msgPair : MsgPair) :
  logOrdered (CommittedMsgs node) ->
  pairsFiled pairs ->
  Z.of_nat (length (CommittedMsgs node)) + Z.of_nat (size pairs) + 1 < max_int64 ->
  match executeMsg node pairs msgPair with
  | Finished node' pairs' =>
    logOrdered (CommittedMsgs node') /\ pairsFiled pairs'
    /\ (length (CommittedMsgs node') + size pairs'
        <= length (CommittedMsgs node) + size pairs + 1)%nat
    /\ pairs' !! int64 (lastSequenceID node' + 1) = None
  | Crashed => exists r, digest (Some r) = None
  | OutOfFuel => False
  end.
Proof.
  intros Hlog Hpairs Hmax. unfold executeMsg.
  set (pairs1 := <[req_SequenceID (committedMsg msgPair) := msgPair]> pairs).
  assert (Hsize : (size pairs1 <= S (size pairs))%nat).
  { unfold pairs1. rewrite map_size_insert.
    destruct (pairs !! _); simpl; lia. }
  assert (H := executeLoop_ordered (S (size pairs1)) node pairs1
                 ltac:(lia) Hlog (pairsFiled_insert _ _ Hpairs) ltac:(lia)).
  destruct (executeLoop (S (size pairs1)) node pairs1) as [node' pairs' | |];
    [| exact H | exact H].
  destruct H as (H1 & H2 & H3 & H4).
  repeat split; [done | done | lia | done].
Qed.

Lemma executeAll_ordered (arrivals : list MsgPair) :
  forall (node : Node) (pairs : gmap Z MsgPair),
    logOrdered (CommittedMsgs node) ->
    pairsFiled pairs ->
    Z.of_nat (length (CommittedMsgs node)) + Z.of_nat (size pairs)
      + Z.of_nat (length arrivals) < max_int64 ->
    match executeAll node pairs arrivals with
    | Finished node' pairs' => logOrdered (CommittedMsgs node') /\ pairsFiled pairs'
    | Crashed => exists r, digest (Some r) = None
    | OutOfFuel => False
    end.
Proof.
  induction arrivals as [| msgPair rest IH]; intros node pairs Hlog Hpairs Hmax.
  - simpl. done.
  - simpl executeAll. simpl length in Hmax.
    assert (H := executeMsg_ordered node pairs msgPair Hlog Hpairs ltac:(lia)).
    destruct (executeMsg node pairs msgPair) as [node' pairs' | |];
      [| exact H | exact H].
    destruct H as (H1 & H2 & H3 & _).
    apply IH; [done | done | lia].
Qed.

(** C3: from an empty committed log, after every processed pair the
    executor has either stopped on a failed request digest, or its log
    holds sequence number i+1 at every index i, each sequence number
    once.  The inner loop always reaches its [break]. *)
Theorem executeMsg_log_ordered (node : Node) (arrivals : list MsgPair) :
  CommittedMsgs node = [] ->
  Z.of_nat (length arrivals) < max_int64 ->
  match executeAll node ∅ arrivals with
  | Finished node' pairs' =>
    logOrdered (CommittedMsgs node')
    /\ (forall (i j : nat) (ri rj : RequestMsg),
          CommittedMsgs node' !! i = Some ri -> CommittedMsgs node' !! j = Some rj ->
          req_SequenceID ri = req_SequenceID rj -> i = j)
  | Crashed => exists r, digest (Some r) = None
  | OutOfFuel => False
  end.
Proof.
  intros Hempty Hmax.
  assert (H : match executeAll node ∅ arrivals with
              | Finished node' pairs' =>
                logOrdered (CommittedMsgs node') /\ pairsFiled pairs'
              | Crashed => exists r, digest (Some r) = None
              | OutOfFuel => False
              end).
  { apply executeAll_ordered.
    - rewrite Hempty. intros i r Hi. by rewrite lookup_nil in Hi.
    - intros k p Hk. by rewrite lookup_empty in Hk.
    - rewrite Hempty, map_size_empty. simpl. lia. }
  destruct (executeAll node ∅ arrivals) as [node' pairs' | |]; [| exact H | exact H].
  destruct H as [Hlog _]. split; [exact Hlog |].
  intros i j ri rj Hi Hj Heq.
  apply Hlog in Hi. apply Hlog in Hj. lia.
Qed.

(** *** Checkpoints *)

Lemma checkPointMsgsAt_store (node : Node) (msg : CheckPointMsg) :
  checkPointMsgsAt (storeCheckPoint node msg) (cp_SequenceID msg)
  = <[cp_NodeID msg := msg]> (checkPointMsgsAt node (cp_SequenceID msg)).
Proof.
  unfold checkPointMsgsAt at 1, storeCheckPoint. simpl.
  by rewrite lookup_insert_eq.
Qed.

Lemma Checkpointchk_iff (node : Node) (SequenceID : Z) :
  Checkpointchk node SequenceID = true <->
  exists state, States node !! SequenceID = Some state
    /\ checkpointQuorum state <= Z.of_nat (size (checkPointMsgsAt node SequenceID))
    /\ is_Some (checkPointMsgsAt node SequenceID !! NodeID (MyInfo node)).
Proof.
  unfold Checkpointchk.
  destruct (States node !! SequenceID) as [state |]; [| split; [done | by intros (? & ? & _)]].
  destruct (Z.leb_spec (checkpointQuorum state)
                       (Z.of_nat (size (checkPointMsgsAt node SequenceID)))) as [Hq | Hq];
    simpl.
  - case_bool_decide as Hown; simpl.
    + split; [eauto | done].
    + split; [done | intros (st & [= <-] & _ & Hs); done].
  - split; [done | intros (st & [= <-] & Hle & _); lia].
Qed.

(** [Checkpointchk] looks at which nodes have an entry, not at what the
    entries hold: rewriting every stored message, digest included,
    leaves its answer as it was. *)
Lemma Checkpointchk_ignores_contents (node : Node) (SequenceID : Z)
    (g : CheckPointMsg -> CheckPointMsg) :
  Checkpointchk
    (set_CheckPointMsgsLog node ((λ m : gmap string CheckPointMsg, g <$> m) <$> CheckPointMsgsLog node)) SequenceID
  = Checkpointchk node SequenceID.
Proof.
  assert (Hat : checkPointMsgsAt
                  (set_CheckPointMsgsLog node ((λ m : gmap string CheckPointMsg, g <$> m) <$> CheckPointMsgsLog node))
                  SequenceID
                = g <$> checkPointMsgsAt node SequenceID).
  { unfold checkPointMsgsAt. simpl. rewrite lookup_fmap.
    destruct (CheckPointMsgsLog node !! SequenceID); simpl; [done |].
    by rewrite fmap_empty. }
  unfold Checkpointchk. rewrite Hat. simpl.
  destruct (States node !! SequenceID) as [state |]; [| done].
  rewrite map_size_fmap, lookup_fmap.
  destruct (checkPointMsgsAt node SequenceID !! NodeID (MyInfo node)); simpl;
    repeat case_bool_decide; try done;
    match goal with
    | H : ¬ is_Some _ |- _ => exfalso; apply H; eauto
    | H : is_Some None |- _ => by destruct H
    end.
Qed.

(** C6, as amended: with the incoming CHECKPOINT saved, the checkpoint
    for its sequence number becomes stable exactly when the registry
    holds an instance for that sequence number that is not yet marked
    stable, the log holds entries of at least 2f+1 nodes for it (f the
    instance's) and the replica's own entry is among them.  The digests
    of the entries are not compared. *)
Theorem checkpoint_stable_iff (node : Node) (msg : CheckPointMsg) :
  (forall state, States node !! cp_SequenceID msg = Some state ->
                 - 2 ^ 62 <= f state < 2 ^ 62 - 1) ->
  let saved := <[cp_NodeID msg := msg]> (checkPointMsgsAt node (cp_SequenceID msg)) in
  (becomesStable node msg = true <->
   exists state, States node !! cp_SequenceID msg = Some state
     /\ CheckPointState state = 0
     /\ 2 * f state + 1 <= Z.of_nat (size saved)
     /\ is_Some (saved !! NodeID (MyInfo node)))
  /\ (becomesStable node msg = false -> CheckPoint node msg = storeCheckPoint node msg).
Proof.
  intros Hf saved. split.
  - unfold becomesStable. rewrite andb_true_iff, Checkpointchk_iff, bool_decide_eq_true.
    rewrite checkPointMsgsAt_store. fold saved.
    change (States (storeCheckPoint node msg)) with (States node).
    change (MyInfo (storeCheckPoint node msg)) with (MyInfo node).
    split.
    + intros [(state & Hst & Hq & Hown) Hcp].
      exists state. rewrite Hst in Hcp. simpl in Hcp.
      rewrite (checkpointQuorum_small state (Hf state Hst)) in Hq.
      repeat split; [done | congruence | done | done].
    + intros (state & Hst & Hcp & Hq & Hown). split.
      * exists state. rewrite (checkpointQuorum_small state (Hf state Hst)). done.
      * rewrite Hst. simpl. by rewrite Hcp.
  - intros Hno. unfold CheckPoint. by rewrite Hno.
Qed.

(** C7, as amended: when a checkpoint becomes stable, the stable
    checkpoint advances by the checkpoint period to S' = stableCheckpoint
    + 5, and afterwards neither the instance registry nor the checkpoint
    log holds a key below S'.  When the checkpoint that became stable is
    the one at S', the stable checkpoint is its sequence number and its
    instance stays in the registry, marked stable. *)
Theorem CheckPoint_stable_truncates (node : Node) (msg : CheckPointMsg) :
  becomesStable node msg = true ->
  let node' := CheckPoint node msg in
  let fStableCheckPoint := int64 (StableCheckPoint node + periodCheckPoint) in
  StableCheckPoint node' = fStableCheckPoint
  /\ (forall k, is_Some (States node' !! k) -> fStableCheckPoint <= k)
  /\ (forall k, is_Some (CheckPointMsgsLog node' !! k) -> fStableCheckPoint <= k)
  /\ (- 2 ^ 63 <= StableCheckPoint node < 2 ^ 63 - periodCheckPoint ->
      cp_SequenceID msg = StableCheckPoint node + periodCheckPoint ->
      StableCheckPoint node' = cp_SequenceID msg
      /\ CheckPointState <$> (States node' !! cp_SequenceID msg) = Some 1).
Proof.
  intros Hstable node' fStable.
  assert (Hnode' : node' =
    set_StableCheckPoint
      (set_States
         (set_CheckPointMsgsLog
            (set_States (storeCheckPoint node msg)
               (alter (set_CheckPointState 1) (cp_SequenceID msg) (States node)))
            (filter (λ kv, ¬ (kv.1 < fStable))
                    (CheckPointMsgsLog (storeCheckPoint node msg))))
         (filter (λ kv, ¬ (kv.1 < fStable))
                 (alter (set_CheckPointState 1) (cp_SequenceID msg) (States node))))
      fStable).
  { unfold node', CheckPoint. rewrite Hstable. reflexivity. }
  rewrite Hnode'. simpl. split; [reflexivity |]. split; [| split].
  - intros k [st Hk]. apply map_lookup_filter_Some in Hk as [_ Hge]. simpl in Hge. lia.
  - intros k [st Hk]. apply map_lookup_filter_Some in Hk as [_ Hge]. simpl in Hge. lia.
  - intros Hrange Hseq.
    assert (HfS : fStable = cp_SequenceID msg).
    { unfold fStable. rewrite Hseq. apply int64_small.
      revert Hrange. unfold periodCheckPoint.
      change (2 ^ 63) with 9223372036854775808. lia. }
    split; [done |].
    unfold becomesStable in Hstable.
    apply andb_true_iff in Hstable as [Hchk _].
    apply Checkpointchk_iff in Hchk as (state & Hst & _).
    change (States (storeCheckPoint node msg)) with (States node) in Hst.
    assert (Hlook : filter (λ kv : Z * State, ¬ (kv.1 < fStable))
                      (alter (set_CheckPointState 1) (cp_SequenceID msg) (States node))
                    !! cp_SequenceID msg = Some (set_CheckPointState 1 state)).
    { apply map_lookup_filter_Some. split.
      - by rewrite lookup_alter_eq, Hst.
      - simpl. lia. }
    rewrite Hlook. reflexivity.
Qed.

(** *** Routing *)

(** C9, as amended: the router drops every vote whose node is the
    replica itself, COMMIT as well as PREPARE, and delivers the votes of
    the other nodes and every CHECKPOINT, the replica's own included.
    What [CreateState] seeds is one PREPARE pseudo-vote of the primary;
    the commit votes start empty, so the replica's own COMMIT is nowhere
    counted. *)
Theorem routeMsg_drops_own_votes (node : Node) (vote : VoteMsg) (cp : CheckPointMsg) :
  (vote_NodeID vote = NodeID (MyInfo node) -> routeMsg node (MsgVote vote) = node)
  /\ (vote_NodeID vote <> NodeID (MyInfo node) ->
      MsgDelivery (routeMsg node (MsgVote vote)) = MsgDelivery node ++ [MsgVote vote])
  /\ MsgDelivery (routeMsg node (MsgCheckPoint cp)) = MsgDelivery node ++ [MsgCheckPoint cp]
  /\ (forall viewID totNodes primaryID,
        let state := CreateState viewID totNodes primaryID in
        PrepareMsgs (msgLogs state) = {[primaryID := None]}
        /\ TotalPrepareMsg (msgLogs state) = 1
        /\ CommitMsgs (msgLogs state) = ∅
        /\ TotalCommitMsg (msgLogs state) = 0).
Proof.
  split; [| split; [| split]].
  - intros Hown. simpl. rewrite Hown, String.eqb_refl. reflexivity.
  - intros Hother. simpl.
    destruct (String.eqb_spec (NodeID (MyInfo node)) (vote_NodeID vote)); [congruence |].
    reflexivity.
  - reflexivity.
  - intros viewID totNodes primaryID. simpl.
    repeat split.
Qed.

(** ** Further properties of the instance and the node *)

(** *** The executor, one iteration at a time *)

Lemma executeLoop_S (fuel : nat) (node : Node) (pairs : gmap Z MsgPair) :
  executeLoop (S fuel) node pairs =
  match pairs !! int64 (lastSequenceID node + 1) with
  | None => Finished node pairs
  | Some p =>
    match executeOnce node p with
    | None => Crashed
    | Some node1 => executeLoop fuel node1 (delete (int64 (lastSequenceID node + 1)) pairs)
    end
  end.
Proof.
  simpl. destruct (pairs !! int64 (lastSequenceID node + 1)) as [p |]; [| done].
  unfold executeOnce. simpl. rewrite last_snoc.
  destruct (_ =? _); [| done].
  by destruct (getCheckPointMsg _ _ _).
Qed.

(** What one iteration does to the node, when it does not crash. *)
Lemma executeOnce_Some (node node1 : Node) (p : MsgPair) :
  executeOnce node p = Some node1 ->
  CommittedMsgs node1 = CommittedMsgs node ++ [committedMsg p]
  /\ MyInfo node1 = MyInfo node
  /\ ((req_SequenceID (committedMsg p) <> int64 (CheckPointSendPoint node + periodCheckPoint)
       /\ node1 = Reply (set_CommittedMsgs node (CommittedMsgs node ++ [committedMsg p]))
                        (set_Result (replyMsg p) "Executed"))
      \/ (req_SequenceID (committedMsg p) = int64 (CheckPointSendPoint node + periodCheckPoint)
          /\ exists d,
               digest (Some (committedMsg p)) = Some d
               /\ node1 =
                  CheckPoint
                    (Broadcast
                       (set_CheckPointSendPoint
                          (Reply (set_CommittedMsgs node
                                    (CommittedMsgs node ++ [committedMsg p]))
                                 (set_Result (replyMsg p) "Executed"))
                          (req_SequenceID (committedMsg p)))
                       (MsgCheckPoint
                          (mkCheckPointMsg (req_SequenceID (committedMsg p)) d
                                           (NodeID (MyInfo node))))
                       "/checkpoint")
                    (mkCheckPointMsg (req_SequenceID (committedMsg p)) d
                                     (NodeID (MyInfo node))))).
Proof.
  unfold executeOnce. simpl. rewrite last_snoc.
  destruct (Z.eqb_spec (req_SequenceID (committedMsg p))
                       (int64 (CheckPointSendPoint node + periodCheckPoint))) as [He | He].
  - unfold getCheckPointMsg.
    destruct (digest (Some (committedMsg p))) as [d |] eqn:Hd; [| discriminate].
    intros [= <-]. rewrite CommittedMsgs_CheckPoint. simpl.
    split; [done |]. split.
    + unfold CheckPoint. by destruct (becomesStable _ _).
    + right. split; [done |]. exists d. split; [done |]. by rewrite <- He.
  - intros [= <-]. simpl. split; [done |]. split; [done |]. by left.
Qed.

(** An invariant of the iterations is an invariant of the loop, which,
    when it ends, ends with no pair for the next sequence number. *)
Lemma executeLoop_invariant (P : Node -> gmap Z MsgPair -> Prop) :
  (forall node pairs p node1,
     P node pairs ->
     pairs !! int64 (lastSequenceID node + 1) = Some p ->
     executeOnce node p = Some node1 ->
     P node1 (delete (int64 (lastSequenceID node + 1)) pairs)) ->
  forall (fuel : nat) (node : Node) (pairs : gmap Z MsgPair),
    P node pairs ->
    match executeLoop fuel node pairs with
    | Finished node' pairs' =>
      P node' pairs' /\ pairs' !! int64 (lastSequenceID node' + 1) = None
    | _ => True
    end.
Proof.
  intros Hstep. induction fuel as [| fuel IH]; intros node pairs HP; [done |].
  rewrite executeLoop_S.
  destruct (pairs !! int64 (lastSequenceID node + 1)) as [p |] eqn:Hp; [| done].
  destruct (executeOnce node p) as [node1 |] eqn:Hone; [| done].
  apply IH. by eapply Hstep.
Qed.

(** The same for the executor over the arriving pairs: [P] is indexed by
    the pairs that have arrived, latest first. *)
Lemma executeAll_invariant (P : list MsgPair -> Node -> gmap Z MsgPair -> Prop) :
  (forall seen node pairs p node1,
     P seen node pairs ->
     pairs !! int64 (lastSequenceID node + 1) = Some p ->
     executeOnce node p = Some node1 ->
     P seen node1 (delete (int64 (lastSequenceID node + 1)) pairs)) ->
  (forall seen node pairs msgPair,
     P seen node pairs ->
     pairs !! int64 (lastSequenceID node + 1) = None ->
     P (msgPair :: seen) node (<[req_SequenceID (committedMsg msgPair) := msgPair]> pairs)) ->
  forall (arrivals seen : list MsgPair) (node : Node) (pairs : gmap Z MsgPair),
    P seen node pairs ->
    pairs !! int64 (lastSequenceID node + 1) = None ->
    match executeAll node pairs arrivals with
    | Finished node' pairs' =>
      P (rev arrivals ++ seen) node' pairs'
      /\ pairs' !! int64 (lastSequenceID node' + 1) = None
    | _ => True
    end.
Proof.
  intros Hloop Harrive.
  induction arrivals as [| msgPair rest IH]; intros seen node pairs HP Hnone; [done |].
  simpl executeAll. unfold executeMsg.
  pose proof (executeLoop_invariant (P (msgPair :: seen)) (Hloop (msgPair :: seen))
                (S (size (<[req_SequenceID (committedMsg msgPair) := msgPair]> pairs)))
                node (<[req_SequenceID (committedMsg msgPair) := msgPair]> pairs)
                (Harrive seen node pairs msgPair HP Hnone)) as H.
  destruct (executeLoop _ node _) as [node' pairs' | |]; [| done | done].
  destruct H as [HP' Hnone'].
  specialize (IH (msgPair :: seen) node' pairs' HP' Hnone').
  simpl rev. by rewrite <- app_assoc.
Qed.

(** *** Votes, one at a time *)

Lemma verifyMsg_same (state1 state2 : State) (viewID sequenceID : Z) (digestGot : string) :
  ViewID state1 = ViewID state2 -> SequenceID state1 = SequenceID state2 ->
  ReqMsg (msgLogs state1) = ReqMsg (msgLogs state2) ->
  verifyMsg state1 viewID sequenceID digestGot = verifyMsg state2 viewID sequenceID digestGot.
Proof. intros Hv Hs Hr. unfold verifyMsg. by rewrite Hv, Hs, Hr. Qed.

(** An accepted PREPARE is stored and counted; it is answered with the
    COMMIT when it is the one that brings the counter to 2f on an
    instance that holds a request, and with nothing otherwise. *)
Lemma Prepare_accepted (state : State) (prepareMsg : VoteMsg) :
  verifyMsg state (vote_ViewID prepareMsg) (vote_SequenceID prepareMsg)
            (vote_Digest prepareMsg) = None ->
  - 2 ^ 31 <= TotalPrepareMsg (msgLogs state) < max_int32 ->
  let stored :=
    set_MsgLogs state
      (add_prepare (msgLogs state) (vote_NodeID prepareMsg) (Some prepareMsg)) in
  TotalPrepareMsg (msgLogs stored) = TotalPrepareMsg (msgLogs state) + 1
  /\ Prepare state prepareMsg =
     if (TotalPrepareMsg (msgLogs state) + 1 =? two_f state)
        && bool_decide (is_Some (ReqMsg (msgLogs state)))
     then (set_CurrentStage stored Prepared,
           Ok (Some (mkVoteMsg (ViewID state) (vote_SequenceID prepareMsg)
                               (vote_Digest prepareMsg) "" CommitMsg)))
     else (stored, Ok None).
Proof.
  intros Hv Hr stored.
  unfold max_int32 in Hr. change (2 ^ 31) with 2147483648 in Hr.
  assert (Hs : int32 (TotalPrepareMsg (msgLogs state) + 1)
               = TotalPrepareMsg (msgLogs state) + 1)
    by (apply int32_small; change (2 ^ 31) with 2147483648; lia).
  split; [exact Hs |].
  unfold Prepare. rewrite Hv. fold stored.
  unfold prepared, two_f. simpl. rewrite Hs.
  destruct (Z.ltb_spec (int64 (2 * f state)) (TotalPrepareMsg (msgLogs state) + 1));
    destruct (Z.eqb_spec (TotalPrepareMsg (msgLogs state) + 1) (int64 (2 * f state)));
    try lia; simpl; try reflexivity.
  - destruct (ReqMsg (msgLogs state)) as [r |]; simpl.
    + destruct (Z.ltb_spec (TotalPrepareMsg (msgLogs state) + 1) (int64 (2 * f state)));
        [lia | reflexivity].
    + reflexivity.
  - destruct (ReqMsg (msgLogs state)) as [r |]; [| reflexivity].
    destruct (Z.ltb_spec (TotalPrepareMsg (msgLogs state) + 1) (int64 (2 * f state)));
      [reflexivity | lia].
Qed.

(** The same for an accepted COMMIT on a prepared instance. *)
Lemma Commit_accepted (state : State) (commitMsg : VoteMsg) (request : RequestMsg) :
  prepared state = true ->
  ReqMsg (msgLogs state) = Some request ->
  verifyMsg state (vote_ViewID commitMsg) (vote_SequenceID commitMsg)
            (vote_Digest commitMsg) = None ->
  - 2 ^ 31 <= TotalCommitMsg (msgLogs state) < max_int32 ->
  let stored :=
    set_MsgLogs state
      (add_commit (msgLogs state) (vote_NodeID commitMsg) (Some commitMsg)) in
  TotalCommitMsg (msgLogs stored) = TotalCommitMsg (msgLogs state) + 1
  /\ Commit state commitMsg =
     if TotalCommitMsg (msgLogs state) + 1 =? two_f state
     then (set_CurrentStage stored Committed,
           Ok (Some (mkReplyMsg (ViewID state) (req_Timestamp request)
                                (req_ClientID request) "" "", request)))
     else (stored, Ok None).
Proof.
  intros Hp Hreq Hv Hr stored.
  unfold max_int32 in Hr. change (2 ^ 31) with 2147483648 in Hr.
  assert (Hs : int32 (TotalCommitMsg (msgLogs state) + 1)
               = TotalCommitMsg (msgLogs state) + 1)
    by (apply int32_small; change (2 ^ 31) with 2147483648; lia).
  split; [exact Hs |].
  unfold Commit. rewrite Hp, Hv. simpl.
  unfold committed. rewrite prepared_add_commit, Hp. simpl.
  unfold two_f. simpl. rewrite Hs.
  destruct (Z.ltb_spec (int64 (2 * f state)) (TotalCommitMsg (msgLogs state) + 1));
    destruct (Z.eqb_spec (TotalCommitMsg (msgLogs state) + 1) (int64 (2 * f state)));
    try lia; try reflexivity.
  - destruct (Z.ltb_spec (TotalCommitMsg (msgLogs state) + 1) (int64 (2 * f state)));
      [lia |]. by rewrite Hreq.
  - destruct (Z.ltb_spec (TotalCommitMsg (msgLogs state) + 1) (int64 (2 * f state)));
      [reflexivity | lia].
Qed.

(** *** The instance: from the primary to the backups, rejected and late votes *)

(** X1: the PRE-PREPARE that [StartConsensus] returns on the primary is
    accepted by [PrePrepare] on every instance of the same view, which
    then holds the request the primary holds, under the sequence number
    the primary assigned, and answers with a PREPARE for the primary's
    digest. *)
Theorem StartConsensus_PrePrepare_accepted (primary primary' backup : State)
    (request : RequestMsg) (sequenceID : Z) (msg : PrePrepareMsg) :
  StartConsensus primary request sequenceID = (primary', Ok msg) ->
  ViewID backup = ViewID primary ->
  exists backup',
    PrePrepare backup msg
    = (backup', Ok (mkVoteMsg (ViewID primary) sequenceID (pp_Digest msg) "" PrepareMsg))
    /\ ReqMsg (msgLogs backup') = ReqMsg (msgLogs primary')
    /\ ReqMsg (msgLogs backup')
       = Some (mkRequestMsg (req_Timestamp request) (req_ClientID request)
                            (req_Operation request) (req_Data request) sequenceID)
    /\ SequenceID backup' = sequenceID
    /\ SequenceID primary' = sequenceID
    /\ CurrentStage backup' = PrePrepared.
Proof.
  intros HS Hview.
  assert (Hmsg : pp_ViewID msg = ViewID primary /\ pp_SequenceID msg = sequenceID
                 /\ pp_RequestMsg msg
                    = Some (mkRequestMsg (req_Timestamp request) (req_ClientID request)
                                         (req_Operation request) (req_Data request)
                                         sequenceID)).
  { revert HS. unfold StartConsensus. destruct (digest _); [| discriminate].
    intros [= <- <-]. simpl. tauto. }
  destruct Hmsg as (Hv & Hn & Hr).
  pose proof (StartConsensus_Ok_state _ _ _ _ _ HS) as (_ & _ & Hseq & _ & Hreq & _ & Hd).
  destruct (PrePrepare_Ok_iff backup msg) as [_ Hok].
  destruct Hok as [vote Hvote]; [split; congruence |].
  destruct (PrePrepare backup msg) as [backup' r] eqn:HP. simpl in Hvote. subst r.
  pose proof (PrePrepare_Ok_state _ _ _ _ HP) as (Hv' & _ & Hr' & Hs' & Hst & _ & _ & ->).
  exists backup'. rewrite Hview, Hn. repeat split; congruence.
Qed.

(** X2: [Prepare] returns an error exactly when the vote's view, sequence
    number or digest differs from the instance's, [Commit] exactly when
    in addition the instance may be not prepared; in either case the
    instance is left as it was. *)
Theorem rejected_votes_leave_instance (state : State) (vote : VoteMsg) :
  let matching :=
    ViewID state = vote_ViewID vote /\ SequenceID state = vote_SequenceID vote
    /\ digest (ReqMsg (msgLogs state)) = Some (vote_Digest vote) in
  ((exists e, (Prepare state vote).2 = Err e) <-> ~ matching)
  /\ ((exists e, (Commit state vote).2 = Err e) <-> prepared state = false \/ ~ matching)
  /\ (forall e, (Prepare state vote).2 = Err e -> (Prepare state vote).1 = state)
  /\ (forall e, (Commit state vote).2 = Err e -> (Commit state vote).1 = state).
Proof.
  intros matching.
  pose proof (verifyMsg_None state (vote_ViewID vote) (vote_SequenceID vote)
                (vote_Digest vote)) as Hver.
  fold matching in Hver.
  split; [| split; [| split]].
  - unfold Prepare.
    destruct (verifyMsg _ _ _ _) as [e |]; simpl.
    + split; [intros _ Hm; by apply Hver in Hm | eauto].
    + split; [| intros Hn; exfalso; apply Hn; by apply Hver].
      intros [e He]. revert He. repeat case_match; discriminate.
  - unfold Commit.
    destruct (prepared state); simpl; [| split; eauto].
    destruct (verifyMsg _ _ _ _) as [e |]; simpl.
    + split; [intros _; right; intros Hm; by apply Hver in Hm | eauto].
    + split.
      * intros [e He]. revert He. repeat case_match; discriminate.
      * intros [? | Hn]; [discriminate | exfalso; apply Hn; by apply Hver].
  - intros e He. destruct (Prepare state vote) as [state' r] eqn:HP.
    simpl in *. subst r. by apply Prepare_Err_unchanged in HP.
  - intros e He. destruct (Commit state vote) as [state' r] eqn:HC.
    simpl in *. subst r. by apply Commit_Err_unchanged in HC.
Qed.

(** X3: a matching vote that arrives when its counter has already
    reached 2f is stored under its node and counted, is answered with
    nothing, and leaves the stage where it was. *)
Theorem late_votes_stored (state : State) (vote : VoteMsg) :
  verifyMsg state (vote_ViewID vote) (vote_SequenceID vote) (vote_Digest vote) = None ->
  (- 2 ^ 31 <= TotalPrepareMsg (msgLogs state) < max_int32 ->
   two_f state <= TotalPrepareMsg (msgLogs state) ->
   Prepare state vote
   = (set_MsgLogs state (add_prepare (msgLogs state) (vote_NodeID vote) (Some vote)),
      Ok None)
   /\ PrepareMsgs (msgLogs (Prepare state vote).1) !! vote_NodeID vote = Some (Some vote)
   /\ CurrentStage (Prepare state vote).1 = CurrentStage state)
  /\ (prepared state = true ->
      - 2 ^ 31 <= TotalCommitMsg (msgLogs state) < max_int32 ->
      two_f state <= TotalCommitMsg (msgLogs state) ->
      Commit state vote
      = (set_MsgLogs state (add_commit (msgLogs state) (vote_NodeID vote) (Some vote)),
         Ok None)
      /\ CommitMsgs (msgLogs (Commit state vote).1) !! vote_NodeID vote = Some (Some vote)
      /\ CurrentStage (Commit state vote).1 = CurrentStage state).
Proof.
  intros Hv. split.
  - intros Hr Hlate.
    destruct (Prepare_accepted state vote Hv Hr) as [_ HP].
    destruct (Z.eqb_spec (TotalPrepareMsg (msgLogs state) + 1) (two_f state)) as [He | He];
      [lia |].
    simpl in HP. rewrite HP. simpl. by rewrite lookup_insert_eq.
  - intros Hp Hr Hlate.
    destruct (prepared_true state Hp) as [[request Hreq] _].
    destruct (Commit_accepted state vote request Hp Hreq Hv Hr) as [_ HC].
    destruct (Z.eqb_spec (TotalCommitMsg (msgLogs state) + 1) (two_f state)) as [He | He];
      [lia |].
    rewrite HC. simpl. by rewrite lookup_insert_eq.
Qed.

(** *** Clusters that never decide *)

Lemma call_stage_or_emits (state : State) (c : Call) :
  CurrentStage (call state c).1 = CurrentStage state
  \/ CurrentStage (call state c).1 = PrePrepared
  \/ emitsCommit (call state c).2 = true
  \/ emitsReply (call state c).2 = true.
Proof.
  destruct c as [request n | msg | msg | msg].
  - unfold call, StartConsensus. destruct (digest _); simpl; tauto.
  - unfold call, PrePrepare. destruct (verifyMsg _ _ _ _); simpl; [| tauto].
    destruct (pp_RequestMsg msg); simpl; tauto.
  - rewrite call_Prepare. unfold Prepare. repeat case_match. all: simpl; tauto.
  - rewrite call_Commit. unfold Commit. repeat case_match.
    all: simpl; try tauto.
    match goal with
    | H : committed _ = true, H' : ReqMsg _ = None |- _ =>
      unfold committed, prepared in H; simpl in H, H'; rewrite H' in H; discriminate H
    end.
Qed.

(** With both counters at 2f or beyond, no call is answered with a
    COMMIT or a reply any more, and the stage moves, if at all, to
    PRE_PREPARED. *)
Lemma saturated_never_emits (cs : list Call) :
  forall state : State,
    votesFit state (length cs) ->
    two_f state <= TotalPrepareMsg (msgLogs state) ->
    two_f state <= TotalCommitMsg (msgLogs state) ->
    countOutputs emitsCommit (run state cs).2 = 0%nat
    /\ countOutputs emitsReply (run state cs).2 = 0%nat
    /\ (CurrentStage (run state cs).1 = CurrentStage state
        \/ CurrentStage (run state cs).1 = PrePrepared).
Proof.
  induction cs as [| c cs IH]; intros state Hfit Hp Hc.
  - simpl. unfold countOutputs. simpl. tauto.
  - rewrite run_cons. simpl. rewrite !countOutputs_cons.
    destruct (call_counters state c) as (Hf & Hp' & Hc').
    revert Hfit. unfold votesFit, max_int32. simpl length.
    change (2 ^ 31) with 2147483648. intros Hfit.
    rewrite !int32_small in Hp', Hc' by (change (2 ^ 31) with 2147483648; lia).
    assert (H2f : two_f (call state c).1 = two_f state) by (unfold two_f; by rewrite Hf).
    destruct (IH (call state c).1) as (IH1 & IH2 & IH3).
    { unfold votesFit, max_int32. change (2 ^ 31) with 2147483648. lia. }
    { rewrite H2f. lia. }
    { rewrite H2f. lia. }
    assert (He1 : emitsCommit (call state c).2 = false).
    { destruct (emitsCommit (call state c).2) eqn:He; [| done].
      apply call_emitsCommit in He as [Hq _].
      rewrite int32_small in Hq by (change (2 ^ 31) with 2147483648; lia). lia. }
    assert (He2 : emitsReply (call state c).2 = false).
    { destruct (emitsReply (call state c).2) eqn:He; [| done].
      apply call_emitsReply in He as [Hq _].
      rewrite int32_small in Hq by (change (2 ^ 31) with 2147483648; lia). lia. }
    rewrite He1, He2, IH1, IH2. split; [done |]. split; [done |].
    destruct (call_stage_or_emits state c) as [Hs | [Hs | [Hs | Hs]]];
      [| | congruence | congruence].
    + rewrite <- Hs. exact IH3.
    + destruct IH3 as [IH3 | IH3]; right; congruence.
Qed.

(** X4: an instance that [CreateState] builds for a cluster of at most
    three nodes has f = 0 and its seeded PREPARE already exceeds 2f: no
    sequence of calls, short of counter overflow, is ever answered with
    a COMMIT or a reply, and the stage never passes PRE_PREPARED. *)
Theorem small_cluster_never_decides (viewID totNodes : Z) (primaryID : string)
    (cs : list Call) :
  0 <= totNodes <= 3 ->
  Z.of_nat (length cs) < max_int32 ->
  countOutputs emitsCommit (run (CreateState viewID totNodes primaryID) cs).2 = 0%nat
  /\ countOutputs emitsReply (run (CreateState viewID totNodes primaryID) cs).2 = 0%nat
  /\ stage_rank (CurrentStage (run (CreateState viewID totNodes primaryID) cs).1) <= 1.
Proof.
  intros Hn Hlen.
  assert (Hf : f (CreateState viewID totNodes primaryID) = 0).
  { assert (Hcases : totNodes = 0 \/ totNodes = 1 \/ totNodes = 2 \/ totNodes = 3) by lia.
    destruct Hcases as [-> | [-> | [-> | ->]]]; reflexivity. }
  assert (H2f : two_f (CreateState viewID totNodes primaryID) = 0)
    by (unfold two_f; rewrite Hf; reflexivity).
  destruct (saturated_never_emits cs (CreateState viewID totNodes primaryID))
    as (H1 & H2 & H3).
  - revert Hlen. unfold votesFit, max_int32. simpl.
    change (int32 (0 + 1)) with 1. change (2 ^ 31) with 2147483648. lia.
  - rewrite H2f. simpl. change (int32 (0 + 1)) with 1. lia.
  - rewrite H2f. simpl. lia.
  - split; [done |]. split; [done |].
    destruct H3 as [-> | ->]; simpl; lia.
Qed.

(** X5: for a cluster of n >= 1 nodes [CreateState] sets f to the
    largest number with 3f + 1 <= n. *)
Theorem CreateState_tolerates_a_third (viewID totNodes : Z) (primaryID : string) :
  1 <= totNodes < 2 ^ 63 ->
  0 <= f (CreateState viewID totNodes primaryID)
  /\ 3 * f (CreateState viewID totNodes primaryID) + 1 <= totNodes
  /\ totNodes <= 3 * f (CreateState viewID totNodes primaryID) + 3.
Proof.
  intros Hn. rewrite CreateState_f by lia.
  rewrite Z.quot_div_nonneg by lia.
  pose proof (Z.div_mod (totNodes - 1) 3 ltac:(lia)) as Hdm.
  pose proof (Z.mod_pos_bound (totNodes - 1) 3 ltac:(lia)) as Hb.
  pose proof (Z.div_pos (totNodes - 1) 3 ltac:(lia) ltac:(lia)). lia.
Qed.

(** *** Reaching the quorums *)

Lemma countOutputs_nil (p : Output -> bool) : countOutputs p [] = 0%nat.
Proof. reflexivity. Qed.

(** Matching PREPAREs that bring the counter to exactly 2f: the last one
    is answered with the COMMIT, the others with nothing. *)
Lemma run_prepares (votes : list VoteMsg) :
  forall state : State,
    is_Some (ReqMsg (msgLogs state)) ->
    Forall (λ m, verifyMsg state (vote_ViewID m) (vote_SequenceID m) (vote_Digest m)
                 = None) votes ->
    - 2 ^ 31 <= TotalPrepareMsg (msgLogs state) ->
    two_f state <= max_int32 ->
    TotalPrepareMsg (msgLogs state) + Z.of_nat (length votes) = two_f state ->
    votes <> [] ->
    CurrentStage (run state (CallPrepare <$> votes)).1 = Prepared
    /\ TotalPrepareMsg (msgLogs (run state (CallPrepare <$> votes)).1) = two_f state
    /\ f (run state (CallPrepare <$> votes)).1 = f state
    /\ ViewID (run state (CallPrepare <$> votes)).1 = ViewID state
    /\ SequenceID (run state (CallPrepare <$> votes)).1 = SequenceID state
    /\ ReqMsg (msgLogs (run state (CallPrepare <$> votes)).1) = ReqMsg (msgLogs state)
    /\ TotalCommitMsg (msgLogs (run state (CallPrepare <$> votes)).1)
       = TotalCommitMsg (msgLogs state)
    /\ countOutputs emitsCommit (run state (CallPrepare <$> votes)).2 = 1%nat
    /\ countOutputs emitsReply (run state (CallPrepare <$> votes)).2 = 0%nat.
Proof.
  induction votes as [| m rest IH]; intros state Hreq Hall Hlo Hhi Hsum Hne; [done |].
  inversion Hall as [| ? ? Hm Hrest]; subst.
  assert (Hr : - 2 ^ 31 <= TotalPrepareMsg (msgLogs state) < max_int32).
  { revert Hsum Hhi Hlo. unfold max_int32. simpl length.
    change (2 ^ 31) with 2147483648. intros ? ? ?. split; lia. }
  destruct (Prepare_accepted state m Hm Hr) as [Hcount HP].
  rewrite bool_decide_eq_true_2, andb_true_r in HP by exact Hreq.
  rewrite fmap_cons, run_cons, call_Prepare. cbn [fst snd].
  rewrite !countOutputs_cons.
  destruct rest as [| m' rest'].
  - simpl length in Hsum.
    destruct (Z.eqb_spec (TotalPrepareMsg (msgLogs state) + 1) (two_f state)) as [He | He];
      [| lia].
    rewrite HP. simpl. rewrite !countOutputs_nil.
    repeat split; try reflexivity. simpl in Hcount. rewrite Hcount. exact He.
  - simpl length in Hsum.
    destruct (Z.eqb_spec (TotalPrepareMsg (msgLogs state) + 1) (two_f state)) as [He | He];
      [lia |].
    rewrite HP. cbn [fst snd].
    set (stored := set_MsgLogs state
                     (add_prepare (msgLogs state) (vote_NodeID m) (Some m))) in *.
    destruct (IH stored) as (H1 & H2 & H3 & H4 & H5 & H6 & H7 & H8 & H9).
    + exact Hreq.
    + eapply Forall_impl; [exact Hrest |]. intros v Hv. simpl in Hv.
      rewrite <- Hv. by apply verifyMsg_same.
    + rewrite Hcount. lia.
    + exact Hhi.
    + rewrite Hcount. change (two_f stored) with (two_f state).
      simpl length. lia.
    + discriminate.
    + change (two_f stored) with (two_f state) in H2.
      rewrite H1, H2, H3, H4, H5, H6, H7, H8, H9. simpl. repeat split; reflexivity.
Qed.

(** The same for matching COMMITs on a prepared instance: the last one
    is answered with the reply and the request. *)
Lemma run_commits (votes : list VoteMsg) :
  forall (state : State) (request : RequestMsg),
    prepared state = true ->
    ReqMsg (msgLogs state) = Some request ->
    Forall (λ m, verifyMsg state (vote_ViewID m) (vote_SequenceID m) (vote_Digest m)
                 = None) votes ->
    - 2 ^ 31 <= TotalCommitMsg (msgLogs state) ->
    two_f state <= max_int32 ->
    TotalCommitMsg (msgLogs state) + Z.of_nat (length votes) = two_f state ->
    votes <> [] ->
    CurrentStage (run state (CallCommit <$> votes)).1 = Committed
    /\ countOutputs emitsCommit (run state (CallCommit <$> votes)).2 = 0%nat
    /\ countOutputs emitsReply (run state (CallCommit <$> votes)).2 = 1%nat
    /\ last (run state (CallCommit <$> votes)).2
       = Some (OutCommit (Ok (Some (mkReplyMsg (ViewID state) (req_Timestamp request)
                                               (req_ClientID request) "" "", request)))).
Proof.
  induction votes as [| m rest IH];
    intros state request Hp Hreq Hall Hlo Hhi Hsum Hne; [done |].
  inversion Hall as [| ? ? Hm Hrest]; subst.
  assert (Hr : - 2 ^ 31 <= TotalCommitMsg (msgLogs state) < max_int32).
  { revert Hsum Hhi Hlo. unfold max_int32. simpl length.
    change (2 ^ 31) with 2147483648. intros ? ? ?. split; lia. }
  destruct (Commit_accepted state m request Hp Hreq Hm Hr) as [Hcount HC].
  rewrite fmap_cons, run_cons, call_Commit. cbn [fst snd].
  rewrite !countOutputs_cons.
  destruct rest as [| m' rest'].
  - simpl length in Hsum.
    destruct (Z.eqb_spec (TotalCommitMsg (msgLogs state) + 1) (two_f state)) as [He | He];
      [| lia].
    rewrite HC. simpl. rewrite !countOutputs_nil. repeat split; reflexivity.
  - simpl length in Hsum.
    destruct (Z.eqb_spec (TotalCommitMsg (msgLogs state) + 1) (two_f state)) as [He | He];
      [lia |].
    rewrite HC. cbn [fst snd].
    set (stored := set_MsgLogs state
                     (add_commit (msgLogs state) (vote_NodeID m) (Some m))) in *.
    destruct (IH stored request) as (H1 & H2 & H3 & H4).
    + unfold stored. by rewrite prepared_add_commit.
    + exact Hreq.
    + eapply Forall_impl; [exact Hrest |]. intros v Hv. simpl in Hv.
      rewrite <- Hv. by apply verifyMsg_same.
    + rewrite Hcount. lia.
    + exact Hhi.
    + rewrite Hcount. change (two_f stored) with (two_f state).
      simpl length. lia.
    + discriminate.
    + rewrite H1, H2, H3. simpl emitsCommit. simpl emitsReply.
      repeat split; try reflexivity.
      rewrite fmap_cons, run_cons in H4 |- *. cbn [fst snd] in H4 |- *.
      rewrite last_cons_cons. exact H4.
Qed.

(** X6: an instance that accepts a PRE-PREPARE and then receives the
    matching PREPAREs that bring its prepare counter to 2f, followed by
    the matching COMMITs that bring its commit counter to 2f, ends
    COMMITTED; over the whole run exactly one COMMIT and one reply are
    returned, and the last call returns the reply for the request of the
    PRE-PREPARE. *)
Theorem quorum_run_commits (state : State) (msg : PrePrepareMsg) (request : RequestMsg)
    (prepares commits : list VoteMsg) :
  ViewID state = pp_ViewID msg ->
  pp_RequestMsg msg = Some request ->
  digest (Some request) = Some (pp_Digest msg) ->
  Forall (votesFor msg) prepares -> Forall (votesFor msg) commits ->
  prepares <> [] -> commits <> [] ->
  - 2 ^ 31 <= TotalPrepareMsg (msgLogs state) ->
  - 2 ^ 31 <= TotalCommitMsg (msgLogs state) ->
  two_f state <= max_int32 ->
  TotalPrepareMsg (msgLogs state) + Z.of_nat (length prepares) = two_f state ->
  TotalCommitMsg (msgLogs state) + Z.of_nat (length commits) = two_f state ->
  let calls :=
    CallPrePrepare msg :: (CallPrepare <$> prepares) ++ (CallCommit <$> commits) in
  CurrentStage (run state calls).1 = Committed
  /\ countOutputs emitsCommit (run state calls).2 = 1%nat
  /\ countOutputs emitsReply (run state calls).2 = 1%nat
  /\ last (run state calls).2
     = Some (OutCommit (Ok (Some (mkReplyMsg (ViewID state) (req_Timestamp request)
                                             (req_ClientID request) "" "", request)))).
Proof.
  intros Hview Hreq Hd Hps Hcs Hpne Hcne Hplo Hclo Hhi Hpsum Hcsum calls.
  destruct (PrePrepare_Ok_iff state msg) as [_ Hok].
  destruct Hok as [vote Hvote]; [split; [done | by rewrite Hreq] |].
  destruct (PrePrepare state msg) as [state1 r] eqn:HP. simpl in Hvote. subst r.
  pose proof (PrePrepare_Ok_state _ _ _ _ HP)
    as (Hv1 & Hf1 & Hr1 & Hs1 & Hst1 & Hp1 & Hc1 & _).
  assert (H2f1 : two_f state1 = two_f state) by (unfold two_f; by rewrite Hf1).
  assert (Hmatch : forall votes, Forall (votesFor msg) votes ->
            Forall (λ m, verifyMsg state1 (vote_ViewID m) (vote_SequenceID m)
                                   (vote_Digest m) = None) votes).
  { intros votes Hvotes. eapply Forall_impl; [exact Hvotes |].
    intros v (Hvv & Hvs & Hvd). apply verifyMsg_None.
    rewrite Hv1, Hs1, Hr1, Hreq, Hvv, Hvs, Hvd. done. }
  destruct (run_prepares prepares state1) as (P1 & P2 & P3 & P4 & P5 & P6 & P7 & P8 & P9);
    [rewrite Hr1, Hreq; eauto | by apply Hmatch | lia | lia | lia | done |].
  set (state2 := (run state1 (CallPrepare <$> prepares)).1) in *.
  assert (Hprep2 : prepared state2 = true).
  { unfold prepared. rewrite P6, Hr1, Hreq.
    assert (H2f2 : two_f state2 = two_f state1) by (unfold two_f; by rewrite P3).
    rewrite H2f2, P2.
    destruct (Z.ltb_spec (two_f state1) (two_f state1)); [lia | done]. }
  destruct (run_commits commits state2 request) as (C1 & C2 & C3 & C4).
  - exact Hprep2.
  - by rewrite P6, Hr1.
  - eapply Forall_impl; [exact (Hmatch commits Hcs) |]. intros v Hv. simpl in Hv.
    rewrite <- Hv. by apply verifyMsg_same.
  - rewrite P7. lia.
  - unfold two_f. rewrite P3. fold (two_f state1). lia.
  - rewrite P7. unfold two_f. rewrite P3. fold (two_f state1). lia.
  - done.
  - assert (Hcall : call state (CallPrePrepare msg) = (state1, OutPrePrepare (Ok vote)))
      by (unfold call; by rewrite HP).
    unfold calls. rewrite run_cons, Hcall.
    cbn [fst snd]. rewrite run_app. fold state2. cbn [fst snd].
    rewrite !countOutputs_cons. simpl emitsCommit. simpl emitsReply.
    assert (Hcount : forall p l1 l2,
              countOutputs p (l1 ++ l2) = (countOutputs p l1 + countOutputs p l2)%nat).
    { intros p l1 l2. unfold countOutputs. by rewrite filter_app, length_app. }
    rewrite !Hcount, P8, P9, C1, C2, C3.
    repeat split; try reflexivity.
    assert (Hlast : (run state2 (CallCommit <$> commits)).2 <> []).
    { intros Hnil. rewrite Hnil in C4. discriminate C4. }
    destruct ((run state2 (CallCommit <$> commits)).2) as [| o os] eqn:Hos; [done |].
    rewrite app_comm_cons, last_app, C4, P4, Hv1. reflexivity.
Qed.

(** *** The handlers of the node *)

Lemma set_States_same (node : Node) : set_States node (States node) = node.
Proof. by destruct node. Qed.

(** X7: [GetReq] takes the next sequence number, also when it fails.  It
    succeeds exactly when the request can be digested; the new instance
    is then registered under that sequence number, pre-prepared and
    holding the request stamped with it, the other instances stay, and
    the PRE-PREPARE is broadcast by the primary only.  When it fails,
    nothing is registered and nothing is sent. *)
Theorem GetReq_assigns_next_sequence (CreateStateFor : Z -> string -> Z -> State)
    (node : Node) (reqMsg : RequestMsg) :
  let n := int64 (TotalConsensus node + 1) in
  let request :=
    mkRequestMsg (req_Timestamp reqMsg) (req_ClientID reqMsg) (req_Operation reqMsg)
                 (req_Data reqMsg) n in
  let node' := (GetReq CreateStateFor node reqMsg).1 in
  TotalConsensus node' = n
  /\ ((GetReq CreateStateFor node reqMsg).2 = Handled <-> is_Some (digest (Some request)))
  /\ (forall d, digest (Some request) = Some d ->
        exists state,
          States node' !! n = Some state
          /\ SequenceID state = n /\ CurrentStage state = PrePrepared
          /\ ReqMsg (msgLogs state) = Some request
          /\ (forall k, k <> n -> States node' !! k = States node !! k)
          /\ MsgOutbound node'
             = if isMyNodePrimary node
               then MsgOutbound node
                      ++ [mkMsgOut (Url (MyInfo node) +:+ "/preprepare")
                                   (MsgPrePrepare
                                      (mkPrePrepareMsg (ViewID state) n d (Some request)))]
               else MsgOutbound node)
  /\ (digest (Some request) = None ->
      States node' = States node /\ MsgOutbound node' = MsgOutbound node).
Proof.
  intros n request node'. unfold node', GetReq, startConsensus, StartConsensus.
  fold n. fold request.
  destruct (digest (Some request)) as [d |] eqn:Hd; cbn [fst snd].
  - assert (Hprim : forall m, isMyNodePrimary (set_States (set_TotalConsensus node n) m)
                              = isMyNodePrimary node) by reflexivity.
    rewrite Hprim.
    destruct (isMyNodePrimary node); simpl.
    all: split; [reflexivity |]; split; [split; eauto |]; split; [| discriminate].
    all: intros d' [= <-]; eexists; rewrite lookup_insert_eq.
    all: split; [reflexivity |]; repeat split.
    all: intros k Hk; by rewrite lookup_insert_ne.
  - split; [reflexivity |]. split; [split; [discriminate | by intros [? ?]] |].
    split; [discriminate |]. done.
Qed.

(** X8: a PREPARE or COMMIT that the node answers with an error, because
    no instance is registered under its sequence number or because the
    instance refuses it, leaves the node exactly as it was, and nothing
    is handed to the executor. *)
Theorem refused_votes_leave_node (node : Node) (vote : VoteMsg) :
  (forall node' e, GetPrepare node vote = (node', Refused e) -> node' = node)
  /\ (forall node' pair e,
        GetCommit node vote = (node', pair, Refused e) -> node' = node /\ pair = None)
  /\ (States node !! vote_SequenceID vote = None ->
      GetPrepare node vote = (node, Refused (StateNotCreated (vote_SequenceID vote)))
      /\ GetCommit node vote
         = (node, None, Refused (StateNotCreated (vote_SequenceID vote)))).
Proof.
  split; [| split].
  - intros node' e. unfold GetPrepare, getState, prepare.
    destruct (States node !! vote_SequenceID vote) as [state |] eqn:Hst;
      [| by intros [= <- _]].
    destruct (Prepare state vote) as [state' r] eqn:HP.
    destruct r as [[c |] | e' |]; try discriminate.
    intros [= <- _]. apply Prepare_Err_unchanged in HP as ->.
    rewrite insert_id by done. apply set_States_same.
  - intros node' pair e. unfold GetCommit, getState, commit.
    destruct (States node !! vote_SequenceID vote) as [state |] eqn:Hst;
      [| by intros [= <- <- _]].
    destruct (Commit state vote) as [state' r] eqn:HC.
    destruct r as [[[reply request] |] | e' |]; try discriminate.
    intros [= <- <- _]. apply Commit_Err_unchanged in HC as ->.
    rewrite insert_id by done. split; [apply set_States_same | done].
  - intros Hnone. unfold GetPrepare, GetCommit, getState. by rewrite Hnone.
Qed.

(** *** The registry *)

Lemma registryKeyed_insert (node : Node) (k : Z) (state : State) :
  registryKeyed node -> SequenceID state = k ->
  registryKeyed (set_States node (<[k := state]> (States node))).
Proof.
  intros Hreg Hk k' state'. simpl.
  intros [[<- <-] | [_ Hl]]%lookup_insert_Some; [done | by apply Hreg].
Qed.

Lemma registryKeyed_States (node1 node2 : Node) :
  States node2 = States node1 -> registryKeyed node1 -> registryKeyed node2.
Proof. intros Heq Hreg k state. rewrite Heq. apply Hreg. Qed.

Lemma registryKeyed_CheckPoint (node : Node) (msg : CheckPointMsg) :
  registryKeyed node -> registryKeyed (CheckPoint node msg).
Proof.
  intros Hreg. unfold CheckPoint.
  destruct (becomesStable node msg); [| exact Hreg].
  intros k state. simpl.
  intros [Hl _]%map_lookup_filter_Some.
  apply lookup_alter_Some in Hl as [(_ & st & Hst & ->) | [_ Hst]].
  - simpl. by apply Hreg.
  - by apply Hreg.
Qed.

Lemma PrePrepare_SequenceID (state : State) (msg : PrePrepareMsg) :
  SequenceID (PrePrepare state msg).1 = pp_SequenceID msg.
Proof.
  unfold PrePrepare. destruct (verifyMsg _ _ _ _); [| done].
  by destruct (pp_RequestMsg msg).
Qed.

(** X9: the registry stays keyed by sequence number: if every registered
    instance sits under its own sequence number, it still does after a
    request, a PRE-PREPARE, a PREPARE, a COMMIT or a CHECKPOINT was
    handled, whatever the handler answered, and after the executor
    worked through an arriving pair. *)
Theorem registry_stays_keyed (CreateStateFor : Z -> string -> Z -> State) (node : Node) :
  registryKeyed node ->
  (forall reqMsg, registryKeyed (GetReq CreateStateFor node reqMsg).1)
  /\ (forall msg, registryKeyed (GetPrePrepare node msg).1)
  /\ (forall vote, registryKeyed (GetPrepare node vote).1)
  /\ (forall vote, registryKeyed (GetCommit node vote).1.1)
  /\ (forall msg, registryKeyed (GetCheckPoint node msg).1)
  /\ (forall pairs msgPair,
        match executeMsg node pairs msgPair with
        | Finished node' _ => registryKeyed node'
        | _ => True
        end).
Proof.
  intros Hreg. repeat split.
  - intros reqMsg. unfold GetReq, startConsensus, StartConsensus.
    destruct (digest _) as [d |]; cbn [fst snd]; [| exact Hreg].
    destruct (isMyNodePrimary _);
      apply (registryKeyed_insert (set_TotalConsensus node _)); done.
  - intros msg. unfold GetPrePrepare, getState, prePrepare.
    destruct (States node !! pp_SequenceID msg) as [state |]; [| exact Hreg].
    pose proof (PrePrepare_SequenceID state msg) as Hseq.
    destruct (PrePrepare state msg) as [state' r]. simpl in Hseq.
    destruct r as [v | e |]; cbn [fst]; by apply registryKeyed_insert.
  - intros vote. unfold GetPrepare, getState, prepare.
    destruct (States node !! vote_SequenceID vote) as [state |] eqn:Hst; [| exact Hreg].
    pose proof (Prepare_frame state vote) as (_ & Hseq & _). simpl in Hseq.
    rewrite (Hreg _ _ Hst) in Hseq.
    destruct (Prepare state vote) as [state' r]. simpl in Hseq.
    destruct r as [[c |] | e |]; cbn [fst]; by apply registryKeyed_insert.
  - intros vote. unfold GetCommit, getState, commit.
    destruct (States node !! vote_SequenceID vote) as [state |] eqn:Hst; [| exact Hreg].
    pose proof (Commit_frame state vote) as (_ & Hseq & _). simpl in Hseq.
    rewrite (Hreg _ _ Hst) in Hseq.
    destruct (Commit state vote) as [state' r]. simpl in Hseq.
    destruct r as [[[reply request] |] | e |]; cbn [fst];
      by apply registryKeyed_insert.
  - intros msg. by apply registryKeyed_CheckPoint.
  - intros pairs msgPair. unfold executeMsg.
    assert (Hstep : forall node0 (pairs0 : gmap Z MsgPair) p node1,
              registryKeyed node0 ->
              pairs0 !! int64 (lastSequenceID node0 + 1) = Some p ->
              executeOnce node0 p = Some node1 ->
              registryKeyed node1).
    { intros node0 pairs0 p node1 Hreg0 _ Hone.
      apply executeOnce_Some in Hone as (_ & _ & [[_ ->] | (_ & d & _ & ->)]).
      - exact Hreg0.
      - by apply registryKeyed_CheckPoint. }
    pose proof (executeLoop_invariant (λ node _, registryKeyed node) Hstep
                  (S (size (<[req_SequenceID (committedMsg msgPair) := msgPair]> pairs)))
                  node (<[req_SequenceID (committedMsg msgPair) := msgPair]> pairs) Hreg)
      as Hinv.
    destruct (executeLoop _ _ _); [apply Hinv | done | done].
Qed.

(** X10: when [GetCommit] hands a pair to the executor, it returned nil;
    the instance under the vote's sequence number was prepared, is now
    COMMITTED, and the pair holds its request and a reply with the
    request's timestamp and client, the node's own ID and no result yet.
    Nothing is broadcast. *)
Theorem GetCommit_hands_over (node node' : Node) (vote : VoteMsg) (pair : MsgPair)
    (out : Outcome) :
  GetCommit node vote = (node', Some pair, out) ->
  out = Handled
  /\ MsgOutbound node' = MsgOutbound node
  /\ exists state,
       States node !! vote_SequenceID vote = Some state
       /\ prepared state = true
       /\ ReqMsg (msgLogs state) = Some (committedMsg pair)
       /\ replyMsg pair
          = mkReplyMsg (ViewID state) (req_Timestamp (committedMsg pair))
                       (req_ClientID (committedMsg pair)) (NodeID (MyInfo node)) ""
       /\ CurrentStage <$> (States node' !! vote_SequenceID vote) = Some Committed.
Proof.
  unfold GetCommit, getState, commit.
  destruct (States node !! vote_SequenceID vote) as [state |] eqn:Hst; [| discriminate].
  destruct (Commit state vote) as [state' r] eqn:HC.
  destruct r as [[[reply request] |] | e |]; try discriminate.
  intros [= <- <- <-].
  apply Commit_emits in HC as (Hp & _ & _ & Hreq & -> & ->).
  split; [done |]. split; [done |]. exists state. simpl.
  rewrite lookup_insert_eq. done.
Qed.

(** X11: [updateView] panics on an empty node table; on a table of n
    nodes and for a view v >= 0 it makes the node at index v mod n the
    primary, so that the views v and v + n have the same primary, and
    touches nothing but the view. *)
Theorem updateView_round_robin (node : Node) (viewID : Z) :
  (NodeTable node = [] -> updateView node viewID = None)
  /\ (NodeTable node <> [] -> 0 <= viewID ->
      let n := Z.of_nat (length (NodeTable node)) in
      exists primary,
        NodeTable node !! Z.to_nat (viewID mod n) = Some primary
        /\ updateView node viewID
           = Some (mkNode (MyInfo node) (NodeTable node) (mkView viewID primary)
                          (States node) (CommittedMsgs node) (TotalConsensus node)
                          (MsgDelivery node) (MsgOutbound node) (StableCheckPoint node)
                          (CheckPointSendPoint node) (CheckPointMsgsLog node))
        /\ view <$> updateView node (viewID + n) = Some (mkView (viewID + n) primary)).
Proof.
  split.
  - intros Hnil. unfold updateView. by rewrite Hnil.
  - intros Hne Hv n.
    assert (Hn : 0 < n).
    { unfold n. destruct (NodeTable node); [done | simpl length; lia]. }
    assert (Hlook : forall v, 0 <= v ->
              exists primary, NodeTable node !! Z.to_nat (v mod n) = Some primary
                /\ updateView node v
                   = Some (mkNode (MyInfo node) (NodeTable node) (mkView v primary)
                             (States node) (CommittedMsgs node) (TotalConsensus node)
                             (MsgDelivery node) (MsgOutbound node)
                             (StableCheckPoint node) (CheckPointSendPoint node)
                             (CheckPointMsgsLog node))).
    { intros v Hv0.
      pose proof (Z.mod_pos_bound v n Hn) as Hb.
      destruct (lookup_lt_is_Some_2 (NodeTable node) (Z.to_nat (v mod n)))
        as [primary Hp]; [unfold n in *; lia |].
      exists primary. split; [exact Hp |].
      unfold updateView. fold n.
      destruct (NodeTable node) as [| x l] eqn:Ht; [done |].
      rewrite Z.rem_mod_nonneg by lia.
      destruct (Z.ltb_spec (v mod n) 0); [lia |].
      by rewrite Hp. }
    destruct (Hlook viewID Hv) as (primary & Hp & Hup).
    exists primary. split; [exact Hp |]. split; [exact Hup |].
    destruct (Hlook (viewID + n) ltac:(lia)) as (primary' & Hp' & Hup').
    rewrite Hup'. simpl.
    replace ((viewID + n) mod n) with (viewID mod n) in Hp'
      by (rewrite <- (Z.mul_1_l n) at 2; by rewrite Z.mod_add by lia).
    congruence.
Qed.

(** *** Checkpoints, once more *)

(** X15: a CHECKPOINT for a sequence number without a registered
    instance never makes a checkpoint stable; and a CHECKPOINT that does
    not make its checkpoint stable only replaces the entry of its sender
    for its sequence number: every other entry, the registry and the
    stable checkpoint stay, and handling it again changes nothing. *)
Theorem CheckPoint_stores_entry (node : Node) (msg : CheckPointMsg) :
  (States node !! cp_SequenceID msg = None -> becomesStable node msg = false)
  /\ (becomesStable node msg = false ->
      let node' := CheckPoint node msg in
      (forall s id,
         checkPointMsgsAt node' s !! id
         = if decide (s = cp_SequenceID msg /\ id = cp_NodeID msg) then Some msg
           else checkPointMsgsAt node s !! id)
      /\ States node' = States node
      /\ StableCheckPoint node' = StableCheckPoint node
      /\ CheckPoint node' msg = node').
Proof.
  split.
  - intros Hnone. unfold becomesStable, Checkpointchk. simpl. by rewrite Hnone.
  - intros Hno node'.
    assert (Hnode' : node' = storeCheckPoint node msg)
      by (unfold node', CheckPoint; by rewrite Hno).
    assert (Hagain : storeCheckPoint (storeCheckPoint node msg) msg
                     = storeCheckPoint node msg).
    { unfold storeCheckPoint at 1. rewrite checkPointMsgsAt_store.
      unfold storeCheckPoint. simpl.
      by rewrite insert_insert_eq, insert_insert_eq. }
    rewrite Hnode'. split; [| split; [done | split; [done |]]].
    + intros s id. unfold checkPointMsgsAt, storeCheckPoint. simpl.
      destruct (decide (s = cp_SequenceID msg)) as [-> | Hs].
      * rewrite lookup_insert_eq. simpl.
        destruct (decide (id = cp_NodeID msg)) as [-> | Hid].
        -- rewrite lookup_insert_eq. by rewrite decide_True.
        -- rewrite lookup_insert_ne by done. rewrite decide_False by tauto. done.
      * rewrite lookup_insert_ne by done. by rewrite decide_False by tauto.
    + unfold CheckPoint.
      assert (Hno' : becomesStable (storeCheckPoint node msg) msg = false).
      { unfold becomesStable in *. rewrite Hagain. exact Hno. }
      by rewrite Hno', Hagain.
Qed.

(** *** The error logger *)

Lemma logErrors_counts {E : Type} (errs : list E) :
  forall c : Z,
    1 <= c <= CoolingTotalErrMsg ->
    (logErrors c errs).1
    = CoolingTotalErrMsg
      - (CoolingTotalErrMsg - c + Z.of_nat (length errs)) mod CoolingTotalErrMsg
    /\ Z.of_nat (logErrors c errs).2
       = (CoolingTotalErrMsg - c + Z.of_nat (length errs)) / CoolingTotalErrMsg.
Proof.
  unfold CoolingTotalErrMsg.
  induction errs as [| e errs IH]; intros c Hc.
  - simpl. rewrite Z.add_0_r, Z.mod_small, Z.div_small by lia. lia.
  - simpl logErrors.
    rewrite int64_small by (change (2 ^ 63) with 9223372036854775808; lia).
    simpl length. rewrite Nat2Z.inj_succ.
    destruct (Z.eqb_spec (c - 1) 0) as [Hz | Hz].
    + destruct (IH 100 ltac:(lia)) as [IH1 IH2].
      unfold CoolingTotalErrMsg in *.
      destruct (logErrors 100 errs) as [remaining sleeps]. simpl in *.
      replace (100 - c + Z.succ (Z.of_nat (length errs)))
        with (100 - 100 + Z.of_nat (length errs) + 1 * 100) by lia.
      rewrite Z.mod_add, Z.div_add by lia. rewrite IH1. lia.
    + destruct (IH (c - 1) ltac:(lia)) as [IH1 IH2].
      replace (100 - c + Z.succ (Z.of_nat (length errs)))
        with (100 - (c - 1) + Z.of_nat (length errs)) by lia.
      done.
Qed.

Lemma logErrors_app {E : Type} (l1 l2 : list E) :
  forall c : Z,
    logErrors c (l1 ++ l2)
    = ((logErrors (logErrors c l1).1 l2).1,
       ((logErrors c l1).2 + (logErrors (logErrors c l1).1 l2).2)%nat).
Proof.
  induction l1 as [| e l1 IH]; intros c.
  - simpl. by destruct (logErrors c l2).
  - simpl. destruct (int64 (c - 1) =? 0).
    + rewrite IH. destruct (logErrors CoolingTotalErrMsg l1). reflexivity.
    + apply IH.
Qed.

Lemma logErrorMsg_concat {E : Type} (batches : list (list E)) :
  forall c : Z, logErrorMsg c batches = logErrors c (concat batches).
Proof.
  induction batches as [| errs batches IH]; intros c; [reflexivity |].
  simpl. rewrite logErrors_app.
  destruct (logErrors c errs) as [c1 s1]. simpl. rewrite IH.
  by destruct (logErrors c1 (concat batches)).
Qed.

(** X16: the error logger sleeps once for every 100 errors it has
    logged, however they are split into batches: after n errors it has
    slept n / 100 times and 100 - n mod 100 errors are left until the
    next sleep. *)
Theorem logErrorMsg_cools_every_100 {E : Type} (batches : list (list E)) :
  let n := Z.of_nat (length (concat batches)) in
  (logErrorMsg CoolingTotalErrMsg batches).1 = CoolingTotalErrMsg - n mod CoolingTotalErrMsg
  /\ Z.of_nat (logErrorMsg CoolingTotalErrMsg batches).2 = n / CoolingTotalErrMsg.
Proof.
  intros n. rewrite logErrorMsg_concat.
  destruct (logErrors_counts (concat batches) CoolingTotalErrMsg) as [H1 H2];
    [unfold CoolingTotalErrMsg; lia |].
  rewrite Z.sub_diag, Z.add_0_l in H1, H2. done.
Qed.

(** *** What the node sends *)

Lemma CheckPoint_frame (node : Node) (msg : CheckPointMsg) :
  MyInfo (CheckPoint node msg) = MyInfo node
  /\ MsgOutbound (CheckPoint node msg) = MsgOutbound node
  /\ CheckPointSendPoint (CheckPoint node msg) = CheckPointSendPoint node
  /\ CommittedMsgs (CheckPoint node msg) = CommittedMsgs node.
Proof. unfold CheckPoint. by destruct (becomesStable node msg). Qed.

Lemma votesSent_app (node : Node) (out : MsgOut) (l : list MsgOut) :
  MsgOutbound node = l ++ [out] ->
  votesSent node
  = omap (λ o, match Msg o with MsgVote v => Some v | _ => None end) l
    ++ match Msg out with MsgVote v => [v] | _ => [] end.
Proof.
  intros Hout. unfold votesSent. rewrite Hout, omap_app. simpl.
  by destruct (Msg out).
Qed.

Lemma votesOwn_same (node1 node2 : Node) :
  MyInfo node2 = MyInfo node1 -> MsgOutbound node2 = MsgOutbound node1 ->
  votesOwn node1 -> votesOwn node2.
Proof. unfold votesOwn, votesSent. by intros -> ->. Qed.

Lemma votesOwn_Broadcast (node : Node) (msg : Message) (path : string) :
  votesOwn node ->
  match msg with MsgVote v => vote_NodeID v = NodeID (MyInfo node) | _ => True end ->
  votesOwn (Broadcast node msg path).
Proof.
  intros Hown Hmsg. unfold votesOwn.
  rewrite (votesSent_app (Broadcast node msg path) _ (MsgOutbound node) eq_refl).
  apply Forall_app. split; [exact Hown |].
  simpl. destruct msg; constructor; done.
Qed.

(** X17: every vote the node broadcasts carries the node's own ID, and
    stays so under every handler and under the executor; the node's own
    router therefore drops each of them, should it come back. *)
Theorem broadcast_votes_are_own (CreateStateFor : Z -> string -> Z -> State)
    (node : Node) :
  votesOwn node ->
  (forall reqMsg, votesOwn (GetReq CreateStateFor node reqMsg).1)
  /\ (forall msg, votesOwn (GetPrePrepare node msg).1)
  /\ (forall vote, votesOwn (GetPrepare node vote).1)
  /\ (forall vote, votesOwn (GetCommit node vote).1.1)
  /\ (forall msg, votesOwn (GetCheckPoint node msg).1)
  /\ (forall pairs msgPair,
        match executeMsg node pairs msgPair with
        | Finished node' _ => votesOwn node'
        | _ => True
        end)
  /\ (forall v, v ∈ votesSent node -> routeMsg node (MsgVote v) = node).
Proof.
  intros Hown. repeat split.
  - intros reqMsg. unfold GetReq, startConsensus, StartConsensus.
    destruct (digest _) as [d |]; cbn [fst snd]; [| exact Hown].
    assert (Hprim : forall m, isMyNodePrimary
                                (set_States (set_TotalConsensus node
                                               (int64 (TotalConsensus node + 1))) m)
                              = isMyNodePrimary node) by reflexivity.
    rewrite Hprim. destruct (isMyNodePrimary node); [| exact Hown].
    by apply (votesOwn_Broadcast (set_States (set_TotalConsensus node _) _)).
  - intros msg. unfold GetPrePrepare, getState, prePrepare.
    destruct (States node !! pp_SequenceID msg) as [state |]; [| exact Hown].
    destruct (PrePrepare state msg) as [state' r].
    destruct r as [v | e |]; cbn [fst]; [| exact Hown | exact Hown].
    by apply (votesOwn_Broadcast (set_States node _)).
  - intros vote. unfold GetPrepare, getState, prepare.
    destruct (States node !! vote_SequenceID vote) as [state |]; [| exact Hown].
    destruct (Prepare state vote) as [state' r].
    destruct r as [[c |] | e |]; cbn [fst]; [| exact Hown | exact Hown | exact Hown].
    by apply (votesOwn_Broadcast (set_States node _)).
  - intros vote. unfold GetCommit, getState, commit.
    destruct (States node !! vote_SequenceID vote) as [state |]; [| exact Hown].
    destruct (Commit state vote) as [state' r].
    destruct r as [[[reply request] |] | e |]; cbn [fst]; exact Hown.
  - intros msg. simpl.
    destruct (CheckPoint_frame node msg) as (Hi & Ho & _).
    by apply (votesOwn_same node).
  - intros pairs msgPair. unfold executeMsg.
    assert (Hstep : forall node0 (pairs0 : gmap Z MsgPair) p node1,
              votesOwn node0 ->
              pairs0 !! int64 (lastSequenceID node0 + 1) = Some p ->
              executeOnce node0 p = Some node1 ->
              votesOwn node1).
    { intros node0 pairs0 p node1 Hown0 _ Hone.
      apply executeOnce_Some in Hone as (_ & _ & [[_ ->] | (_ & d & _ & ->)]).
      - by apply (votesOwn_Broadcast (set_CommittedMsgs node0 _)).
      - match goal with
        | |- votesOwn (CheckPoint ?n ?m) =>
          destruct (CheckPoint_frame n m) as (Hi & Ho & _);
            apply (votesOwn_same n); [exact Hi | exact Ho |]
        end.
        apply (votesOwn_Broadcast (set_CheckPointSendPoint _ _)); [| done].
        by apply (votesOwn_Broadcast (set_CommittedMsgs node0 _)). }
    pose proof (executeLoop_invariant (λ node _, votesOwn node) Hstep
                  (S (size (<[req_SequenceID (committedMsg msgPair) := msgPair]> pairs)))
                  node (<[req_SequenceID (committedMsg msgPair) := msgPair]> pairs) Hown)
      as Hinv.
    destruct (executeLoop _ _ _); [apply Hinv | done | done].
  - intros v Hv. unfold votesOwn in Hown.
    rewrite Forall_forall in Hown. specialize (Hown v Hv).
    simpl. by rewrite Hown, String.eqb_refl.
Qed.

(** *** The executor's outputs *)

Lemma period_not_reached (n : Z) :
  0 <= n -> n + 1 <> periodCheckPoint * (n / periodCheckPoint) + periodCheckPoint ->
  (n + 1) / periodCheckPoint = n / periodCheckPoint.
Proof.
  unfold periodCheckPoint. intros Hn Hne.
  pose proof (Z.div_mod n 5 ltac:(lia)) as Hdm.
  pose proof (Z.mod_pos_bound n 5 ltac:(lia)) as Hb.
  symmetry. apply (Z.div_unique (n + 1) 5 (n / 5) (n mod 5 + 1)); lia.
Qed.

Lemma period_reached (n : Z) :
  0 <= n -> n + 1 = periodCheckPoint * (n / periodCheckPoint) + periodCheckPoint ->
  (n + 1) / periodCheckPoint = n / periodCheckPoint + 1
  /\ (n + 1) mod periodCheckPoint = 0.
Proof.
  unfold periodCheckPoint. intros Hn He.
  pose proof (Z.div_mod n 5 ltac:(lia)) as Hdm.
  pose proof (Z.mod_pos_bound n 5 ltac:(lia)) as Hb.
  split.
  - symmetry. apply (Z.div_unique (n + 1) 5 (n / 5 + 1) 0); lia.
  - symmetry. apply (Z.mod_unique (n + 1) 5 (n / 5 + 1) 0); lia.
Qed.

Lemma repliesSent_Broadcast (node : Node) (msg : Message) (path : string) :
  repliesSent (Broadcast node msg path)
  = repliesSent node ++ match msg with MsgReply r => [r] | _ => [] end.
Proof.
  unfold repliesSent. simpl. rewrite omap_app. simpl. by destruct msg.
Qed.

Lemma checkPointsSent_Broadcast (node : Node) (msg : Message) (path : string) :
  checkPointsSent (Broadcast node msg path)
  = checkPointsSent node ++ match msg with MsgCheckPoint c => [c] | _ => [] end.
Proof.
  unfold checkPointsSent. simpl. rewrite omap_app. simpl. by destruct msg.
Qed.

(** One iteration keeps the outputs in step with the log. *)
Lemma executeOnce_outputsInStep (node node1 : Node) (p : MsgPair) :
  outputsInStep node ->
  req_SequenceID (committedMsg p) = Z.of_nat (length (CommittedMsgs node)) + 1 ->
  Z.of_nat (length (CommittedMsgs node)) + periodCheckPoint < max_int64 ->
  executeOnce node p = Some node1 ->
  outputsInStep node1.
Proof.
  intros (Hsp & Hrl & Hre & Hcl & Hcs) Hseq Hmax Hone.
  set (n := Z.of_nat (length (CommittedMsgs node))) in *.
  assert (Hn : 0 <= n) by (unfold n; lia).
  assert (Hdiv : 0 <= n / periodCheckPoint)
    by (apply Z.div_pos; unfold periodCheckPoint; lia).
  assert (Hle : periodCheckPoint * (n / periodCheckPoint) <= n)
    by (apply Z.mul_div_le; unfold periodCheckPoint; lia).
  assert (Hnext : int64 (CheckPointSendPoint node + periodCheckPoint)
                  = periodCheckPoint * (n / periodCheckPoint) + periodCheckPoint).
  { rewrite Hsp. apply int64_small. revert Hmax Hle Hdiv.
    unfold max_int64, periodCheckPoint.
    change (2 ^ 63) with 9223372036854775808. lia. }
  apply executeOnce_Some in Hone as (Hlog & Hinfo & Hcase).
  rewrite Hnext, Hseq in Hcase.
  assert (Hlen : Z.of_nat (length (CommittedMsgs node1)) = n + 1)
    by (rewrite Hlog, length_app; simpl; unfold n; lia).
  assert (Hold : forall c, c ∈ checkPointsSent node ->
            cp_NodeID c = NodeID (MyInfo node1)
            /\ cp_SequenceID c mod periodCheckPoint = 0
            /\ exists r, CommittedMsgs node1 !! Z.to_nat (cp_SequenceID c - 1) = Some r
                         /\ digest (Some r) = Some (cp_Digest c)).
  { intros c Hc. destruct (Hcs c Hc) as (H1 & H2 & r & H3 & H4).
    rewrite Hinfo. split; [done |]. split; [done |]. exists r. split; [| done].
    rewrite Hlog. by apply lookup_app_l_Some. }
  unfold outputsInStep. rewrite Hlen.
  destruct Hcase as [[Hne Hnode] | (He & d & Hd & Hnode)].
  - rewrite (period_not_reached n Hn Hne).
    rewrite Hnode. unfold Reply.
    rewrite repliesSent_Broadcast, checkPointsSent_Broadcast, app_nil_r.
    simpl. split; [| split; [| split; [| split]]].
    + exact Hsp.
    + rewrite !length_app. simpl.
      change (length (repliesSent (set_CommittedMsgs node
                (CommittedMsgs node ++ [committedMsg p]))))
        with (length (repliesSent node)). lia.
    + apply Forall_app. split; [exact Hre | by constructor].
    + exact Hcl.
    + intros c Hc. rewrite Hnode in Hold. by apply Hold.
  - destruct (period_reached n Hn He) as [Hq Hm].
    rewrite Hq.
    destruct (CheckPoint_frame
                (Broadcast
                   (set_CheckPointSendPoint
                      (Reply (set_CommittedMsgs node
                                (CommittedMsgs node ++ [committedMsg p]))
                             (set_Result (replyMsg p) "Executed"))
                      (n + 1))
                   (MsgCheckPoint (mkCheckPointMsg (n + 1) d (NodeID (MyInfo node))))
                   "/checkpoint")
                (mkCheckPointMsg (n + 1) d (NodeID (MyInfo node))))
      as (Fi & Fo & Fs & Fl).
    rewrite <- Hnode in Fi, Fo, Fs, Fl.
    assert (Hreplies : repliesSent node1
                       = repliesSent node ++ [set_Result (replyMsg p) "Executed"]).
    { unfold repliesSent at 1. rewrite Fo. simpl.
      rewrite !omap_app. simpl. by rewrite app_nil_r. }
    assert (Hcps : checkPointsSent node1
                   = checkPointsSent node
                       ++ [mkCheckPointMsg (n + 1) d (NodeID (MyInfo node))]).
    { unfold checkPointsSent at 1. rewrite Fo. simpl.
      rewrite !omap_app. simpl. by rewrite app_nil_r. }
    rewrite Hreplies, Hcps. split; [| split; [| split; [| split]]].
    + rewrite Fs. simpl. lia.
    + rewrite Hlog, !length_app. simpl. lia.
    + apply Forall_app. split; [exact Hre | by constructor].
    + rewrite length_app. simpl. lia.
    + intros c [Hc | Hc]%elem_of_app; [by apply Hold |].
      apply list_elem_of_singleton in Hc as ->. simpl.
      split; [by rewrite Hinfo |]. split; [exact Hm |].
      exists (committedMsg p). split; [| exact Hd].
      rewrite Hlog. replace (n + 1 - 1) with n by lia. unfold n.
      rewrite Nat2Z.id. by rewrite list_lookup_middle.
Qed.

(** X13: an executor that starts with an empty log and has sent no reply
    and no CHECKPOINT keeps its outputs in step with the log, whatever
    pairs arrive and in whatever order: one reply marked executed per
    committed request, one CHECKPOINT of its own for every fifth, with
    the digest of the request committed there. *)
Theorem executor_outputs_in_step (node : Node) (arrivals : list MsgPair) :
  CommittedMsgs node = [] -> CheckPointSendPoint node = 0 ->
  repliesSent node = [] -> checkPointsSent node = [] ->
  Z.of_nat (length arrivals) + periodCheckPoint < max_int64 ->
  match executeAll node ∅ arrivals with
  | Finished node' _ => outputsInStep node'
  | _ => True
  end.
Proof.
  intros Hlog Hsp Hr Hc Hmax.
  set (P := λ (seen : list MsgPair) (node0 : Node) (pairs : gmap Z MsgPair),
            Z.of_nat (length seen) + periodCheckPoint < max_int64 ->
            logOrdered (CommittedMsgs node0) /\ pairsFiled pairs
            /\ (length (CommittedMsgs node0) + size pairs <= length seen)%nat
            /\ outputsInStep node0).
  assert (Hloop : forall seen node0 pairs p node1,
            P seen node0 pairs ->
            pairs !! int64 (lastSequenceID node0 + 1) = Some p ->
            executeOnce node0 p = Some node1 ->
            P seen node1 (delete (int64 (lastSequenceID node0 + 1)) pairs)).
  { intros seen node0 pairs p node1 HP Hp Hone Hb.
    destruct (HP Hb) as (Hl & Hf & Hs & Ho).
    assert (Hpos : size pairs <> 0%nat) by (eapply map_size_ne_0_lookup_2; eauto).
    assert (Hsize : size (delete (int64 (lastSequenceID node0 + 1)) pairs)
                    = Init.Nat.pred (size pairs))
      by (apply map_size_delete_Some; eauto).
    rewrite (lastSequenceID_ordered node0 Hl) in Hp.
    rewrite int64_small in Hp
      by (revert Hb; unfold max_int64, periodCheckPoint;
          change (2 ^ 63) with 9223372036854775808; lia).
    pose proof (Hf _ _ Hp) as Hseq.
    pose proof (executeOnce_Some _ _ _ Hone) as (Hlog1 & _).
    split; [| split; [| split]].
    - rewrite Hlog1. by apply logOrdered_snoc.
    - by apply pairsFiled_delete.
    - rewrite Hlog1, length_app, Hsize. simpl. lia.
    - eapply executeOnce_outputsInStep; eauto.
      revert Hb. unfold max_int64, periodCheckPoint. lia. }
  assert (Harrive : forall seen node0 pairs msgPair,
            P seen node0 pairs ->
            pairs !! int64 (lastSequenceID node0 + 1) = None ->
            P (msgPair :: seen) node0
              (<[req_SequenceID (committedMsg msgPair) := msgPair]> pairs)).
  { intros seen node0 pairs msgPair HP _ Hb. simpl length in Hb.
    destruct (HP ltac:(lia)) as (Hl & Hf & Hs & Ho).
    split; [done |]. split; [by apply pairsFiled_insert |]. split; [| done].
    rewrite map_size_insert. simpl length. destruct (pairs !! _); simpl; lia. }
  pose proof (executeAll_invariant P Hloop Harrive arrivals [] node ∅) as H.
  destruct (executeAll node ∅ arrivals) as [node' pairs' | |]; [| done | done].
  destruct H as [HP _].
  - intros _. split; [| split; [| split]].
    + rewrite Hlog. intros i r Hi. by rewrite lookup_nil in Hi.
    + intros k p Hk. by rewrite lookup_empty in Hk.
    + rewrite Hlog. simpl. rewrite map_size_empty. lia.
    + unfold outputsInStep. rewrite Hlog, Hsp, Hr, Hc. simpl.
      split; [done |]. split; [done |]. split; [done |]. split; [done |].
      intros c Hc'. by apply elem_of_nil in Hc'.
  - apply lookup_empty.
  - apply HP. rewrite app_nil_r, length_rev. exact Hmax.
Qed.

(** *** The executor catches up *)

Lemma elem_of_upto (n : nat) (k : Z) :
  k ∈ (Z.of_nat <$> seq 1 n) <-> 1 <= k <= Z.of_nat n.
Proof.
  rewrite list_elem_of_fmap. split.
  - intros (i & -> & Hi). apply elem_of_seq in Hi. lia.
  - intros Hk. exists (Z.to_nat k). split; [lia |]. apply elem_of_seq. lia.
Qed.

(** X12: when the pairs for the sequence numbers 1..n arrive, each once
    and in any order, the executor ends with all of them executed: the
    log holds the sequence numbers 1..n in order, every logged request
    is one that arrived, and no pair is left waiting.  It stops earlier
    only on a failed request digest. *)
Theorem executor_executes_all (node : Node) (arrivals : list MsgPair) (n : nat) :
  CommittedMsgs node = [] ->
  sequenceIDs arrivals ≡ₚ Z.of_nat <$> seq 1 n ->
  Z.of_nat n < max_int64 ->
  match executeAll node ∅ arrivals with
  | Finished node' pairs' =>
    req_SequenceID <$> CommittedMsgs node' = Z.of_nat <$> seq 1 n
    /\ pairs' = ∅
    /\ (forall r, r ∈ CommittedMsgs node' -> exists p, p ∈ arrivals /\ committedMsg p = r)
  | Crashed => exists r, digest (Some r) = None
  | OutOfFuel => False
  end.
Proof.
  intros Hlog Hperm Hmax.
  assert (Hlen : length arrivals = n).
  { apply Permutation_length in Hperm.
    unfold sequenceIDs in Hperm. by rewrite !length_fmap, length_seq in Hperm. }
  assert (Hbasic : match executeAll node ∅ arrivals with
                   | Finished node' pairs' =>
                     logOrdered (CommittedMsgs node') /\ pairsFiled pairs'
                   | Crashed => exists r, digest (Some r) = None
                   | OutOfFuel => False
                   end).
  { apply executeAll_ordered.
    - rewrite Hlog. intros i r Hi. by rewrite lookup_nil in Hi.
    - intros k p Hk. by rewrite lookup_empty in Hk.
    - rewrite Hlog, map_size_empty, Hlen. simpl. lia. }
  set (good := λ seen : list MsgPair,
         NoDup (sequenceIDs seen)
         /\ forall k, k ∈ sequenceIDs seen -> 1 <= k <= Z.of_nat n).
  set (P := λ (seen : list MsgPair) (node0 : Node) (pairs : gmap Z MsgPair),
         good seen ->
         logOrdered (CommittedMsgs node0) /\ pairsFiled pairs
         /\ (forall k, is_Some (pairs !! k) ->
                       Z.of_nat (length (CommittedMsgs node0)) < k)
         /\ (forall k, k ∈ sequenceIDs seen <->
                       1 <= k <= Z.of_nat (length (CommittedMsgs node0))
                       \/ is_Some (pairs !! k))
         /\ (forall r, r ∈ CommittedMsgs node0 ->
                       exists p, p ∈ seen /\ committedMsg p = r)
         /\ (forall k p, pairs !! k = Some p -> p ∈ seen)).
  assert (Hbound : forall seen node0 pairs,
            good seen -> P seen node0 pairs ->
            Z.of_nat (length (CommittedMsgs node0)) <= Z.of_nat n).
  { intros seen node0 pairs Hgood HP.
    destruct (HP Hgood) as (_ & _ & _ & Hiff & _).
    destruct (length (CommittedMsgs node0)) as [| m] eqn:Hm; [lia |].
    destruct Hgood as [_ Hrange].
    apply (Hrange (Z.of_nat (S m))). apply Hiff. left. lia. }
  assert (Hloop : forall seen node0 pairs p node1,
            P seen node0 pairs ->
            pairs !! int64 (lastSequenceID node0 + 1) = Some p ->
            executeOnce node0 p = Some node1 ->
            P seen node1 (delete (int64 (lastSequenceID node0 + 1)) pairs)).
  { intros seen node0 pairs p node1 HP Hp Hone Hgood.
    pose proof (Hbound seen node0 pairs Hgood HP) as Hle.
    destruct (HP Hgood) as (Hl & Hf & Hgt & Hiff & Hin & Hpin).
    rewrite (lastSequenceID_ordered node0 Hl) in Hp |- *.
    rewrite int64_small in Hp |- *
      by (revert Hmax; unfold max_int64;
          change (2 ^ 63) with 9223372036854775808; lia).
    pose proof (Hf _ _ Hp) as Hseq.
    pose proof (executeOnce_Some _ _ _ Hone) as (Hlog1 & _).
    rewrite Hlog1, length_app. simpl length.
    split; [by apply logOrdered_snoc |].
    split; [by apply pairsFiled_delete |].
    split; [| split; [| split]].
    - intros k [q Hq]. apply lookup_delete_Some in Hq as [Hne Hq].
      specialize (Hgt k ltac:(eauto)). lia.
    - intros k. rewrite Hiff. split.
      + intros [Hk | [q Hq]]; [left; lia |].
        destruct (decide (k = Z.of_nat (length (CommittedMsgs node0)) + 1)) as [-> | Hne].
        * left. lia.
        * right. exists q. by apply lookup_delete_Some.
      + intros [Hk | [q Hq]].
        * destruct (decide (k = Z.of_nat (length (CommittedMsgs node0)) + 1))
            as [-> | Hne]; [right; eauto | left; lia].
        * apply lookup_delete_Some in Hq as [_ Hq]. right. eauto.
    - intros r [Hr | Hr]%elem_of_app; [by apply Hin |].
      apply list_elem_of_singleton in Hr as ->. exists p. split; [| done].
      by eapply Hpin.
    - intros k q Hq. apply lookup_delete_Some in Hq as [_ Hq]. by eapply Hpin. }
  assert (Harrive : forall seen node0 pairs msgPair,
            P seen node0 pairs ->
            pairs !! int64 (lastSequenceID node0 + 1) = None ->
            P (msgPair :: seen) node0
              (<[req_SequenceID (committedMsg msgPair) := msgPair]> pairs)).
  { intros seen node0 pairs msgPair HP _ Hgood.
    assert (Hgood' : good seen).
    { destruct Hgood as [Hnd Hrange]. unfold sequenceIDs in Hnd, Hrange.
      rewrite fmap_cons in Hnd, Hrange. apply NoDup_cons in Hnd as [_ Hnd].
      split; [exact Hnd |]. intros k Hk. apply Hrange. by right. }
    destruct (HP Hgood') as (Hl & Hf & Hgt & Hiff & Hin & Hpin).
    destruct Hgood as [Hnd Hrange]. unfold sequenceIDs in Hnd, Hrange.
    rewrite fmap_cons in Hnd, Hrange. apply NoDup_cons in Hnd as [Hfresh _].
    pose proof (Hrange _ ltac:(by left)) as Hk1.
    fold (sequenceIDs seen) in Hfresh.
    split; [done |]. split; [by apply pairsFiled_insert |].
    split; [| split; [| split]].
    - intros k [q Hq]. apply lookup_insert_Some in Hq as [[<- _] | [_ Hq]].
      + destruct (Z.le_gt_cases (req_SequenceID (committedMsg msgPair))
                                (Z.of_nat (length (CommittedMsgs node0)))) as [Hle | Hgt'];
          [| lia].
        exfalso. apply Hfresh. apply Hiff. left. lia.
      + apply Hgt. eauto.
    - intros k. unfold sequenceIDs. rewrite fmap_cons, elem_of_cons.
      fold (sequenceIDs seen). rewrite Hiff. split.
      + intros [-> | [Hk | [q Hq]]].
        * right. rewrite lookup_insert_eq. eauto.
        * by left.
        * right. destruct (decide (req_SequenceID (committedMsg msgPair) = k)) as [<- | Hne].
          -- rewrite lookup_insert_eq. eauto.
          -- rewrite lookup_insert_ne by done. eauto.
      + intros [Hk | [q Hq]]; [tauto |].
        apply lookup_insert_Some in Hq as [[<- _] | [_ Hq]]; [by left |].
        right. right. eauto.
    - intros r Hr. destruct (Hin r Hr) as (q & Hq & Hqr). exists q.
      split; [by right | done].
    - intros k q Hq. apply lookup_insert_Some in Hq as [[_ <-] | [_ Hq]];
        [by left | right; by eapply Hpin]. }
  pose proof (executeAll_invariant P Hloop Harrive arrivals [] node ∅) as H.
  destruct (executeAll node ∅ arrivals) as [node' pairs' | |];
    [| exact Hbasic | exact Hbasic].
  destruct Hbasic as [Hl' _].
  destruct H as [HP Hnone].
  { intros _. rewrite Hlog. simpl.
    split; [intros i r Hi; by rewrite lookup_nil in Hi |].
    split; [intros k p Hk; by rewrite lookup_empty in Hk |].
    split; [intros k [q Hq]; by rewrite lookup_empty in Hq |].
    split; [| split].
    - intros k. split; [intros Hk; by apply elem_of_nil in Hk |].
      intros [Hk | [q Hq]]; [lia | by rewrite lookup_empty in Hq].
    - intros r Hr. by apply elem_of_nil in Hr.
    - intros k p Hk. by rewrite lookup_empty in Hk. }
  { apply lookup_empty. }
  rewrite app_nil_r in HP.
  assert (Hseen : sequenceIDs (rev arrivals) ≡ₚ Z.of_nat <$> seq 1 n).
  { unfold sequenceIDs. rewrite <- Hperm. unfold sequenceIDs.
    apply fmap_Permutation. symmetry. apply Permutation_rev. }
  assert (Hgood : good (rev arrivals)).
  { split.
    - rewrite Hseen. apply NoDup_fmap; [intros x y; apply Nat2Z.inj | apply NoDup_seq].
    - intros k Hk. rewrite Hseen in Hk. by apply elem_of_upto in Hk. }
  pose proof (Hbound _ _ _ Hgood HP) as Hle.
  destruct (HP Hgood) as (_ & _ & Hgt & Hiff & Hin & _).
  rewrite (lastSequenceID_ordered node' Hl') in Hnone.
  rewrite int64_small in Hnone
    by (revert Hmax; unfold max_int64;
        change (2 ^ 63) with 9223372036854775808; lia).
  assert (Hall : forall k, 1 <= k <= Z.of_nat n <-> k ∈ sequenceIDs (rev arrivals)).
  { intros k. rewrite Hseen. symmetry. apply elem_of_upto. }
  assert (Hfull : length (CommittedMsgs node') = n).
  { destruct (decide (length (CommittedMsgs node') = n)) as [? | Hne]; [done |].
    exfalso.
    assert (Hk : Z.of_nat (length (CommittedMsgs node')) + 1
                 ∈ sequenceIDs (rev arrivals)) by (apply Hall; lia).
    apply Hiff in Hk as [Hk | [q Hq]]; [lia | congruence]. }
  split; [| split].
  - apply list_eq. intros i. rewrite !list_lookup_fmap.
    destruct (CommittedMsgs node' !! i) as [r |] eqn:Hi; simpl.
    + pose proof (lookup_lt_Some _ _ _ Hi) as Hlt.
      rewrite (lookup_seq_lt 1 n i) by lia. simpl.
      rewrite (Hl' _ _ Hi). f_equal. lia.
    + apply lookup_ge_None in Hi.
      rewrite (lookup_seq_ge 1 n i) by lia. done.
  - apply map_empty. intros k. destruct (pairs' !! k) as [q |] eqn:Hq; [| done].
    exfalso. specialize (Hgt k ltac:(eauto)).
    assert (Hk : k ∈ sequenceIDs (rev arrivals)) by (apply Hiff; right; eauto).
    apply Hall in Hk. lia.
  - intros r Hr. destruct (Hin r Hr) as (q & Hq & Hqr). exists q. split; [| done].
    by rewrite <- Permutation_rev in Hq.
Qed.

(** *** Requests and views across the handlers *)

(** X18: a negative view ID crashes the node unless it is a multiple of
    the size of the node table: Go's remainder is then negative and the
    table is indexed out of range, in [updateView] and so in [NewNode]
    and in [GetNewView] for a NEW-VIEW that carries such an ID.  For a
    negative multiple the first node of the table becomes primary. *)
Theorem negative_view_panics (node : Node) (viewID : Z) :
  NodeTable node <> [] -> viewID < 0 ->
  let n := Z.of_nat (length (NodeTable node)) in
  (viewID mod n <> 0 ->
   updateView node viewID = None
   /\ NewNode (MyInfo node) (NodeTable node) viewID = None
   /\ forall msg, nv_NextViewID msg = viewID -> GetNewView node msg = None)
  /\ (viewID mod n = 0 ->
      exists primary,
        head (NodeTable node) = Some primary
        /\ view <$> updateView node viewID = Some (mkView viewID primary)).
Proof.
  intros Htable Hneg n.
  assert (Hn : 0 < n) by (unfold n; destruct (NodeTable node); [done | simpl; lia]).
  assert (Hrem : Z.rem viewID n < 0 <-> viewID mod n <> 0).
  { pose proof (Z.rem_mod viewID n ltac:(lia)) as Hb.
    pose proof (Z.mod_pos_bound (Z.abs viewID) (Z.abs n) ltac:(lia)) as Hpos.
    pose proof (Z.rem_mod_eq_0 viewID n ltac:(lia)) as Heq.
    rewrite (Z.sgn_neg viewID Hneg) in Hb. lia. }
  assert (Hup : forall node0, NodeTable node0 = NodeTable node -> viewID mod n <> 0 ->
                              updateView node0 viewID = None).
  { intros node0 Heq Hmod. unfold updateView. rewrite Heq. fold n.
    destruct (NodeTable node) as [| x l]; [done |].
    apply Hrem in Hmod. apply Z.ltb_lt in Hmod. by rewrite Hmod. }
  split.
  - intros Hmod. split; [by apply Hup |]. split; [by apply Hup |].
    intros msg Hmsg. unfold GetNewView. rewrite Hmsg. by apply Hup.
  - intros Hmod. unfold updateView. fold n.
    destruct (NodeTable node) as [| x l] eqn:Ht; [done |].
    assert (Hz : Z.rem viewID n = 0) by (apply Z.rem_mod_eq_0; lia).
    rewrite Hz. simpl. by exists x.
Qed.

(** X19: when the primary handles a request and a backup with the same
    view and the same number of started instances handles it too, the
    backup accepts the PRE-PREPARE the primary broadcast: it keeps the
    request, stamped with the primary's sequence number, under that
    number, and broadcasts a PREPARE with its own ID for the primary's
    digest. *)
Theorem backup_answers_primary (CreateStateFor : Z -> string -> Z -> State)
    (primary backup : Node) (reqMsg : RequestMsg) :
  isMyNodePrimary primary = true ->
  TotalConsensus backup = TotalConsensus primary ->
  ViewID (createState CreateStateFor backup (req_Timestamp reqMsg))
  = ViewID (createState CreateStateFor primary (req_Timestamp reqMsg)) ->
  (GetReq CreateStateFor primary reqMsg).2 = Handled ->
  let n := int64 (TotalConsensus primary + 1) in
  let backup1 := (GetReq CreateStateFor backup reqMsg).1 in
  exists (msg : PrePrepareMsg) (state : State),
    MsgOutbound (GetReq CreateStateFor primary reqMsg).1
    = MsgOutbound primary
        ++ [mkMsgOut (Url (MyInfo primary) +:+ "/preprepare") (MsgPrePrepare msg)]
    /\ pp_SequenceID msg = n
    /\ (GetPrePrepare backup1 msg).2 = Handled
    /\ States (GetPrePrepare backup1 msg).1 !! n = Some state
    /\ ReqMsg (msgLogs state) = pp_RequestMsg msg
    /\ CurrentStage state = PrePrepared
    /\ MsgOutbound (GetPrePrepare backup1 msg).1
       = MsgOutbound backup1
           ++ [mkMsgOut (Url (MyInfo backup) +:+ "/prepare")
                        (MsgVote (mkVoteMsg (pp_ViewID msg) n (pp_Digest msg)
                                            (NodeID (MyInfo backup)) PrepareMsg))].
Proof.
  intros Hprim Htot Hview Hok n backup1. unfold backup1. clear backup1.
  revert Hok. unfold GetReq, startConsensus, StartConsensus. rewrite Htot. fold n.
  set (request := mkRequestMsg (req_Timestamp reqMsg) (req_ClientID reqMsg)
                               (req_Operation reqMsg) (req_Data reqMsg) n).
  destruct (digest (Some request)) as [d |] eqn:Hd; cbn [fst snd]; [| discriminate].
  intros _.
  assert (Hp : forall node m, isMyNodePrimary (set_States (set_TotalConsensus node n) m)
                              = isMyNodePrimary node) by reflexivity.
  rewrite !Hp, Hprim.
  set (pstate := createState CreateStateFor primary (req_Timestamp reqMsg)) in *.
  set (bstate := createState CreateStateFor backup (req_Timestamp reqMsg)) in *.
  set (msg := mkPrePrepareMsg (ViewID pstate) n d (Some request)).
  set (stored := set_CurrentStage
                   (set_MsgLogs (set_SequenceID bstate n)
                                (set_ReqMsg (msgLogs (set_SequenceID bstate n))
                                            (Some request)))
                   PrePrepared).
  assert (HPP : PrePrepare stored msg
                = (stored, Ok (mkVoteMsg (ViewID pstate) n d "" PrepareMsg))).
  { unfold PrePrepare.
    assert (Hv : verifyMsg
                   (set_SequenceID
                      (set_MsgLogs stored (set_ReqMsg (msgLogs stored) (pp_RequestMsg msg)))
                      (pp_SequenceID msg))
                   (pp_ViewID msg) (pp_SequenceID msg) (pp_Digest msg) = None).
    { apply verifyMsg_None. simpl. by rewrite Hview, Hd. }
    rewrite Hv. simpl. by rewrite Hview. }
  assert (Hget : forall node0,
            States node0 !! n = Some stored ->
            (GetPrePrepare node0 msg).2 = Handled
            /\ States (GetPrePrepare node0 msg).1 !! n = Some stored
            /\ MsgOutbound (GetPrePrepare node0 msg).1
               = MsgOutbound node0
                   ++ [mkMsgOut (Url (MyInfo node0) +:+ "/prepare")
                                (MsgVote (mkVoteMsg (pp_ViewID msg) n (pp_Digest msg)
                                                    (NodeID (MyInfo node0)) PrepareMsg))]).
  { intros node0 Hst. unfold GetPrePrepare, getState, prePrepare.
    change (pp_SequenceID msg) with n. rewrite Hst, HPP. simpl.
    by rewrite lookup_insert_eq. }
  exists msg, stored. split; [reflexivity |]. split; [reflexivity |].
  destruct (isMyNodePrimary backup).
  - destruct (Hget (Broadcast
                      (set_States (set_TotalConsensus backup n)
                                  (<[n := stored]> (States backup)))
                      (MsgPrePrepare (mkPrePrepareMsg (ViewID stored) n d (Some request)))
                      "/preprepare")) as (H1 & H2 & H3).
    { simpl. by rewrite lookup_insert_eq. }
    split; [exact H1 |]. split; [exact H2 |]. split; [reflexivity |].
    split; [reflexivity | exact H3].
  - destruct (Hget (set_States (set_TotalConsensus backup n)
                               (<[n := stored]> (States backup)))) as (H1 & H2 & H3).
    { simpl. by rewrite lookup_insert_eq. }
    split; [exact H1 |]. split; [exact H2 |]. split; [reflexivity |].
    split; [reflexivity | exact H3].
Qed.

(** *** Overflow of the vote counters *)

Lemma int32_add_l (x y : Z) : int32 (int32 x + y) = int32 (x + y).
Proof.
  unfold int32, wrap. change (2 ^ (32 - 1)) with 2147483648.
  change (2 ^ 32) with 4294967296. f_equal.
  replace ((x + 2147483648) mod 4294967296 - 2147483648 + y + 2147483648)
    with ((x + 2147483648) mod 4294967296 + y) by lia.
  rewrite Z.add_mod_idemp_l by lia. f_equal. lia.
Qed.

(** A matching PREPARE is counted modulo 2^32: [atomic.AddInt32] wraps.
    It is answered with the COMMIT whenever the wrapped counter is 2f
    and the instance holds a request. *)
Lemma Prepare_matching (state : State) (vote : VoteMsg) :
  verifyMsg state (vote_ViewID vote) (vote_SequenceID vote) (vote_Digest vote) = None ->
  let state' := (Prepare state vote).1 in
  verifyMsg state' (vote_ViewID vote) (vote_SequenceID vote) (vote_Digest vote) = None
  /\ f state' = f state /\ ViewID state' = ViewID state
  /\ ReqMsg (msgLogs state') = ReqMsg (msgLogs state)
  /\ TotalPrepareMsg (msgLogs state') = int32 (TotalPrepareMsg (msgLogs state) + 1)
  /\ (int32 (TotalPrepareMsg (msgLogs state) + 1) = two_f state ->
      is_Some (ReqMsg (msgLogs state)) ->
      (Prepare state vote).2
      = Ok (Some (mkVoteMsg (ViewID state) (vote_SequenceID vote) (vote_Digest vote)
                            "" CommitMsg))).
Proof.
  intros Hv state'. unfold state', Prepare. rewrite Hv.
  set (stored := set_MsgLogs state
                   (add_prepare (msgLogs state) (vote_NodeID vote) (Some vote))).
  assert (Htwo : two_f stored = two_f state) by reflexivity.
  assert (Hcount : TotalPrepareMsg (msgLogs stored)
                   = int32 (TotalPrepareMsg (msgLogs state) + 1)) by reflexivity.
  assert (Hsame : forall st, ViewID st = ViewID state -> SequenceID st = SequenceID state ->
                             ReqMsg (msgLogs st) = ReqMsg (msgLogs state) ->
                             verifyMsg st (vote_ViewID vote) (vote_SequenceID vote)
                                       (vote_Digest vote) = None).
  { intros st H1 H2 H3. by rewrite (verifyMsg_same st state). }
  rewrite Htwo, Hcount.
  destruct (Z.ltb_spec (two_f state) (int32 (TotalPrepareMsg (msgLogs state) + 1)))
    as [Hlt | Hge].
  - cbn [fst snd]. split; [by apply Hsame |]. repeat split. intros Heq. lia.
  - unfold prepared. rewrite Htwo, Hcount.
    change (ReqMsg (msgLogs stored)) with (ReqMsg (msgLogs state)).
    destruct (ReqMsg (msgLogs state)) as [request |] eqn:Hreq.
    + destruct (Z.ltb_spec (int32 (TotalPrepareMsg (msgLogs state) + 1)) (two_f state))
        as [Hlt' | Hge']; cbn [fst snd].
      * split; [by apply Hsame |]. repeat split; [done |]. intros Heq. lia.
      * split; [by apply Hsame |]. repeat split; done.
    + cbn [fst snd]. split; [by apply Hsame |]. repeat split; [done |].
      intros _ [? [=]].
Qed.

(** After [m] matching PREPAREs the counter is the old one plus [m],
    modulo 2^32. *)
Lemma run_prepares_wrap (vote : VoteMsg) (m : nat) :
  forall state : State,
    verifyMsg state (vote_ViewID vote) (vote_SequenceID vote) (vote_Digest vote) = None ->
    let state' := (run state (replicate m (CallPrepare vote))).1 in
    verifyMsg state' (vote_ViewID vote) (vote_SequenceID vote) (vote_Digest vote) = None
    /\ f state' = f state /\ ViewID state' = ViewID state
    /\ ReqMsg (msgLogs state') = ReqMsg (msgLogs state)
    /\ int32 (TotalPrepareMsg (msgLogs state') + 1)
       = int32 (TotalPrepareMsg (msgLogs state) + Z.of_nat m + 1).
Proof.
  induction m as [| m IH]; intros state Hv.
  - simpl. repeat split; [done |]. f_equal. lia.
  - cbn [replicate]. rewrite run_cons, call_Prepare. cbn [fst].
    destruct (Prepare_matching state vote Hv) as (Hv1 & Hf1 & Hview1 & Hreq1 & Hc1 & _).
    destruct (IH _ Hv1) as (Hv' & Hf' & Hview' & Hreq' & Hc').
    split; [exact Hv' |]. split; [congruence |]. split; [congruence |].
    split; [congruence |].
    rewrite Hc', Hc1.
    replace (int32 (TotalPrepareMsg (msgLogs state) + 1) + Z.of_nat m + 1)
      with (int32 (TotalPrepareMsg (msgLogs state) + 1) + (Z.of_nat m + 1)) by lia.
    rewrite int32_add_l. f_equal. lia.
Qed.

(** The COMMIT is returned again when the counter has wrapped around:
    the first of [m] + 2 matching PREPAREs brings the counter to 2f, and
    so does the last if [m] + 1 is a multiple of 2^32. *)
Lemma Prepare_emits_again (state : State) (vote : VoteMsg) (m : nat) :
  verifyMsg state (vote_ViewID vote) (vote_SequenceID vote) (vote_Digest vote) = None ->
  is_Some (ReqMsg (msgLogs state)) ->
  int32 (TotalPrepareMsg (msgLogs state) + 1) = two_f state ->
  int32 (TotalPrepareMsg (msgLogs state) + 1 + Z.of_nat m + 1) = two_f state ->
  let votes := CallPrepare vote :: replicate m (CallPrepare vote) ++ [CallPrepare vote] in
  let commitMsg :=
    mkVoteMsg (ViewID state) (vote_SequenceID vote) (vote_Digest vote) "" CommitMsg in
  head (run state votes).2 = Some (OutPrepare (Ok (Some commitMsg)))
  /\ last (run state votes).2 = Some (OutPrepare (Ok (Some commitMsg)))
  /\ (2 <= countOutputs emitsCommit (run state votes).2)%nat.
Proof.
  intros Hv Hreq Hfirst Hlast votes commitMsg. unfold votes.
  destruct (Prepare_matching state vote Hv) as (Hv1 & Hf1 & Hview1 & Hreq1 & Hc1 & Hout1).
  specialize (Hout1 Hfirst Hreq).
  set (state1 := (Prepare state vote).1) in *.
  destruct (run_prepares_wrap vote m state1 Hv1) as (Hv2 & Hf2 & Hview2 & Hreq2 & Hc2).
  set (state2 := (run state1 (replicate m (CallPrepare vote))).1) in *.
  destruct (Prepare_matching state2 vote Hv2) as (_ & _ & _ & _ & _ & Hout2).
  assert (Htwo : two_f state2 = two_f state) by (unfold two_f; congruence).
  assert (Hout2' : (Prepare state2 vote).2 = Ok (Some commitMsg)).
  { unfold commitMsg. rewrite <- Hview1, <- Hview2. apply Hout2.
    - rewrite Hc2, Hc1, Htwo.
      replace (int32 (TotalPrepareMsg (msgLogs state) + 1) + Z.of_nat m + 1)
        with (int32 (TotalPrepareMsg (msgLogs state) + 1) + (Z.of_nat m + 1)) by lia.
      rewrite int32_add_l. rewrite <- Hlast. f_equal. lia.
    - rewrite Hreq2, Hreq1. exact Hreq. }
  rewrite run_cons, call_Prepare. cbn [fst snd]. fold state1.
  rewrite run_app. cbn [fst snd]. fold state2.
  rewrite (run_cons state2), call_Prepare. cbn [fst snd]. simpl run. cbn [snd].
  rewrite Hout1, Hout2'.
  split; [reflexivity |]. split.
  - rewrite app_comm_cons. apply last_snoc.
  - rewrite countOutputs_cons. cbn [emitsCommit].
    unfold countOutputs. rewrite filter_app, length_app.
    rewrite filter_cons. simpl. lia.
Qed.

(** *** A checkpoint becomes stable once *)



Lemma instancesKept_same (node node' : Node) :
  TotalConsensus node' = TotalConsensus node -> States node' = States node ->
  instancesKept node node'.
Proof. intros Ht Hs. split; [done |]. intros k state. rewrite Hs. eauto. Qed.







Lemma instancesKept_updateView (node node' : Node) (viewID : Z) :
  updateView node viewID = Some node' -> instancesKept node node'.
Proof.
  unfold updateView. destruct (NodeTable node) as [| x l]; [discriminate |].
  destruct (_ <? 0); [discriminate |].
  destruct (_ !! _) as [primary |]; [| discriminate].
  intros [= <-]. by apply instancesKept_same.
Qed.










(** The node [NewNode] returns has started no instance and registers
    none. *)
Lemma NewNode_started (myInfo : NodeInfo) (nodeTable : list NodeInfo) (viewID : Z)
    (node : Node) :
  NewNode myInfo nodeTable viewID = Some node ->
  started node /\ TotalConsensus node = 0.
Proof.
  intros Hnew. apply instancesKept_updateView in Hnew as [Ht Hk]. split; [| exact Ht].
  intros k [state Hst]. destruct (Hk _ _ Hst) as (state0 & Hst0 & _).
  simpl in Hst0. by rewrite lookup_empty in Hst0.
Qed.



End PBFT.

(** ** The sample cluster

    The properties above at the sample data, and where the instance and
    the node part from what one would expect of a PBFT replica. *)

Lemma sampleState_CreateState : sampleState = CreateState 0 4 "R0".
Proof. reflexivity. Qed.

Lemma sampleState7_CreateState : sampleState7 = CreateState 0 7 "R0".
Proof. reflexivity. Qed.

Lemma sampleNode_NewNode : NewNode R1 cluster 0 = Some sampleNode.
Proof. reflexivity. Qed.



(** C2: PREPARE votes of one node are counted each time.  With f = 2,
    three PREPARE votes of R1 alone bring the counter from the seeded 1
    to 2f = 4: the third returns the COMMIT and the instance is
    PREPARED, with the votes of two nodes, R0's seed and R1. *)
Theorem Prepare_counts_duplicate_votes :
  let '(state, outputs) :=
    run sample_digest sampleState7
        [CallPrePrepare ppX; CallPrepare (prepareFrom "R1");
         CallPrepare (prepareFrom "R1"); CallPrepare (prepareFrom "R1")] in
  map emitsCommit outputs = [false; false; false; true]
  /\ CurrentStage state = Prepared
  /\ TotalPrepareMsg (msgLogs state) = 4
  /\ dom (PrepareMsgs (msgLogs state)) = {["R0"; "R1"]}
  /\ 2 * f state = 4.
Proof. vm_compute. repeat split. Qed.

(** The executor on pairs that arrive out of order, across the
    checkpoint at 5. *)
Example executeAll_sample :
  match executeAll sample_digest sampleNode ∅
                   [pairAt 2; pairAt 1; pairAt 3; pairAt 5; pairAt 4] with
  | Finished node' pairs' =>
    map req_SequenceID (CommittedMsgs node') = [1; 2; 3; 4; 5]
    /\ pairs' = ∅ /\ CheckPointSendPoint node' = 5
  | _ => False
  end.
Proof. vm_compute. repeat split. Qed.

Lemma executeMsg_log_ordered_witness :
  match executeAll sample_digest sampleNode ∅
                   [pairAt 2; pairAt 1; pairAt 3; pairAt 5; pairAt 4] with
  | Finished node' pairs' => logOrdered (CommittedMsgs node')
  | _ => False
  end.
Proof.
  pose proof (executeMsg_log_ordered sample_digest sampleNode
                [pairAt 2; pairAt 1; pairAt 3; pairAt 5; pairAt 4]
                eq_refl eq_refl) as H.
  destruct (executeAll sample_digest sampleNode ∅
              [pairAt 2; pairAt 1; pairAt 3; pairAt 5; pairAt 4])
    as [node' pairs' | |].
  - exact (proj1 H).
  - destruct H as [r Hr]. discriminate Hr.
  - exact H.
Defined.

(** C4, the claim as stated fails: a PRE-PREPARE accepted by a committed
    instance, or [StartConsensus] called on it, takes the stage back to
    PRE_PREPARED. *)
Lemma stage_regresses_on_PrePrepare :
  let state :=
    (run sample_digest sampleState
         [CallPrePrepare ppX; CallPrepare (prepareFrom "R1");
          CallCommit (commitFrom "R1"); CallCommit (commitFrom "R2")]).1 in
  CurrentStage state = Committed
  /\ CurrentStage (PrePrepare sample_digest state ppX).1 = PrePrepared
  /\ CurrentStage (StartConsensus sample_digest state reqX 1).1 = PrePrepared.
Proof. vm_compute. repeat split. Qed.

Lemma stage_monotone_under_votes_witness :
  let state := (PrePrepare sample_digest sampleState ppX).1 in
  let votes := [CallPrepare (prepareFrom "R1"); CallCommit (commitFrom "R1");
                CallCommit (commitFrom "R2")] in
  stage_rank (CurrentStage state) <= stage_rank (CurrentStage (run sample_digest state votes).1).
Proof.
  intros state votes.
  refine (proj1 (stage_monotone_under_votes sample_digest state votes _ _ _)).
  - repeat constructor.
  - vm_compute. repeat split; discriminate.
  - intros Hst. vm_compute in Hst. discriminate Hst.
Defined.

(** C5, the claim as stated fails: after the PRE-PREPARE for request x
    was accepted, one for request y in the same view and at the same
    sequence number, with another digest, is accepted too, and y is the
    stored request. *)
Lemma PrePrepare_second_replaces_request :
  let '(state1, r1) := PrePrepare sample_digest sampleState ppX in
  let '(state2, r2) := PrePrepare sample_digest state1 ppY in
  r1 = Ok (mkVoteMsg 0 1 "C/x/" "" PrepareMsg)
  /\ r2 = Ok (mkVoteMsg 0 1 "C/y/" "" PrepareMsg)
  /\ pp_ViewID ppX = pp_ViewID ppY /\ pp_SequenceID ppX = pp_SequenceID ppY
  /\ pp_Digest ppX <> pp_Digest ppY
  /\ ReqMsg (msgLogs state1) = Some reqX
  /\ ReqMsg (msgLogs state2) = Some reqY.
Proof. vm_compute. repeat split. discriminate. Qed.

Lemma PrePrepare_second_accepted_witness :
  (exists v2, (PrePrepare sample_digest (PrePrepare sample_digest sampleState ppX).1 ppY).2
              = Ok v2).
Proof.
  refine (proj2 (proj1 (PrePrepare_second_accepted sample_digest sampleState
                          (PrePrepare sample_digest sampleState ppX).1 ppX ppY
                          (mkVoteMsg 0 1 "C/x/" "" PrepareMsg) _ _)) _);
    reflexivity.
Defined.

(** C6, the claim as stated fails: the third CHECKPOINT for 5 makes the
    checkpoint stable although the three stored digests differ. *)
Lemma checkpoint_stable_with_mismatched_digests :
  let node := checkpointNode "d0" "d1" in
  let msg := checkPointFrom "R2" "d2" in
  becomesStable node msg = true
  /\ StableCheckPoint (CheckPoint node msg) = 5
  /\ cp_Digest <$> (checkPointMsgsAt (storeCheckPoint node msg) 5 !! "R0") = Some "d0"
  /\ cp_Digest <$> (checkPointMsgsAt (storeCheckPoint node msg) 5 !! "R1") = Some "d1"
  /\ cp_Digest <$> (checkPointMsgsAt (storeCheckPoint node msg) 5 !! "R2") = Some "d2".
Proof. vm_compute. repeat split. Qed.

Lemma checkpoint_stable_iff_witness :
  becomesStable (checkpointNode "d" "d") (checkPointFrom "R2" "d") = true.
Proof.
  refine (proj2 (proj1 (checkpoint_stable_iff
                          (checkpointNode "d" "d") (checkPointFrom "R2" "d") _)) _).
  - intros state Hst. vm_compute in Hst. injection Hst as <-.
    vm_compute. split; [discriminate | reflexivity].
  - exists (committedInstance 5). vm_compute.
    repeat split; try discriminate. by exists (checkPointFrom "R0" "d").
Defined.

(** C7, the claim as stated fails: after the checkpoint at 5 became
    stable, with three matching CHECKPOINTs, the registry still holds
    the instance for 5. *)
Lemma CheckPoint_keeps_stable_instance :
  let node := checkpointNode "d" "d" in
  let msg := checkPointFrom "R2" "d" in
  becomesStable node msg = true
  /\ StableCheckPoint (CheckPoint node msg) = 5
  /\ dom (States (CheckPoint node msg)) = {[5]}
  /\ dom (CheckPointMsgsLog (CheckPoint node msg)) = {[5]}.
Proof. vm_compute. repeat split. Qed.

Lemma CheckPoint_stable_truncates_witness :
  let node' := CheckPoint (checkpointNode "d" "d") (checkPointFrom "R2" "d") in
  StableCheckPoint node' = 5
  /\ (forall k, is_Some (States node' !! k) -> 5 <= k).
Proof.
  pose proof (CheckPoint_stable_truncates
                (checkpointNode "d" "d") (checkPointFrom "R2" "d") eq_refl) as H.
  destruct H as (H1 & H2 & _). split; [exact H1 | exact H2].
Defined.

(** C8: a PRE-PREPARE for another view is rejected as corrupted, yet the
    request and the sequence number it carries have replaced those of
    the instance: [PrePrepare] stores them before it verifies, where
    [Prepare] and [Commit] verify first. *)
Theorem PrePrepare_corrupt_overwrites_request :
  let state := (PrePrepare sample_digest sampleState ppX).1 in
  let '(state', r) := PrePrepare sample_digest state ppWrongView in
  r = Err (PrePrepareCorrupted (WrongView 0 7) "y")
  /\ ReqMsg (msgLogs state) = Some reqX /\ SequenceID state = 1
  /\ ReqMsg (msgLogs state') = Some reqY /\ SequenceID state' = 9.
Proof. vm_compute. repeat split. Qed.

(** C9, the claim as stated fails: the router drops the replica's own
    COMMIT vote. *)
Lemma routeMsg_drops_own_commit :
  vote_NodeID (commitFrom "R1") = NodeID (MyInfo sampleNode)
  /\ vote_MsgType (commitFrom "R1") = CommitMsg
  /\ MsgDelivery (routeMsg sampleNode (MsgVote (commitFrom "R1"))) = []
  /\ MsgDelivery (routeMsg sampleNode (MsgVote (commitFrom "R2")))
     = [MsgVote (commitFrom "R2")].
Proof. repeat split. Qed.

Lemma routeMsg_drops_own_votes_witness :
  routeMsg sampleNode (MsgVote (prepareFrom "R1")) = sampleNode
  /\ routeMsg sampleNode (MsgVote (commitFrom "R1")) = sampleNode.
Proof.
  split.
  - exact (proj1 (routeMsg_drops_own_votes sampleNode (prepareFrom "R1")
                    (checkPointFrom "R1" "d")) eq_refl).
  - exact (proj1 (routeMsg_drops_own_votes sampleNode (commitFrom "R1")
                    (checkPointFrom "R1" "d")) eq_refl).
Defined.

(** C10, the claim as stated fails: the prepare counter is an int32 and
    wraps around.  On the pre-prepared sample instance (f = 1, counter
    seeded with 1) the first PREPARE of R1 brings the counter to 2f = 2
    and is answered with the COMMIT; 2^32 matching PREPAREs later the
    counter is at 2 again and the COMMIT is returned a second time. *)
Lemma votes_emit_again_after_wrap :
  let state := (PrePrepare sample_digest sampleState ppX).1 in
  let vote := CallPrepare (prepareFrom "R1") in
  let votes := vote :: replicate (Z.to_nat (2 ^ 32 - 1)) vote ++ [vote] in
  Forall (λ c, isVoteCall c = true) votes
  /\ Z.of_nat (length votes) = 2 ^ 32 + 1
  /\ head (run sample_digest state votes).2
     = Some (OutPrepare (Ok (Some (commitFrom ""))))
  /\ last (run sample_digest state votes).2
     = Some (OutPrepare (Ok (Some (commitFrom ""))))
  /\ (2 <= countOutputs emitsCommit (run sample_digest state votes).2)%nat.
Proof.
  intros state vote votes. unfold votes, vote.
  set (m := Z.to_nat (2 ^ 32 - 1)).
  assert (Hm : Z.of_nat m = 2 ^ 32 - 1) by (apply Z2Nat.id; by vm_compute).
  clearbody m.
  split.
  { constructor; [reflexivity |]. apply Forall_app. split.
    - by apply Forall_replicate.
    - by repeat constructor. }
  split.
  { cbn [length]. rewrite length_app, length_replicate. cbn [length]. lia. }
  assert (Hlast : int32 (TotalPrepareMsg (msgLogs state) + 1 + Z.of_nat m + 1)
                  = two_f state).
  { rewrite Hm. reflexivity. }
  exact (Prepare_emits_again sample_digest state (prepareFrom "R1") m
           eq_refl (ex_intro _ reqX eq_refl) eq_refl Hlast).
Qed.

Lemma votes_emit_at_most_once_witness :
  let state := (PrePrepare sample_digest sampleState ppX).1 in
  let votes := [CallPrepare (prepareFrom "R1"); CallPrepare (prepareFrom "R2");
                CallCommit (commitFrom "R1"); CallCommit (commitFrom "R2");
                CallCommit (commitFrom "R3"); CallPrepare (prepareFrom "R3")] in
  (countOutputs emitsCommit (run sample_digest state votes).2 <= 1)%nat
  /\ (countOutputs emitsReply (run sample_digest state votes).2 <= 1)%nat.
Proof.
  intros state votes.
  assert (H : Forall (λ c, isVoteCall c = true) votes /\ votesFit state (length votes)).
  { split; [repeat constructor |]. vm_compute. repeat split; discriminate. }
  destruct H as [Hall Hfit].
  pose proof (votes_emit_at_most_once sample_digest state votes Hall Hfit) as H.
  split; [apply H | apply H].
Defined.

(** ** Further properties at the sample cluster *)

Lemma sampleCreateStateFor_CreateState (viewID totNodes : Z) (nodeID : string) :
  sampleCreateStateFor viewID nodeID totNodes = CreateState viewID totNodes nodeID.
Proof. reflexivity. Qed.

Lemma samplePrimary_NewNode : NewNode R0 cluster 0 = Some samplePrimary.
Proof. reflexivity. Qed.

Lemma preparedInstance_run :
  preparedInstance
  = (run sample_digest sampleState
         [CallPrePrepare ppX; CallPrepare (prepareFrom "R2");
          CallCommit (commitFrom "R2")]).1.
Proof. reflexivity. Qed.

Lemma StartConsensus_PrePrepare_accepted_witness :
  (StartConsensus sample_digest sampleState reqX 1).2 = Ok ppX
  /\ (PrePrepare sample_digest sampleState7 ppX).2 = Ok (prepareFrom "")
  /\ ReqMsg (msgLogs (PrePrepare sample_digest sampleState7 ppX).1) = Some reqX.
Proof.
  destruct (StartConsensus_PrePrepare_accepted sample_digest sampleState
              (StartConsensus sample_digest sampleState reqX 1).1 sampleState7
              reqX 1 ppX eq_refl eq_refl)
    as (backup' & HP & _ & Hreq & _).
  split; [reflexivity |]. rewrite HP. split; [reflexivity | exact Hreq].
Defined.

Lemma rejected_votes_leave_instance_witness :
  (exists e, (Prepare sample_digest sampleState (prepareFrom "R1")).2 = Err e)
  /\ (Prepare sample_digest sampleState (prepareFrom "R1")).1 = sampleState.
Proof.
  split; [by eexists |].
  exact (proj1 (proj2 (proj2 (rejected_votes_leave_instance sample_digest sampleState
                                (prepareFrom "R1"))))
               _ eq_refl).
Defined.

Lemma late_votes_stored_witness :
  let state :=
    (run sample_digest sampleState
         [CallPrePrepare ppX; CallPrepare (prepareFrom "R1")]).1 in
  CurrentStage state = Prepared
  /\ Prepare sample_digest state (prepareFrom "R2")
     = (set_MsgLogs state (add_prepare (msgLogs state) "R2" (Some (prepareFrom "R2"))),
        Ok None).
Proof.
  intros state. split; [reflexivity |].
  refine (proj1 (proj1 (late_votes_stored sample_digest state (prepareFrom "R2") eq_refl)
                       _ _)).
  - vm_compute. split; [discriminate | reflexivity].
  - vm_compute. discriminate.
Defined.

Lemma small_cluster_never_decides_witness :
  let calls := [CallPrePrepare ppX; CallPrepare (prepareFrom "R1");
                CallPrepare (prepareFrom "R2"); CallCommit (commitFrom "R1");
                CallCommit (commitFrom "R2")] in
  countOutputs emitsCommit (run sample_digest (CreateState 0 3 "R0") calls).2 = 0%nat
  /\ countOutputs emitsReply (run sample_digest (CreateState 0 3 "R0") calls).2 = 0%nat.
Proof.
  intros calls.
  refine (let H := small_cluster_never_decides sample_digest 0 3 "R0" calls _ _ in
          conj (proj1 H) (proj1 (proj2 H))).
  - lia.
  - vm_compute. reflexivity.
Defined.

Lemma CreateState_tolerates_a_third_witness :
  f (CreateState 0 7 "R0") = 2
  /\ 3 * f (CreateState 0 7 "R0") + 1 <= 7 <= 3 * f (CreateState 0 7 "R0") + 3.
Proof.
  split; [reflexivity |].
  refine (let H := CreateState_tolerates_a_third 0 7 "R0" _ in
          conj (proj1 (proj2 H)) (proj2 (proj2 H))).
  vm_compute. split; [discriminate | reflexivity].
Defined.

Lemma quorum_run_commits_witness :
  let calls :=
    CallPrePrepare ppX
    :: (CallPrepare <$> [prepareFrom "R1"; prepareFrom "R2"; prepareFrom "R3"])
    ++ (CallCommit <$> [commitFrom "R1"; commitFrom "R2"; commitFrom "R3";
                        commitFrom "R4"]) in
  CurrentStage (run sample_digest sampleState7 calls).1 = Committed
  /\ countOutputs emitsCommit (run sample_digest sampleState7 calls).2 = 1%nat
  /\ countOutputs emitsReply (run sample_digest sampleState7 calls).2 = 1%nat.
Proof.
  refine (let H := quorum_run_commits sample_digest sampleState7 ppX reqX
                     [prepareFrom "R1"; prepareFrom "R2"; prepareFrom "R3"]
                     [commitFrom "R1"; commitFrom "R2"; commitFrom "R3"; commitFrom "R4"]
                     eq_refl eq_refl eq_refl _ _ _ _ _ _ _ eq_refl eq_refl in
          conj (proj1 H) (conj (proj1 (proj2 H)) (proj1 (proj2 (proj2 H))))).
  - repeat constructor.
  - repeat constructor.
  - discriminate.
  - discriminate.
  - vm_compute. discriminate.
  - vm_compute. discriminate.
  - vm_compute. discriminate.
Defined.

Lemma GetReq_assigns_next_sequence_witness :
  let node' := (GetReq sample_digest sampleCreateStateFor preparedNode reqY).1 in
  TotalConsensus node' = 2
  /\ (GetReq sample_digest sampleCreateStateFor preparedNode reqY).2 = Handled
  /\ States node' !! 1 = Some preparedInstance.
Proof.
  destruct (GetReq_assigns_next_sequence sample_digest sampleCreateStateFor
              preparedNode reqY) as (Htot & Hok & Hsome & _).
  split; [exact Htot |]. split; [apply Hok; by eexists |].
  destruct (Hsome "C/y/" eq_refl) as (state & _ & _ & _ & _ & Hrest & _).
  exact (Hrest 1 ltac:(discriminate)).
Defined.

Lemma refused_votes_leave_node_witness :
  GetPrepare sample_digest sampleNode (prepareFrom "R2")
  = (sampleNode, Refused (StateNotCreated 1))
  /\ (forall node' e,
        GetPrepare sample_digest preparedNode (mkVoteMsg 0 1 "C/y/" "R3" PrepareMsg)
        = (node', Refused e) -> node' = preparedNode).
Proof.
  destruct (refused_votes_leave_node sample_digest sampleNode (prepareFrom "R2"))
    as (_ & _ & Hnone).
  destruct (refused_votes_leave_node sample_digest preparedNode
              (mkVoteMsg 0 1 "C/y/" "R3" PrepareMsg)) as (Hsame & _).
  split; [exact (proj1 (Hnone eq_refl)) | exact Hsame].
Defined.

Lemma registry_stays_keyed_witness :
  registryKeyed (GetReq sample_digest sampleCreateStateFor preparedNode reqY).1
  /\ registryKeyed (GetCommit sample_digest preparedNode (commitFrom "R3")).1.1.
Proof.
  assert (Hkeyed : registryKeyed preparedNode).
  { intros k state Hk. unfold preparedNode in Hk. cbn [States] in Hk.
    apply lookup_singleton_Some in Hk as [<- <-]. reflexivity. }
  destruct (registry_stays_keyed sample_digest sampleCreateStateFor preparedNode Hkeyed)
    as (Hreq & _ & _ & Hcommit & _).
  split; [apply Hreq | apply Hcommit].
Defined.

Lemma GetCommit_hands_over_witness :
  exists node',
    GetCommit sample_digest preparedNode (commitFrom "R3")
    = (node', Some (mkMsgPair (mkReplyMsg 0 1 "C" "R1" "") reqX), Handled)
    /\ MsgOutbound node' = MsgOutbound preparedNode
    /\ CurrentStage <$> (States node' !! 1) = Some Committed.
Proof.
  exists (GetCommit sample_digest preparedNode (commitFrom "R3")).1.1.
  destruct (GetCommit_hands_over sample_digest preparedNode
              (GetCommit sample_digest preparedNode (commitFrom "R3")).1.1
              (commitFrom "R3") (mkMsgPair (mkReplyMsg 0 1 "C" "R1" "") reqX) Handled
              eq_refl)
    as (_ & Hout & state & _ & _ & _ & _ & Hstage).
  split; [reflexivity |]. split; [exact Hout | exact Hstage].
Defined.

Lemma updateView_round_robin_witness :
  updateView (mkNode R1 [] (mkView 0 R0) ∅ [] 0 [] [] 0 0 ∅) 5 = None
  /\ exists primary,
       cluster !! 1%nat = Some primary
       /\ view <$> updateView sampleNode 5 = Some (mkView 5 primary)
       /\ view <$> updateView sampleNode 9 = Some (mkView 9 primary).
Proof.
  split.
  - exact (proj1 (updateView_round_robin (mkNode R1 [] (mkView 0 R0) ∅ [] 0 [] [] 0 0 ∅) 5) eq_refl).
  - destruct (proj2 (updateView_round_robin sampleNode 5)
                    ltac:(discriminate) ltac:(discriminate))
      as (primary & Hlookup & Hview & Hnext).
    exists primary. split; [exact Hlookup |]. split; [by rewrite Hview | exact Hnext].
Defined.

Lemma executor_executes_all_witness :
  match executeAll sample_digest sampleNode ∅ [pairAt 2; pairAt 1; pairAt 3] with
  | Finished node' pairs' =>
    req_SequenceID <$> CommittedMsgs node' = [1; 2; 3] /\ pairs' = ∅
  | _ => False
  end.
Proof.
  assert (Hperm : sequenceIDs [pairAt 2; pairAt 1; pairAt 3]
                  ≡ₚ Z.of_nat <$> seq 1 3) by apply perm_swap.
  pose proof (executor_executes_all sample_digest sampleNode
                [pairAt 2; pairAt 1; pairAt 3] 3 eq_refl Hperm eq_refl) as H.
  destruct (executeAll sample_digest sampleNode ∅ [pairAt 2; pairAt 1; pairAt 3])
    as [node' pairs' | |].
  - destruct H as (Hlog & Hpairs & _). split; [exact Hlog | exact Hpairs].
  - destruct H as [r Hr]. discriminate Hr.
  - exact H.
Defined.

Lemma executor_outputs_in_step_witness :
  match executeAll sample_digest sampleNode ∅
                   [pairAt 2; pairAt 1; pairAt 3; pairAt 5; pairAt 4; pairAt 6] with
  | Finished node' _ =>
    CheckPointSendPoint node' = 5
    /\ length (repliesSent node') = length (CommittedMsgs node')
    /\ Z.of_nat (length (checkPointsSent node'))
       = Z.of_nat (length (CommittedMsgs node')) / 5
  | _ => False
  end.
Proof.
  pose proof (executor_outputs_in_step sample_digest sampleNode
                [pairAt 2; pairAt 1; pairAt 3; pairAt 5; pairAt 4; pairAt 6]
                eq_refl eq_refl eq_refl eq_refl eq_refl) as H.
  remember (executeAll sample_digest sampleNode ∅
              [pairAt 2; pairAt 1; pairAt 3; pairAt 5; pairAt 4; pairAt 6]) as r eqn:Hr.
  vm_compute in Hr.
  destruct r as [node' pairs' | |]; [| discriminate Hr | discriminate Hr].
  destruct H as (Hsend & Hreplies & _ & Hcps & _).
  split; [| split; [exact Hreplies | exact Hcps]].
  rewrite Hsend. injection Hr as -> _. reflexivity.
Defined.


Lemma CheckPoint_stores_entry_witness :
  becomesStable sampleNode (checkPointFrom "R2" "d") = false
  /\ checkPointMsgsAt (CheckPoint sampleNode (checkPointFrom "R2" "d")) 5 !! "R2"
     = Some (checkPointFrom "R2" "d")
  /\ States (CheckPoint sampleNode (checkPointFrom "R2" "d")) = States sampleNode.
Proof.
  destruct (CheckPoint_stores_entry sampleNode (checkPointFrom "R2" "d"))
    as [Hnone Hstore].
  pose proof (Hnone eq_refl) as Hfalse.
  destruct (Hstore Hfalse) as (Hentry & Hstates & _).
  split; [exact Hfalse |]. split; [exact (Hentry 5 "R2") | exact Hstates].
Defined.

Lemma logErrorMsg_cools_every_100_witness :
  let batches := [replicate 150 (StateNotCreated 1); replicate 70 (StateNotCreated 1)] in
  (logErrorMsg CoolingTotalErrMsg batches).1 = 80
  /\ Z.of_nat (logErrorMsg CoolingTotalErrMsg batches).2 = 2.
Proof.
  exact (logErrorMsg_cools_every_100
           [replicate 150 (StateNotCreated 1); replicate 70 (StateNotCreated 1)]).
Defined.

Lemma broadcast_votes_are_own_witness :
  votesOwn preparedNode
  /\ votesOwn (GetPrePrepare sample_digest preparedNode ppX).1
  /\ routeMsg preparedNode (MsgVote (commitFrom "R1")) = preparedNode.
Proof.
  assert (Hown : votesOwn preparedNode) by (repeat constructor).
  destruct (broadcast_votes_are_own sample_digest sampleCreateStateFor preparedNode Hown)
    as (_ & Hpp & _ & _ & _ & _ & Hroute).
  split; [exact Hown |]. split; [apply Hpp |].
  apply Hroute. by left.
Defined.

Lemma negative_view_panics_witness :
  NewNode R1 cluster (-1) = None
  /\ view <$> updateView sampleNode (-4) = Some (mkView (-4) R0).
Proof.
  split.
  - refine (proj1 (proj2 (proj1 (negative_view_panics sampleNode (-1) _ eq_refl) _)));
      [discriminate | vm_compute; discriminate].
  - destruct (proj2 (negative_view_panics sampleNode (-4) ltac:(discriminate) eq_refl)
                    eq_refl) as (primary & Hhead & Hview).
    injection Hhead as <-. exact Hview.
Defined.

Lemma backup_answers_primary_witness :
  let backup1 := (GetReq sample_digest sampleCreateStateFor sampleNode reqX).1 in
  MsgOutbound (GetReq sample_digest sampleCreateStateFor samplePrimary reqX).1
  = [mkMsgOut "localhost:1111/preprepare" (MsgPrePrepare ppX)]
  /\ MsgOutbound (GetPrePrepare sample_digest backup1 ppX).1
     = [mkMsgOut "localhost:1112/prepare" (MsgVote (prepareFrom "R1"))].
Proof.
  intros backup1.
  destruct (backup_answers_primary sample_digest sampleCreateStateFor samplePrimary
              sampleNode reqX eq_refl eq_refl eq_refl eq_refl)
    as (msg & state & Hout & _ & _ & _ & _ & _ & Hout').
  assert (Hmsg : msg = ppX) by (vm_compute in Hout; by injection Hout as <-).
  rewrite Hmsg in Hout'. split; [reflexivity | exact Hout'].
Defined.
